(** * Mint status board: ranking engine and probe cache

    A shallow embedding of the client-side scripts of the status board:
    - [MintSorter] (the sorter script): [getRowData], [calculateScore], the
      comparator of [applySort], [handleHeaderClick] and the reset handler of
      [bindEvents], and [applySort] on the table body and its headers;
    - [LatencyMonitor] (static/latency.js): [measureLatency] and
      [fetchSupportedUnits] with their caches and in-flight registries,
      [updateLatencyDisplay], [updateCurrenciesDisplay] and the pass of
      [measureAllVisibleMints] over the rows.

    Conventions.
    - A JavaScript Number is modelled by [Number]: NaN, the two infinities, or
      a finite value taken as a real number. Rounding to binary64, the
      overflow of a finite result to an infinity and the sign of zero are
      not modelled; the properties on the score of rows read from the page
      bound the integers read and the weights by [Num.MAX_SAFE_INTEGER].
    - JavaScript strings are modelled by [string], one [ascii] per code unit:
      the strings of code units below 256.
    - Asynchronous code is modelled by explicit state passing: a call runs up
      to its first suspension point, and the environment later delivers the
      outcome of the awaited operation to the suspended task. *)

From Stdlib Require Import ZArith QArith Qround Reals Lra Lia String Ascii List Bool.
From Stdlib Require Import Sorted.
From stdpp Require Import gmap strings list.

Local Open Scope Z_scope.

(** ** JavaScript numbers *)

Inductive Number : Type :=
| NaN
| NegInf
| Fin (r : R)
| PosInf.

Definition Rltb (x y : R) : bool := if Rlt_dec x y then true else false.
Definition Reqb (x y : R) : bool := if Req_dec_T x y then true else false.

Module Num.

Definition neg (a : Number) : Number :=
  match a with
  | NaN => NaN
  | NegInf => PosInf
  | Fin r => Fin (- r)
  | PosInf => NegInf
  end.

(** [a + b] *)
Definition add (a b : Number) : Number :=
  match a, b with
  | NaN, _ | _, NaN => NaN
  | Fin x, Fin y => Fin (x + y)
  | PosInf, NegInf | NegInf, PosInf => NaN
  | PosInf, _ | _, PosInf => PosInf
  | NegInf, _ | _, NegInf => NegInf
  end.

(** [a - b] *)
Definition sub (a b : Number) : Number := add a (neg b).

(** The infinity with the sign of [r] times the sign of [inf]; NaN for 0. *)
Definition scale_inf (positive : bool) (r : R) : Number :=
  if Reqb r 0 then NaN
  else if Bool.eqb (Rltb 0 r) positive then PosInf else NegInf.

(** [a * b] *)
Definition mul (a b : Number) : Number :=
  match a, b with
  | NaN, _ | _, NaN => NaN
  | Fin x, Fin y => Fin (x * y)
  | PosInf, Fin r | Fin r, PosInf => scale_inf true r
  | NegInf, Fin r | Fin r, NegInf => scale_inf false r
  | PosInf, PosInf | NegInf, NegInf => PosInf
  | PosInf, NegInf | NegInf, PosInf => NegInf
  end.

(** [a / b]; a zero divisor is taken as +0. *)
Definition div (a b : Number) : Number :=
  match a, b with
  | NaN, _ | _, NaN => NaN
  | Fin x, Fin y =>
      if Reqb y 0 then scale_inf true x else Fin (x / y)
  | Fin _, _ => Fin 0
  | PosInf, Fin y => if Rltb y 0 then NegInf else PosInf
  | NegInf, Fin y => if Rltb y 0 then PosInf else NegInf
  | _, _ => NaN
  end.

(** [a < b] *)
Definition lt (a b : Number) : bool :=
  match a, b with
  | NaN, _ | _, NaN => false
  | Fin x, Fin y => Rltb x y
  | NegInf, NegInf | PosInf, _ | _, NegInf => false
  | NegInf, _ | _, PosInf => true
  end.

(** [a > b] *)
Definition gt (a b : Number) : bool := lt b a.

(** [a >= b] *)
Definition ge (a b : Number) : bool :=
  match a, b with
  | NaN, _ | _, NaN => false
  | _, _ => negb (lt a b)
  end.

(** [a === b] on numbers *)
Definition strict_eq (a b : Number) : bool :=
  match a, b with
  | Fin x, Fin y => Reqb x y
  | PosInf, PosInf | NegInf, NegInf => true
  | _, _ => false
  end.

(** ToBoolean: NaN and zero are falsy. *)
Definition to_boolean (a : Number) : bool :=
  match a with
  | NaN => false
  | Fin r => negb (Reqb r 0)
  | _ => true
  end.

(** [Math.max(a, b)] *)
Definition max (a b : Number) : Number :=
  match a, b with
  | NaN, _ | _, NaN => NaN
  | _, _ => if lt a b then b else a
  end.

(** [Math.log10(a)] *)
Definition log10 (a : Number) : Number :=
  match a with
  | NaN | NegInf => NaN
  | PosInf => PosInf
  | Fin r =>
      if Rltb r 0 then NaN
      else if Reqb r 0 then NegInf
      else Fin (ln r / ln 10)
  end.

Definition of_Z (z : Z) : Number := Fin (IZR z).

(** [Number.MAX_SAFE_INTEGER], [2^53 - 1]: every integer of at most this
    magnitude is a Number, and is the Number that [parseInt] reads from
    its decimal digits. *)
Definition MAX_SAFE_INTEGER : Z := 9007199254740991.

(** Order on numbers as propositions; both hold only between finite values. *)
Definition Le (a b : Number) : Prop :=
  match a, b with
  | Fin x, Fin y => (x <= y)%R
  | _, _ => False
  end.

Definition Lt (a b : Number) : Prop :=
  match a, b with
  | Fin x, Fin y => (x < y)%R
  | _, _ => False
  end.

Definition finite (a : Number) : Prop :=
  match a with Fin _ => True | _ => False end.

(** The real value of a finite number. *)
Definition real (a : Number) : R :=
  match a with Fin r => r | _ => 0%R end.

End Num.

(** ** JavaScript strings *)

Module Str.

Local Open Scope N_scope.

Definition code (c : ascii) : N := N_of_ascii c.

(** White space and line terminators that [parseInt] and [parseFloat] skip
    (the code units below 256). *)
Definition is_white_space (c : ascii) : bool :=
  let n := code c in
  (n =? 9) || (n =? 10) || (n =? 11) || (n =? 12) || (n =? 13)
  || (n =? 32) || (n =? 160).

Fixpoint trim_start (s : string) : string :=
  match s with
  | String c rest => if is_white_space c then trim_start rest else s
  | EmptyString => s
  end.

Definition digit (c : ascii) : option Z :=
  let n := code c in
  if (48 <=? n) && (n <=? 57) then Some (Z.of_N (n - 48)) else None.

(** The longest prefix of decimal digits: its value, its length, and the
    rest of the string. *)
Fixpoint read_digits (s : string) (acc : Z) (count : nat) : Z * nat * string :=
  match s with
  | String c rest =>
      match digit c with
      | Some d => read_digits rest (10 * acc + d)%Z (S count)
      | None => (acc, count, s)
      end
  | EmptyString => (acc, count, s)
  end.

(** An optional leading sign: [true] for a minus sign. *)
Definition read_sign (s : string) : bool * string :=
  match s with
  | String "-"%char rest => (true, rest)
  | String "+"%char rest => (false, rest)
  | _ => (false, s)
  end.

(** [parseInt(s, 10)] before conversion to a Number: [None] is NaN. *)
Definition parseInt_Z (s : string) : option Z :=
  let '(negative, s1) := read_sign (trim_start s) in
  match read_digits s1 0%Z 0%nat with
  | (_, O, _) => None
  | (n, _, _) => Some (if negative then (- n)%Z else n)
  end.

(** [parseInt(s, 10)]. The Number is the integer read, which is exact for
    integers of magnitude at most [Num.MAX_SAFE_INTEGER]. Above it, as
    everywhere in [Number], the rounding to binary64 is not modelled, and
    neither is the overflow to an infinity of an integer of more than 308
    digits: the properties that conclude on the integers read bound them
    by [Num.MAX_SAFE_INTEGER]. *)
Definition parseInt (s : string) : Number :=
  match parseInt_Z s with
  | Some z => Num.of_Z z
  | None => NaN
  end.

(** What [parseFloat] reads: NaN, an infinity, or the decimal
    [mantissa * 10 ^ exponent] with its sign. *)
Inductive Parsed : Type :=
| PNaN
| PInfinity (negative : bool)
| PDecimal (negative : bool) (mantissa : Z) (exponent : Z).

Fixpoint starts_with (p s : string) : bool :=
  match p, s with
  | EmptyString, _ => true
  | String a p', String b s' => if Ascii.eqb a b then starts_with p' s' else false
  | String _ _, EmptyString => false
  end.

(** An exponent part [e], [E] followed by a signed integer; 0 when the
    string does not continue with a complete exponent part. *)
Definition read_exponent (s : string) : Z :=
  match s with
  | String c rest =>
      if (code c =? 101) || (code c =? 69) then
        let '(negative, s1) := read_sign rest in
        match read_digits s1 0%Z 0%nat with
        | (_, O, _) => 0%Z
        | (n, _, _) => if negative then (- n)%Z else n
        end
      else 0%Z
  | EmptyString => 0%Z
  end.

(** [parseFloat(s)]: the longest prefix of the trimmed string that is a
    decimal literal. *)
Definition parseFloat_parsed (s : string) : Parsed :=
  let '(negative, s1) := read_sign (trim_start s) in
  if starts_with "Infinity" s1 then PInfinity negative
  else
    let '(ip, ni, s2) := read_digits s1 0%Z 0%nat in
    match s2 with
    | String "."%char s3 =>
        let '(m, nf, s4) := read_digits s3 ip 0%nat in
        match ni, nf with
        | O, O => PNaN
        | _, _ => PDecimal negative m (read_exponent s4 - Z.of_nat nf)
        end
    | _ =>
        match ni with
        | O => PNaN
        | _ => PDecimal negative ip (read_exponent s2)
        end
    end.

Definition Number_of_Parsed (p : Parsed) : Number :=
  match p with
  | PNaN => NaN
  | PInfinity negative => if negative then NegInf else PosInf
  | PDecimal negative m e =>
      let v := (IZR m * powerRZ 10 e)%R in
      Fin (if negative then (- v)%R else v)
  end.

Definition parseFloat (s : string) : Number :=
  Number_of_Parsed (parseFloat_parsed s).

(** [s.toLowerCase()]. Of the code units below 256 the letters A to Z
    (65 to 90) and the letters from 192 to 222 other than the
    multiplication sign (215) have a lower case, 32 above them. *)
Definition lower (c : ascii) : ascii :=
  let n := code c in
  if ((65 <=? n) && (n <=? 90))
     || ((192 <=? n) && (n <=? 222) && negb (n =? 215))
  then ascii_of_N (n + 32) else c.

Fixpoint toLowerCase (s : string) : string :=
  match s with
  | EmptyString => EmptyString
  | String c rest => String (lower c) (toLowerCase rest)
  end.

(** [a < b] on strings: lexicographic on code units. *)
Definition lt (a b : string) : bool :=
  match String.compare a b with Lt => true | _ => false end.

(** [a || b] where [a] may be undefined: the empty string is falsy. *)
Definition or_else (a : option string) (b : string) : string :=
  match a with
  | Some EmptyString | None => b
  | Some s => s
  end.

(** [s.trim()] *)
Fixpoint trim_end (s : string) : string :=
  match s with
  | EmptyString => EmptyString
  | String c rest =>
      match trim_end rest with
      | EmptyString => if is_white_space c then EmptyString else String c EmptyString
      | kept => String c kept
      end
  end.

Definition trim (s : string) : string := trim_end (trim_start s).

Definition digit_char (d : Z) : ascii := ascii_of_N (48 + Z.to_N d).

(** The decimal digits of [n], most significant first, in front of [acc]. *)
Fixpoint digits_of (fuel : nat) (n : Z) (acc : string) : string :=
  match fuel with
  | O => acc
  | S fuel' =>
      let acc' := String (digit_char (n mod 10)%Z) acc in
      if (n <? 10)%Z then acc' else digits_of fuel' (n / 10)%Z acc'
  end.

(** [String(z)] for an integer [z], as written when a number is stored in
    a data attribute or spliced into a template (integers below 1e21). *)
Definition ofZ (z : Z) : string :=
  let n := Z.abs z in
  let digits := digits_of (S (Z.to_nat (Z.log2 n))) n EmptyString in
  if (z <? 0)%Z then String "-"%char digits else digits.

End Str.

(** ** The sorter script

    The version of the script with eight criteria (status, currency,
    capacity, channels, latency, mints, melts, errors). The script keeps its
    state in one object [state] and reads the rows from the page; here the
    handlers take and return the state, [calculateScore] takes the weights,
    and the comparator of [applySort] takes the state and the two rows. *)

Module MintSorter.

(** [row.dataset]: the data attributes of a table row, by property name. *)
Abbreviation Dataset := (gmap string string).

Record Weights : Type := {
  w_status : bool;
  w_currency : Number;
  w_capacity : Number;
  w_channels : Number;
  w_latency : Number;
  w_mints : Number;
  w_melts : Number;
  w_errors : Number
}.

Definition DEFAULTS : Weights := {|
  w_status := true;
  w_currency := Num.of_Z 50;
  w_capacity := Num.of_Z 5000;
  w_channels := Num.of_Z 20;
  w_latency := Num.of_Z 5;
  w_mints := Num.of_Z 50;
  w_melts := Num.of_Z 50;
  w_errors := Num.of_Z 200
|}.

Inductive Mode : Type := Weighted | Column.
Inductive Direction : Type := Asc | Desc.

(** [th.dataset.key]: the [data-key] attribute of a header, [Undefined]
    for a header without the attribute. *)
Inductive DataKey : Type :=
| Undefined
| Key (name : string).

Record State : Type := {
  mode : Mode;
  columnKey : option DataKey;  (* [None] is null, the value before a click *)
  direction : Direction;
  weights : Weights
}.

Definition initial : State := {|
  mode := Weighted;
  columnKey := None;
  direction := Desc;
  weights := DEFAULTS
|}.

Record RowData : Type := {
  element : Dataset;
  url : option string;         (* [None] is undefined *)
  ln_name : string;
  sortName : string;
  isUp : Number;
  uptime : Number;
  capacity : Number;
  channels : Number;
  currencies : Number;
  latency : Number;
  mints : Number;
  melts : Number;
  errors : Number
}.

Definition getRowData (row : Dataset) : RowData := {|
  element := row;
  url := row !! "url"%string;
  ln_name := Str.toLowerCase (Str.or_else (row !! "name"%string) "");
  sortName :=
    Str.toLowerCase
      (Str.or_else (row !! "name"%string) (Str.or_else (row !! "url"%string) ""));
  isUp := Str.parseInt (Str.or_else (row !! "up"%string) "0");
  uptime := Str.parseFloat (Str.or_else (row !! "uptime"%string) "0");
  capacity := Str.parseInt (Str.or_else (row !! "capacity"%string) "0");
  channels := Str.parseInt (Str.or_else (row !! "channels"%string) "0");
  currencies := Str.parseInt (Str.or_else (row !! "currencies"%string) "0");
  latency := Str.parseInt (Str.or_else (row !! "latency"%string) "99999");
  mints := Str.parseInt (Str.or_else (row !! "mints"%string) "0");
  melts := Str.parseInt (Str.or_else (row !! "melts"%string) "0");
  errors := Str.parseInt (Str.or_else (row !! "errors"%string) "0")
|}.

Definition zero : Number := Fin 0.

(** Step 1 of [calculateScore]: the status bias. *)
Definition addStatus (w : Weights) (data : RowData) (score : Number) : Number :=
  if w_status w then
    Num.add score (if Num.to_boolean (isUp data) then Fin 1000000000 else zero)
  else score.

Definition activityScore (w : Weights) (data : RowData) : Number :=
  Num.add (Num.mul (mints data) (w_mints w)) (Num.mul (melts data) (w_melts w)).

Definition modulation (w : Weights) (data : RowData) : Number :=
  let totalOps := Num.add (Num.add (mints data) (melts data)) (errors data) in
  let errorRate :=
    if Num.gt totalOps zero then Num.div (errors data) totalOps else zero in
  let penaltyFactor := Num.mul errorRate (Num.div (w_errors w) (Fin 100)) in
  Num.max zero (Num.sub (Fin 1) penaltyFactor).

(** Step 2: activity modulated by errors. *)
Definition addActivity (w : Weights) (data : RowData) (score : Number) : Number :=
  if Num.gt (activityScore w data) zero then
    Num.add score (Num.mul (activityScore w data) (modulation w data))
  else score.

(** Step 3: capacity, logarithmic. *)
Definition addCapacity (w : Weights) (data : RowData) (score : Number) : Number :=
  if Num.gt (capacity data) zero then
    Num.add score (Num.mul (Num.log10 (capacity data)) (w_capacity w))
  else score.

(** Step 4: channels, linear. *)
Definition addChannels (w : Weights) (data : RowData) (score : Number) : Number :=
  if Num.gt (channels data) zero then
    Num.add score (Num.mul (channels data) (w_channels w))
  else score.

(** Step 5: latency penalty. *)
Definition subLatency (w : Weights) (data : RowData) (score : Number) : Number :=
  if Num.ge (latency data) (Fin 99999) then
    Num.sub score (Num.mul (Fin 1000) (w_latency w))
  else
    Num.sub score (Num.mul (latency data) (w_latency w)).

(** Step 6: currencies. *)
Definition addCurrencies (w : Weights) (data : RowData) (score : Number) : Number :=
  Num.add score (Num.mul (currencies data) (w_currency w)).

Definition calculateScore (w : Weights) (data : RowData) : Number :=
  let score := zero in
  let score := addStatus w data score in
  let score := addActivity w data score in
  let score := addCapacity w data score in
  let score := addChannels w data score in
  let score := subLatency w data score in
  let score := addCurrencies w data score in
  score.

(** What each step contributes: steps 1 to 4 and 6 add their term to the
    score, step 5 subtracts its penalty. *)
Definition statusTerm (w : Weights) (data : RowData) : Number :=
  if w_status w then
    if Num.to_boolean (isUp data) then Fin 1000000000 else zero
  else zero.

Definition activityTerm (w : Weights) (data : RowData) : Number :=
  if Num.gt (activityScore w data) zero then
    Num.mul (activityScore w data) (modulation w data)
  else zero.

Definition capacityTerm (w : Weights) (data : RowData) : Number :=
  if Num.gt (capacity data) zero then
    Num.mul (Num.log10 (capacity data)) (w_capacity w)
  else zero.

Definition channelsTerm (w : Weights) (data : RowData) : Number :=
  if Num.gt (channels data) zero then
    Num.mul (channels data) (w_channels w)
  else zero.

Definition latencyPenalty (w : Weights) (data : RowData) : Number :=
  if Num.ge (latency data) (Fin 99999) then Num.mul (Fin 1000) (w_latency w)
  else Num.mul (latency data) (w_latency w).

Definition currencyTerm (w : Weights) (data : RowData) : Number :=
  Num.mul (currencies data) (w_currency w).

(** [data[key]] *)
Inductive Value : Type :=
| VUndefined
| VNumber (n : Number)
| VString (s : string)
| VElement (row : Dataset).

Definition fields (data : RowData) : list (string * Value) :=
  [ ("element", VElement (element data));
    ("url", match url data with Some u => VString u | None => VUndefined end);
    ("ln_name", VString (ln_name data));
    ("sortName", VString (sortName data));
    ("isUp", VNumber (isUp data));
    ("uptime", VNumber (uptime data));
    ("capacity", VNumber (capacity data));
    ("channels", VNumber (channels data));
    ("currencies", VNumber (currencies data));
    ("latency", VNumber (latency data));
    ("mints", VNumber (mints data));
    ("melts", VNumber (melts data));
    ("errors", VNumber (errors data)) ]%string.

Fixpoint assoc (key : string) (l : list (string * Value)) : Value :=
  match l with
  | [] => VUndefined
  | (k, v) :: rest => if String.eqb key k then v else assoc key rest
  end.

(** The property name that [data[state.columnKey]] reads. *)
Definition propertyName (key : option DataKey) : string :=
  match key with
  | Some (Key name) => name
  | Some Undefined => "undefined"
  | None => "null"
  end.

Definition get (data : RowData) (key : option DataKey) : Value :=
  assoc (propertyName key) (fields data).

(** [a < b] on the values read from two rows under one key. Two rows are
    both DOM elements of one kind, which convert to the same string; an
    undefined operand converts to NaN. Operands of two different defined
    kinds are never read under one key. *)
Definition value_lt (a b : Value) : bool :=
  match a, b with
  | VString x, VString y => Str.lt x y
  | VNumber x, VNumber y => Num.lt x y
  | _, _ => false
  end.

Definition signed (d : Direction) (ascending descending : Number) : Number :=
  match d with Asc => ascending | Desc => descending end.

(** The primary comparison of the comparator in [applySort]. *)
Definition primary (st : State) (a b : RowData) : Number :=
  match mode st with
  | Weighted =>
      let scoreA := calculateScore (weights st) a in
      let scoreB := calculateScore (weights st) b in
      Num.sub scoreB scoreA
  | Column =>
      let valA := get a (columnKey st) in
      let valB := get b (columnKey st) in
      if value_lt valA valB then signed (direction st) (Fin (-1)) (Fin 1)
      else if value_lt valB valA then signed (direction st) (Fin 1) (Fin (-1))
      else zero
  end.

(** The comparator passed to [rowData.sort] in [applySort]. *)
Definition compareRows (st : State) (a b : RowData) : Number :=
  let res := primary st a b in
  if Num.strict_eq res zero then
    if Str.lt (sortName a) (sortName b) then Fin (-1)
    else if Str.lt (sortName b) (sortName a) then Fin 1
    else res
  else res.

(** How [Array.prototype.sort] reads a comparator result: negative puts
    the first argument first, positive the second, anything else neither. *)
Definition order (res : Number) : comparison :=
  if Num.lt res zero then Lt
  else if Num.gt res zero then Gt
  else Eq.

(** The event handlers installed by [bindEvents]. *)
Inductive WeightKey : Type :=
| KCurrency | KCapacity | KChannels | KLatency | KMints | KMelts | KErrors.

Definition setWeight (key : WeightKey) (val : Number) (w : Weights) : Weights :=
  match key with
  | KCurrency =>
      {| w_status := w_status w; w_currency := val; w_capacity := w_capacity w;
         w_channels := w_channels w; w_latency := w_latency w; w_mints := w_mints w;
         w_melts := w_melts w; w_errors := w_errors w |}
  | KCapacity =>
      {| w_status := w_status w; w_currency := w_currency w; w_capacity := val;
         w_channels := w_channels w; w_latency := w_latency w; w_mints := w_mints w;
         w_melts := w_melts w; w_errors := w_errors w |}
  | KChannels =>
      {| w_status := w_status w; w_currency := w_currency w; w_capacity := w_capacity w;
         w_channels := val; w_latency := w_latency w; w_mints := w_mints w;
         w_melts := w_melts w; w_errors := w_errors w |}
  | KLatency =>
      {| w_status := w_status w; w_currency := w_currency w; w_capacity := w_capacity w;
         w_channels := w_channels w; w_latency := val; w_mints := w_mints w;
         w_melts := w_melts w; w_errors := w_errors w |}
  | KMints =>
      {| w_status := w_status w; w_currency := w_currency w; w_capacity := w_capacity w;
         w_channels := w_channels w; w_latency := w_latency w; w_mints := val;
         w_melts := w_melts w; w_errors := w_errors w |}
  | KMelts =>
      {| w_status := w_status w; w_currency := w_currency w; w_capacity := w_capacity w;
         w_channels := w_channels w; w_latency := w_latency w; w_mints := w_mints w;
         w_melts := val; w_errors := w_errors w |}
  | KErrors =>
      {| w_status := w_status w; w_currency := w_currency w; w_capacity := w_capacity w;
         w_channels := w_channels w; w_latency := w_latency w; w_mints := w_mints w;
         w_melts := w_melts w; w_errors := val |}
  end.

Definition setStatus (checked : bool) (w : Weights) : Weights :=
  {| w_status := checked; w_currency := w_currency w; w_capacity := w_capacity w;
     w_channels := w_channels w; w_latency := w_latency w; w_mints := w_mints w;
     w_melts := w_melts w; w_errors := w_errors w |}.

(** [elements.inputs.status.onchange] *)
Definition onStatusChange (checked : bool) (st : State) : State :=
  {| mode := Weighted; columnKey := columnKey st; direction := direction st;
     weights := setStatus checked (weights st) |}.

(** [input.oninput] of the weight [key], with the text of the input. *)
Definition onWeightInput (key : WeightKey) (value : string) (st : State) : State :=
  let val := Str.parseInt value in
  {| mode := Weighted; columnKey := columnKey st; direction := direction st;
     weights := setWeight key val (weights st) |}.

(** [elements.resetBtn.onclick] *)
Definition onReset (st : State) : State :=
  {| mode := Weighted; columnKey := columnKey st; direction := direction st;
     weights := DEFAULTS |}.

Definition flip (d : Direction) : Direction :=
  match d with Desc => Asc | Asc => Desc end.

Definition isColumn (m : Mode) : bool :=
  match m with Column => true | Weighted => false end.

(** [key === name] for a string [name] *)
Definition named (key : DataKey) (name : string) : bool :=
  match key with Key k => String.eqb k name | Undefined => false end.

(** [state.columnKey === key]: two strings that are equal, or undefined
    on both sides; null is no data key. *)
Definition keyIs (k : option DataKey) (key : DataKey) : bool :=
  match k, key with
  | Some (Key c), Key name => String.eqb c name
  | Some Undefined, Undefined => true
  | _, _ => false
  end.

(** [handleHeaderClick(th)] with [key = th.dataset.key]. *)
Definition handleHeaderClick (key : DataKey) (st : State) : State :=
  if isColumn (mode st) && keyIs (columnKey st) key then
    {| mode := mode st; columnKey := columnKey st;
       direction := flip (direction st); weights := weights st |}
  else
    {| mode := Column; columnKey := Some key;
       direction :=
         if named key "latency" || named key "url" || named key "errors"
         then Asc else Desc;
       weights := weights st |}.

(** The events of the page: for a click, the [data-key] of the header
    clicked. *)
Inductive Event : Type :=
| StatusChange (checked : bool)
| WeightInput (key : WeightKey) (value : string)
| Reset
| HeaderClick (key : DataKey).

Definition handle (e : Event) (st : State) : State :=
  match e with
  | StatusChange checked => onStatusChange checked st
  | WeightInput key value => onWeightInput key value st
  | Reset => onReset st
  | HeaderClick key => handleHeaderClick key st
  end.

(** The states the handlers can reach from the initial one. *)
Inductive reachable : State -> Prop :=
| reachable_initial : reachable initial
| reachable_handle e st : reachable st -> reachable (handle e st).

(** *** The table and [applySort] *)

(** A child of the table body ([elements.tbody]): a row with its data
    attributes, or a row of class [section-divider]. *)
Inductive Child : Type :=
| Tr (row : Dataset)
| SectionDivider.

(** A header cell [th.sortable]: its [data-key] and its class list. *)
Record Th : Type := { th_key : DataKey; classList : list string }.

(** [elements.table] (its sortable headers) and [elements.tbody] (its
    children); [None] when the page has no such element. *)
Record Elements : Type := {
  table : option (list Th);
  tbody : option (list Child)
}.

(** [tbody.querySelectorAll('tr:not(.section-divider)')] *)
Fixpoint rowsOf (children : list Child) : list Dataset :=
  match children with
  | [] => []
  | Tr row :: rest => row :: rowsOf rest
  | SectionDivider :: rest => rowsOf rest
  end.

(** The children after [divider.remove()] for the first divider. *)
Fixpoint removeDivider (children : list Child) : list Child :=
  match children with
  | [] => []
  | SectionDivider :: rest => rest
  | c :: rest => c :: removeDivider rest
  end.

(** The children after [rows.forEach(r => r.remove())]. *)
Fixpoint removeRows (children : list Child) : list Child :=
  match children with
  | [] => []
  | Tr _ :: rest => removeRows rest
  | c :: rest => c :: removeRows rest
  end.

(** [rowData.sort(comparator)]. The sort is stable; it is modelled by a
    stable insertion sort that reads the comparator as [order] does. *)
Fixpoint insertRow (comparator : RowData -> RowData -> Number)
    (x : RowData) (sorted : list RowData) : list RowData :=
  match sorted with
  | [] => [x]
  | y :: rest =>
      match order (comparator x y) with
      | Gt => y :: insertRow comparator x rest
      | _ => x :: sorted
      end
  end.

Fixpoint sortRows (comparator : RowData -> RowData -> Number)
    (rowData : list RowData) : list RowData :=
  match rowData with
  | [] => []
  | x :: rest => insertRow comparator x (sortRows comparator rest)
  end.

Definition directionName (d : Direction) : string :=
  match d with Asc => "asc" | Desc => "desc" end.

Definition isMarker (c : string) : bool :=
  (String.eqb c "asc" || String.eqb c "desc")%string.

(** The header with its visual state updated:
    [th.classList.remove('asc', 'desc')], then [th.classList.add] of the
    direction when the table is sorted by the column of this header. *)
Definition markHeader (st : State) (th : Th) : Th :=
  let cleared := List.filter (fun c => negb (isMarker c)) (classList th) in
  let current := isColumn (mode st) && keyIs (columnKey st) (th_key th) in
  {| th_key := th_key th;
     classList := if current then cleared ++ [directionName (direction st)]
                  else cleared |}.

(** [applySort()] *)
Definition applySort (st : State) (elements : Elements) : Elements :=
  match tbody elements with
  | None => elements
  | Some children =>
      let rows := rowsOf children in
      let rowData := sortRows (compareRows st) (map getRowData rows) in
      {| table := option_map (map (markHeader st)) (table elements);
         tbody :=
           Some (removeRows (removeDivider children)
                 ++ map (fun d => Tr (element d)) rowData) |}
  end.

(** *** Vocabulary of the properties *)

(** Fields as record construction leaves them when the data attribute holds
    a count: an integer that is not negative. *)
Definition count (n : Number) : Prop :=
  exists z : Z, 0 <= z /\ n = Num.of_Z z.

(** A weight that is a number and not negative. *)
Definition weight (n : Number) : Prop :=
  exists r : R, (0 <= r)%R /\ n = Fin r.

Record counts (d : RowData) : Prop := {
  counts_capacity : count (capacity d);
  counts_channels : count (channels d);
  counts_currencies : count (currencies d);
  counts_latency : count (latency d);
  counts_mints : count (mints d);
  counts_melts : count (melts d);
  counts_errors : count (errors d)
}.

Record nonnegative (w : Weights) : Prop := {
  nonneg_currency : weight (w_currency w);
  nonneg_capacity : weight (w_capacity w);
  nonneg_channels : weight (w_channels w);
  nonneg_latency : weight (w_latency w);
  nonneg_mints : weight (w_mints w);
  nonneg_melts : weight (w_melts w);
  nonneg_errors : weight (w_errors w)
}.

(** Every count of the row is at most [F]; every numeric weight at most [W]. *)
Definition fields_within (F : R) (d : RowData) : Prop :=
  Forall (fun n => Num.Le n (Fin F))
    [capacity d; channels d; currencies d; latency d; mints d; melts d; errors d].

Definition weights_within (W : R) (w : Weights) : Prop :=
  Forall (fun n => Num.Le n (Fin W))
    [w_currency w; w_capacity w; w_channels w; w_latency w; w_mints w;
     w_melts w; w_errors w].

(** The latency that step 5 charges for a count: the count itself below
    the sentinel, 1000 from the sentinel on. *)
Definition penalty_of (l : Z) : R :=
  if Z_lt_dec l 99999 then IZR l else 1000%R.

(** The row [d] with one field replaced. *)
Definition setErrors (v : Number) (d : RowData) : RowData :=
  {| element := element d; url := url d; ln_name := ln_name d;
     sortName := sortName d; isUp := isUp d; uptime := uptime d;
     capacity := capacity d; channels := channels d; currencies := currencies d;
     latency := latency d; mints := mints d; melts := melts d; errors := v |}.

Definition setCapacity (v : Number) (d : RowData) : RowData :=
  {| element := element d; url := url d; ln_name := ln_name d;
     sortName := sortName d; isUp := isUp d; uptime := uptime d;
     capacity := v; channels := channels d; currencies := currencies d;
     latency := latency d; mints := mints d; melts := melts d; errors := errors d |}.

Definition setChannels (v : Number) (d : RowData) : RowData :=
  {| element := element d; url := url d; ln_name := ln_name d;
     sortName := sortName d; isUp := isUp d; uptime := uptime d;
     capacity := capacity d; channels := v; currencies := currencies d;
     latency := latency d; mints := mints d; melts := melts d; errors := errors d |}.

Definition setCurrencies (v : Number) (d : RowData) : RowData :=
  {| element := element d; url := url d; ln_name := ln_name d;
     sortName := sortName d; isUp := isUp d; uptime := uptime d;
     capacity := capacity d; channels := channels d; currencies := v;
     latency := latency d; mints := mints d; melts := melts d; errors := errors d |}.

Definition setLatency (v : Number) (d : RowData) : RowData :=
  {| element := element d; url := url d; ln_name := ln_name d;
     sortName := sortName d; isUp := isUp d; uptime := uptime d;
     capacity := capacity d; channels := channels d; currencies := currencies d;
     latency := v; mints := mints d; melts := melts d; errors := errors d |}.

(** The data attribute [key] of the row is absent or empty. *)
Definition unset (row : Dataset) (key : string) : Prop :=
  row !! key = None \/ row !! key = Some ""%string.

(** An integer of magnitude at most [F]. *)
Definition integer (F : Z) (n : Number) : Prop :=
  exists z : Z, (Z.abs z <= F)%Z /\ n = Num.of_Z z.

(** A number, not NaN and not an infinity, of magnitude at most [W]. *)
Definition number_within (W : R) (n : Number) : Prop :=
  exists r : R, n = Fin r /\ (- W <= r <= W)%R.

(** The data attribute [key] is unset, or starts (after white space and a
    sign) with a decimal integer of magnitude at most [F]. *)
Definition integer_within (F : Z) (row : Dataset) (key : string) : Prop :=
  unset row key \/
  exists (s : string) (z : Z),
    row !! key = Some s /\ Str.parseInt_Z s = Some z /\ (Z.abs z <= F)%Z.

Definition integer_keys : list string :=
  ["up"; "capacity"; "channels"; "currencies"; "latency"; "mints"; "melts";
   "errors"]%string.

Definition integer_fields (d : RowData) : list Number :=
  [isUp d; capacity d; channels d; currencies d; latency d; mints d; melts d;
   errors d].

Definition numeric_weights (w : Weights) : list Number :=
  [w_currency w; w_capacity w; w_channels w; w_latency w; w_mints w;
   w_melts w; w_errors w].

(** The order of two rows by their sort name, ascending. *)
Definition byName (a b : RowData) : comparison :=
  String.compare (sortName a) (sortName b).

(** The three-way reading of [<] on the values of one column. *)
Definition value_compare (a b : Value) : comparison :=
  if value_lt a b then Lt else if value_lt b a then Gt else Eq.

Definition thenBy (c1 c2 : comparison) : comparison :=
  match c1 with Eq => c2 | _ => c1 end.

(** A value that [<] orders against the values of its kind: a string, a
    number other than NaN, or a row element. *)
Definition comparable (v : Value) : Prop :=
  match v with
  | VNumber NaN | VUndefined => False
  | _ => True
  end.

(** Two comparable values of one kind. *)
Inductive same_kind : Value -> Value -> Prop :=
| same_kind_number x y :
    x <> NaN -> y <> NaN -> same_kind (VNumber x) (VNumber y)
| same_kind_string s t : same_kind (VString s) (VString t)
| same_kind_element r r' : same_kind (VElement r) (VElement r').

(** A row the comparator can rank in the state [st]: its score is a finite
    number in the weighted mode, its value under the column key is
    comparable in the column mode. *)
Definition sortable (st : State) (d : RowData) : Prop :=
  match mode st with
  | Weighted => Num.finite (calculateScore (weights st) d)
  | Column => comparable (get d (columnKey st))
  end.

Definition withDirection (dir : Direction) (st : State) : State :=
  {| mode := mode st; columnKey := columnKey st; direction := dir;
     weights := weights st |}.




(** *** Sample rows, weights and states *)

(** A row built from counts, as [getRowData] builds it from a row whose
    data attributes hold these integers. *)
Definition rowOf (name u : string) (up cap ch cur lat m l e : Z) : RowData :=
  {| element := ∅; url := Some u; ln_name := Str.toLowerCase name;
     sortName := Str.toLowerCase (Str.or_else (Some name) u);
     isUp := Num.of_Z up; uptime := zero;
     capacity := Num.of_Z cap; channels := Num.of_Z ch;
     currencies := Num.of_Z cur; latency := Num.of_Z lat;
     mints := Num.of_Z m; melts := Num.of_Z l; errors := Num.of_Z e |}.

(** Sample rows and weights: a live mint measured at 2000 ms, the same
    mint with its latency unknown, the same mint down, and the weights and
    the two rows of the worked example of the documentation. *)
Definition slowRow : RowData :=
  rowOf "Mint A" "https://a.example" 1 0 0 3 2000 0 0 0.
Definition unknownRow : RowData :=
  rowOf "Mint A" "https://a.example" 1 0 0 3 99999 0 0 0.
Definition downRow : RowData :=
  rowOf "Mint C" "https://c.example" 0 1000 5 3 200 100 50 150.
Definition exampleWeights : Weights := {|
  w_status := true; w_currency := Num.of_Z 50; w_capacity := Num.of_Z 5000;
  w_channels := Num.of_Z 20; w_latency := Num.of_Z 5; w_mints := Num.of_Z 10;
  w_melts := Num.of_Z 10; w_errors := Num.of_Z 100
|}.
Definition exampleA : RowData :=
  rowOf "Mint A" "https://a.example" 1 1000 5 3 200 100 50 150.
Definition exampleB : RowData :=
  rowOf "Mint B" "https://b.example" 1 1000 5 3 200 0 0 0.

(** Two mints that share their display name. *)
Definition twinA : RowData :=
  rowOf "Cashu mint" "https://a.example" 1 1000 5 3 200 100 50 0.
Definition twinB : RowData :=
  rowOf "Cashu mint" "https://b.example" 1 1000 5 3 200 100 50 0.
Definition byCapacity : State :=
  {| mode := Column; columnKey := Some (Key "capacity"); direction := Asc;
     weights := DEFAULTS |}.

(** A row as the page may deliver it: the capacity and the latency are
    present but hold no number. *)
Definition unparsableRow : Dataset :=
  list_to_map
    [("url", "https://a.example"); ("name", "Mint A"); ("up", "1");
     ("capacity", "n/a"); ("latency", "n/a")]%string.

(** A row before any probe has written to it: no latency, no currencies. *)
Definition freshRow : Dataset :=
  list_to_map
    [("url", "https://a.example"); ("name", "Mint A"); ("up", "1");
     ("uptime", "99.5"); ("capacity", "1000"); ("channels", "5");
     ("mints", "100"); ("melts", "50"); ("errors", "")]%string.

(** *** Vocabulary of the properties of [applySort] *)

(** The comparator does not put [b] before [a]. *)
Definition notAfter (st : State) (a b : RowData) : Prop :=
  order (compareRows st a b) <> Gt.

Fixpoint dividers (children : list Child) : nat :=
  match children with
  | [] => 0
  | SectionDivider :: rest => S (dividers rest)
  | Tr _ :: rest => dividers rest
  end.

(** A table body with two rows around a divider, and its headers. *)
Definition sampleElements : Elements :=
  {| table :=
       Some [ {| th_key := Key "capacity"; classList := ["sortable"; "desc"]%string |};
              {| th_key := Key "latency"; classList := ["sortable"]%string |} ];
     tbody := Some [Tr unparsableRow; SectionDivider; Tr freshRow] |}.

(** A row of a mint that is up, one of a mint that is down, and a table
    body that holds them, the mint that is down first. *)
Definition liveDataset : Dataset :=
  list_to_map
    [("url", "https://a.example"); ("name", "Mint A"); ("up", "1");
     ("capacity", "1000"); ("channels", "5"); ("currencies", "3");
     ("latency", "120"); ("mints", "100"); ("melts", "50"); ("errors", "2")]%string.

Definition downDataset : Dataset :=
  list_to_map
    [("url", "https://c.example"); ("name", "Mint C"); ("up", "0");
     ("capacity", "900"); ("latency", "250")]%string.

Definition rankedElements : Elements :=
  {| table :=
       Some [ {| th_key := Key "capacity"; classList := ["sortable"; "desc"]%string |};
              {| th_key := Key "latency"; classList := ["sortable"]%string |} ];
     tbody := Some [Tr downDataset; SectionDivider; Tr liveDataset] |}.

End MintSorter.

(** ** The probe script (static/latency.js) *)

Local Set Warnings "-register-all".

Module LatencyMonitor.

Definition CACHE_DURATION_MS : Z := 10000.
Definition REQUEST_TIMEOUT_MS : Z := 5000.
Definition REFRESH_INTERVAL_MS : Z := 15000.

(** The two clocks the script reads: [Date.now()] and [performance.now()]. *)
Record Time : Type := { date_now : Z; performance_now : Q }.

(** How a [fetch] settles: a response with its [ok] flag, or a rejection
    (network error, or abort by the timeout of [REQUEST_TIMEOUT_MS]). *)
Inductive FetchResult : Type :=
| Response (ok : bool)
| NetworkError
| Aborted.

(** A cache entry [{ latency, timestamp }] or [{ units, timestamp }]; a
    [value] of [None] is null. *)
Record Entry (V : Type) : Type := { value : option V; timestamp : Z }.
Arguments value {V} _.
Arguments timestamp {V} _.

(** What an async call hands back: a promise already resolved with a value,
    or one that follows the promise [p] of a running probe. *)
Inductive Return (V : Type) : Type :=
| Immediate (v : option V)
| Awaits (p : nat).
Arguments Immediate {V} _.
Arguments Awaits {V} _.

(** [mintUrl.replace(/\/$/, '')] *)
Fixpoint strip_slash (s : string) : string :=
  match s with
  | EmptyString => EmptyString
  | String c EmptyString => if Ascii.eqb c "/" then EmptyString else s
  | String c rest => String c (strip_slash rest)
  end.

Definition info_url (mintUrl : string) : string :=
  (strip_slash mintUrl ++ "/v1/info")%string.

Definition keysets_url (mintUrl : string) : string :=
  (strip_slash mintUrl ++ "/v1/keysets")%string.

Definition is_fresh {V} (now : Time) (cached : Entry V) : bool :=
  date_now now - timestamp cached <? CACHE_DURATION_MS.

(** [Math.round] *)
Definition round (x : Q) : Z := Qfloor (x + (1 # 2)).

(** *** The latency probe *)

(** A body of [measurePromise] suspended at [await fetch], with the
    variables it closes over. *)
Record Measure : Type := { measure_url : string; start : Q }.

Record Latency : Type := {
  latencyCache : gmap string (Entry Z);
  pendingRequests : gmap string nat;
  measuring : gmap nat Measure;          (* suspended probes, by promise *)
  measured : gmap nat (option Z);        (* settled promises *)
  infoRequests : list string;            (* the fetch calls issued so far *)
  nextMeasure : nat
}.

Definition latency_init : Latency := {|
  latencyCache := ∅; pendingRequests := ∅; measuring := ∅; measured := ∅;
  infoRequests := []; nextMeasure := 0
|}.

(** [measureLatency(mintUrl)] up to its return. On a miss the body of
    [measurePromise] runs to its first suspension point, so the fetch is
    issued, and the promise is registered in [pendingRequests], before any
    other task can run. *)
Definition measureLatency (mintUrl : string) (now : Time) (st : Latency)
  : Return Z * Latency :=
  let miss :=
    match pendingRequests st !! mintUrl with
    | Some p => (Awaits p, st)
    | None =>
        let p := nextMeasure st in
        (Awaits p,
         {| latencyCache := latencyCache st;
            pendingRequests := <[mintUrl := p]> (pendingRequests st);
            measuring :=
              <[p := {| measure_url := mintUrl; start := performance_now now |}]>
                (measuring st);
            measured := measured st;
            infoRequests := infoRequests st ++ [info_url mintUrl];
            nextMeasure := S p |})
    end in
  match latencyCache st !! mintUrl with
  | Some cached => if is_fresh now cached then (Immediate (value cached), st) else miss
  | None => miss
  end.

(** The rest of the body of [measurePromise], run when the fetch of the
    probe [p] settles with [r]. *)
Definition settleLatency (p : nat) (r : FetchResult) (now : Time) (st : Latency)
  : Latency :=
  match measuring st !! p with
  | None => st
  | Some task =>
      let mintUrl := measure_url task in
      let latency := round (performance_now now - start task) in
      let ok := match r with Response true => true | _ => false end in
      {| latencyCache :=
           if ok then
             <[mintUrl := {| value := Some latency; timestamp := date_now now |}]>
               (latencyCache st)
           else latencyCache st;
         pendingRequests := delete mintUrl (pendingRequests st);
         measuring := delete p (measuring st);
         measured := <[p := if ok then Some latency else None]> (measured st);
         infoRequests := infoRequests st;
         nextMeasure := nextMeasure st |}
  end.

(** [latencyCache.clear()] of the periodic refresh. *)
Definition clearLatency (st : Latency) : Latency :=
  {| latencyCache := ∅;
     pendingRequests := pendingRequests st;
     measuring := measuring st;
     measured := measured st;
     infoRequests := infoRequests st;
     nextMeasure := nextMeasure st |}.

(** What a caller observes through the promise it was handed. *)
Definition observe {V} (results : gmap nat (option V)) (r : Return V)
  : option (option V) :=
  match r with
  | Immediate v => Some v
  | Awaits p => results !! p
  end.

Inductive LatencyEvent : Type :=
| CallLatency (mintUrl : string)
| FetchSettled (p : nat) (r : FetchResult)
| ClearLatency.

Definition latency_step (e : LatencyEvent) (now : Time) (st : Latency) : Latency :=
  match e with
  | CallLatency mintUrl => snd (measureLatency mintUrl now st)
  | FetchSettled p r => settleLatency p r now st
  | ClearLatency => clearLatency st
  end.

(** [latency_reachable t st]: [st] is reached by calls, settlements and
    cache clears, the last of them when [Date.now()] read [t]; the
    readings never go back. *)
Inductive latency_reachable : Z -> Latency -> Prop :=
| latency_start t : latency_reachable t latency_init
| latency_next t st e now :
    latency_reachable t st ->
    t <= date_now now ->
    latency_reachable (date_now now) (latency_step e now st).

(** What holds of every reachable state when [Date.now()] last read [t]:
    the registry lists exactly the suspended probes, by their URL; a URL
    with a probe in flight has no fresh cache entry; promises are numbered
    below [nextMeasure]; no cache entry holds null. *)
Record latency_invariant (t : Z) (st : Latency) : Prop := {
  latency_registered :
    forall u p, pendingRequests st !! u = Some p ->
      exists k, measuring st !! p = Some k /\ measure_url k = u;
  latency_in_flight :
    forall p k, measuring st !! p = Some k ->
      pendingRequests st !! measure_url k = Some p;
  latency_stale :
    forall u p c, pendingRequests st !! u = Some p ->
      latencyCache st !! u = Some c -> CACHE_DURATION_MS <= t - timestamp c;
  latency_numbered :
    forall p k, measuring st !! p = Some k -> (p < nextMeasure st)%nat;
  latency_not_null :
    forall u c, latencyCache st !! u = Some c -> exists z, value c = Some z
}.

(** *** The capability probe *)

(** The value of [await response.json()]. *)
Inductive Json : Type :=
| JNull
| JBool (b : bool)
| JNumber (q : Q)
| JString (s : string)
| JArray (items : list Json)
| JObject (props : list (string * Json)).

Fixpoint lookup_prop (name : string) (props : list (string * Json)) : option Json :=
  match props with
  | [] => None
  | (k, v) :: rest => if String.eqb name k then Some v else lookup_prop name rest
  end.

(** [v.name] or [v?.name]; [None] is undefined. Of the values other than
    objects none has a property called keysets, active or unit. *)
Definition prop (v : Json) (name : string) : option Json :=
  match v with
  | JObject props => lookup_prop name props
  | _ => None
  end.

Definition truthy (v : Json) : bool :=
  match v with
  | JNull => false
  | JBool b => b
  | JNumber q => negb (Qeq_bool q 0)
  | JString s => negb (String.eqb s "")
  | JArray _ | JObject _ => true
  end.

(** [ks && ks.active === true && typeof ks.unit === 'string'] *)
Definition is_active_unit (ks : Json) : bool :=
  truthy ks
  && match prop ks "active" with Some (JBool true) => true | _ => false end
  && match prop ks "unit" with Some (JString _) => true | _ => false end.

(** [ks.unit] of an entry that passed the filter. *)
Definition unit_of (ks : Json) : string :=
  match prop ks "unit" with Some (JString u) => u | _ => "" end.

(** [[...new Set(l)]]: the members in the order of their first insertion. *)
Definition set_add (acc : list string) (x : string) : list string :=
  if bool_decide (x ∈ acc) then acc else acc ++ [x].

Definition spread_set (l : list string) : list string :=
  fold_left set_add l [].

Definition extract_units (data : Json) : list string :=
  let keysets :=
    match prop data "keysets" with
    | Some (JArray items) => items
    | _ => []
    end in
  spread_set (map unit_of (List.filter is_active_unit keysets)).

(** A body of [fetchPromise], suspended at [await fetch] or at
    [await response.json()]. *)
Inductive Fetching : Type :=
| AwaitFetch (mintUrl : string)
| AwaitJson (mintUrl : string).

Definition fetching_url (task : Fetching) : string :=
  match task with AwaitFetch u | AwaitJson u => u end.

Record Units : Type := {
  currencyCache : gmap string (Entry (list string));
  pendingCurrencyRequests : gmap string nat;
  fetching : gmap nat Fetching;
  fetched : gmap nat (option (list string));
  keysetRequests : list string;
  nextFetch : nat
}.

Definition units_init : Units := {|
  currencyCache := ∅; pendingCurrencyRequests := ∅; fetching := ∅; fetched := ∅;
  keysetRequests := []; nextFetch := 0
|}.

(** [fetchSupportedUnits(mintUrl)] up to its return, as [measureLatency]. *)
Definition fetchSupportedUnits (mintUrl : string) (now : Time) (st : Units)
  : Return (list string) * Units :=
  let miss :=
    match pendingCurrencyRequests st !! mintUrl with
    | Some p => (Awaits p, st)
    | None =>
        let p := nextFetch st in
        (Awaits p,
         {| currencyCache := currencyCache st;
            pendingCurrencyRequests := <[mintUrl := p]> (pendingCurrencyRequests st);
            fetching := <[p := AwaitFetch mintUrl]> (fetching st);
            fetched := fetched st;
            keysetRequests := keysetRequests st ++ [keysets_url mintUrl];
            nextFetch := S p |})
    end in
  match currencyCache st !! mintUrl with
  | Some cached => if is_fresh now cached then (Immediate (value cached), st) else miss
  | None => miss
  end.

(** The body of [fetchPromise] leaves through [return] or [catch], then
    [finally]: the promise [p] resolves with [result], and the cache takes
    the entry [store] when there is one. *)
Definition finishUnits (p : nat) (mintUrl : string)
    (store : option (Entry (list string))) (result : option (list string))
    (st : Units) : Units :=
  {| currencyCache :=
       match store with
       | Some entry => <[mintUrl := entry]> (currencyCache st)
       | None => currencyCache st
       end;
     pendingCurrencyRequests := delete mintUrl (pendingCurrencyRequests st);
     fetching := delete p (fetching st);
     fetched := <[p := result]> (fetched st);
     keysetRequests := keysetRequests st;
     nextFetch := nextFetch st |}.

(** The fetch of the probe [p] settles with [r]. *)
Definition settleUnitsFetch (p : nat) (r : FetchResult) (st : Units) : Units :=
  match fetching st !! p with
  | Some (AwaitFetch mintUrl) =>
      match r with
      | Response true =>
          {| currencyCache := currencyCache st;
             pendingCurrencyRequests := pendingCurrencyRequests st;
             fetching := <[p := AwaitJson mintUrl]> (fetching st);
             fetched := fetched st;
             keysetRequests := keysetRequests st;
             nextFetch := nextFetch st |}
      | _ => finishUnits p mintUrl None None st
      end
  | _ => st
  end.

(** [response.json()] of the probe [p] settles: with the parsed body, or
    with a rejection ([None]) when the body cannot be read or parsed. *)
Definition settleUnitsJson (p : nat) (body : option Json) (now : Time) (st : Units)
  : Units :=
  match fetching st !! p with
  | Some (AwaitJson mintUrl) =>
      match body with
      | Some data =>
          let units := extract_units data in
          finishUnits p mintUrl
            (Some {| value := Some units; timestamp := date_now now |})
            (Some units) st
      | None => finishUnits p mintUrl None None st
      end
  | _ => st
  end.

(** [currencyCache.clear()] of the periodic refresh. *)
Definition clearUnits (st : Units) : Units :=
  {| currencyCache := ∅;
     pendingCurrencyRequests := pendingCurrencyRequests st;
     fetching := fetching st;
     fetched := fetched st;
     keysetRequests := keysetRequests st;
     nextFetch := nextFetch st |}.

Inductive UnitsEvent : Type :=
| CallUnits (mintUrl : string)
| UnitsFetchSettled (p : nat) (r : FetchResult)
| UnitsJsonSettled (p : nat) (body : option Json)
| ClearUnits.

Definition units_step (e : UnitsEvent) (now : Time) (st : Units) : Units :=
  match e with
  | CallUnits mintUrl => snd (fetchSupportedUnits mintUrl now st)
  | UnitsFetchSettled p r => settleUnitsFetch p r st
  | UnitsJsonSettled p body => settleUnitsJson p body now st
  | ClearUnits => clearUnits st
  end.

Inductive units_reachable : Z -> Units -> Prop :=
| units_start t : units_reachable t units_init
| units_next t st e now :
    units_reachable t st ->
    t <= date_now now ->
    units_reachable (date_now now) (units_step e now st).

(** The same of the capability probe. *)
Record units_invariant (t : Z) (st : Units) : Prop := {
  units_registered :
    forall u p, pendingCurrencyRequests st !! u = Some p ->
      exists k, fetching st !! p = Some k /\ fetching_url k = u;
  units_in_flight :
    forall p k, fetching st !! p = Some k ->
      pendingCurrencyRequests st !! fetching_url k = Some p;
  units_stale :
    forall u p c, pendingCurrencyRequests st !! u = Some p ->
      currencyCache st !! u = Some c -> CACHE_DURATION_MS <= t - timestamp c;
  units_numbered :
    forall p k, fetching st !! p = Some k -> (p < nextFetch st)%nat;
  units_not_null :
    forall u c, currencyCache st !! u = Some c -> exists l, value c = Some l
}.

(** *** What the page shows *)

(** [getLatencyClass] *)
Definition getLatencyClass (latency : option Z) : string :=
  match latency with
  | None => "none"
  | Some l => if l <=? 300 then "fast" else if l <=? 1000 then "ok" else "slow"
  end.

(** What [updateLatencyDisplay] writes to [row.dataset.latency]. *)
Definition dataset_latency (latency : option Z) : Z :=
  match latency with None => 99999 | Some l => l end.

(** *** The cells of a row

    A cell holds text nodes and the badges (spans) the script puts there;
    [className] is the class attribute as written. *)
Inductive Node : Type :=
| TextNode (data : string)
| Span (spanClass : string) (text : string).

Record Cell : Type := { className : string; childNodes : list Node }.

Definition nodeText (n : Node) : string :=
  match n with TextNode s | Span _ s => s end.

Definition textContent (cell : Cell) : string :=
  String.concat "" (map nodeText (childNodes cell)).

(** The class names of a class attribute are separated by tabs, line
    feeds, form feeds, carriage returns and spaces. *)
Definition is_class_separator (c : ascii) : bool :=
  let n := Str.code c in
  ((n =? 9) || (n =? 10) || (n =? 12) || (n =? 13) || (n =? 32))%N.

Fixpoint class_names (s current : string) : list string :=
  match s with
  | EmptyString => if String.eqb current "" then [] else [current]
  | String c rest =>
      if is_class_separator c then
        if String.eqb current "" then class_names rest ""
        else current :: class_names rest ""
      else class_names rest (current ++ String c "")
  end.

Definition hasClass (name className : string) : bool :=
  bool_decide (name ∈ class_names className "").

(** A match of the selector [.badge.latency]. *)
Definition isLatencyBadge (n : Node) : bool :=
  match n with
  | Span c _ => hasClass "badge" c && hasClass "latency" c
  | TextNode _ => false
  end.

Definition latencyBadge (latency : Z) : Node :=
  Span ("badge latency " ++ getLatencyClass (Some latency))
       (Str.ofZ latency ++ " ms").

(** [updateLatencyDisplay(cell, latency)]; [row] is the data of
    [cell.closest('tr')], [None] for a cell outside of a row. *)
Definition updateLatencyDisplay (cell : Cell) (latency : option Z)
    (row : option MintSorter.Dataset) : Cell * option MintSorter.Dataset :=
  let cell :=
    match latency with
    | None => {| className := ""; childNodes := [TextNode "-"] |}
    | Some l => {| className := className cell; childNodes := [latencyBadge l] |}
    end in
  (cell, option_map (insert "latency"%string (Str.ofZ (dataset_latency latency))) row).

Definition unitBadge (unit : string) : list Node :=
  [Span "badge unit" unit; TextNode " "].

(** [updateCurrenciesDisplay(cell, units)] *)
Definition updateCurrenciesDisplay (cell : Cell) (units : option (list string))
    (row : option MintSorter.Dataset) : Cell * option MintSorter.Dataset :=
  match units with
  | None | Some [] =>
      ({| className := className cell; childNodes := [TextNode "-"] |},
       option_map (insert "currencies"%string (Str.ofZ 0)) row)
  | Some units =>
      ({| className := className cell; childNodes := flat_map unitBadge units |},
       option_map
         (insert "currencies"%string (Str.ofZ (Z.of_nat (length units)))) row)
  end.

(** *** One pass over the table *)

(** A row of the table body: its data attributes, the [href] of its mint
    link ([td.mint a.link]) when it has one, and its cells, all of them
    [td] elements. *)
Record MintRow : Type := {
  dataset : MintSorter.Dataset;
  link : option string;
  cells : list Cell
}.

(** [row.querySelector('td:nth-last-child(1)')], with its position. *)
Definition latencyCell (row : MintRow) : option (nat * Cell) :=
  match last (cells row) with
  | Some cell => Some (pred (length (cells row)), cell)
  | None => None
  end.

Fixpoint find_cell (p : Cell -> bool) (i : nat) (l : list Cell) : option (nat * Cell) :=
  match l with
  | [] => None
  | cell :: rest => if p cell then Some (i, cell) else find_cell p (S i) rest
  end.

(** [row.querySelector('td.currencies')], with its position. *)
Definition currenciesCell (row : MintRow) : option (nat * Cell) :=
  find_cell (fun cell => hasClass "currencies" (className cell)) 0 (cells row).

(** [cell.innerHTML = ...] with the markup of one span. *)
Definition setInnerSpan (j : nat) (spanClass text : string) (row : MintRow) : MintRow :=
  match cells row !! j with
  | Some cell =>
      {| dataset := dataset row; link := link row;
         cells := <[j := {| className := className cell;
                            childNodes := [Span spanClass text] |}]> (cells row) |}
  | None => row
  end.

(** The mint URL of a link: [http:] becomes [https:] on a page that was
    itself loaded over HTTPS. *)
Definition mintUrlOf (https : bool) (href : string) : string :=
  if https && Str.starts_with "http:" href then
    ("https:" ++ String.substring 5 (String.length href - 5) href)%string
  else href.

Record Monitor : Type := { latencyState : Latency; unitsState : Units }.

(** An entry of [measurements]: the promise of a probe and the cell, by
    row and position, that its [then] callback updates with
    [updateLatencyDisplay] or [updateCurrenciesDisplay]. *)
Inductive Measurement : Type :=
| ShowLatency (i j : nat) (r : Return Z)
| ShowUnits (i j : nat) (r : Return (list string)).

(** One iteration of the loop of [measureAllVisibleMints] over the row
    [i], the clock reading [now]. *)
Definition measureRow (https : bool) (now : Time) (i : nat) (row : MintRow)
    (m : Monitor) : MintRow * Monitor * list Measurement :=
  match link row with
  | None => (row, m, [])
  | Some href =>
      let mintUrl := mintUrlOf https href in
      match latencyCell row with
      | None => (row, m, [])
      | Some (j, cell) =>
          let row :=
            if negb (existsb isLatencyBadge (childNodes cell))
               && String.eqb (Str.trim (textContent cell)) "-"
            then setInnerSpan j "badge latency none" "..." row
            else row in
          let '(r, lat) := measureLatency mintUrl now (latencyState m) in
          match currenciesCell row with
          | None =>
              (row, {| latencyState := lat; unitsState := unitsState m |},
               [ShowLatency i j r])
          | Some (k, cell) =>
              let row :=
                if String.eqb (Str.trim (textContent cell)) "-"
                then setInnerSpan k "badge unit" "..." row
                else row in
              let '(u, cur) := fetchSupportedUnits mintUrl now (unitsState m) in
              (row, {| latencyState := lat; unitsState := cur |},
               [ShowLatency i j r; ShowUnits i k u])
          end
      end
  end.

(** The loop over the rows from the row [i] on; the iteration over the
    row [n] reads the clock as [clock n]. *)
Fixpoint measureRows (https : bool) (clock : nat -> Time) (i : nat)
    (rows : list MintRow) (m : Monitor) : list MintRow * Monitor * list Measurement :=
  match rows with
  | [] => ([], m, [])
  | row :: rest =>
      let '(row, m, first) := measureRow https (clock i) i row m in
      let '(rest, m, others) := measureRows https clock (S i) rest m in
      (row :: rest, m, first ++ others)
  end.

(** [measureAllVisibleMints()] up to [Promise.all]: not staggered, the
    loop runs through without another task in between. [rows] are the
    rows of the table body that are not section dividers. *)
Definition measureAllVisibleMints (https : bool) (clock : nat -> Time)
    (rows : list MintRow) (m : Monitor) : list MintRow * Monitor * list Measurement :=
  measureRows https clock 0 rows m.

(** The mint URLs a pass probes: of the rows with a link and a cell, and
    of those among them with a currencies cell. *)
Definition probed (https : bool) (row : MintRow) : option string :=
  match link row, latencyCell row with
  | Some href, Some _ => Some (mintUrlOf https href)
  | _, _ => None
  end.

Definition probedForUnits (https : bool) (row : MintRow) : option string :=
  match probed https row with
  | Some u =>
      if existsb (fun cell => hasClass "currencies" (className cell)) (cells row)
      then Some u else None
  | None => None
  end.

(** From [before] to [after], each the requests issued so far and the
    registry of pending probes, requests went out for the URLs [news], in
    this order, and for nothing else: each URL of [news] was not
    registered before and is registered after, and nothing registered
    before has left the registry. *)
Definition issues (address : string -> string)
    (before after : list string * gmap string nat) (news : list string) : Prop :=
  fst after = fst before ++ map address news /\
  (forall u, u ∈ news -> snd before !! u = None /\ is_Some (snd after !! u)) /\
  (forall u, is_Some (snd before !! u) -> is_Some (snd after !! u)).

Definition infoProbes (m : Monitor) : list string * gmap string nat :=
  (infoRequests (latencyState m), pendingRequests (latencyState m)).

Definition keysetProbes (m : Monitor) : list string * gmap string nat :=
  (keysetRequests (unitsState m), pendingCurrencyRequests (unitsState m)).

Definition isSpan (n : Node) : bool :=
  match n with Span _ _ => true | TextNode _ => false end.

(** The probe [p] is registered for [u], and no cache entry for [u] is
    fresh from the clock reading [t] on. *)
Definition awaited (u : string) (p : nat) (t : Z) (st : Latency) : Prop :=
  pendingRequests st !! u = Some p /\
  forall c, latencyCache st !! u = Some c -> CACHE_DURATION_MS <= t - timestamp c.

(** The book-keeping of the latency probes: one request for each probe
    started, to the address of its URL; a probe started is in flight or
    settled, not both. *)
Record latency_accounting (st : Latency) : Prop := {
  one_request_each : length (infoRequests st) = nextMeasure st;
  request_of_probe :
    forall p k, measuring st !! p = Some k ->
      infoRequests st !! p = Some (info_url (measure_url k));
  in_flight_or_settled :
    forall p, (p < nextMeasure st)%nat <->
      is_Some (measuring st !! p) \/ is_Some (measured st !! p);
  not_both :
    forall p, is_Some (measuring st !! p) -> measured st !! p = None
}.

(** *** Sample runs *)

(** Sample runs: a first call for a mint, its fetch answered 80.4 ms later,
    and the same for the capability probe with a keysets body. *)
Definition sampleUrl : string := "https://a.example/".
Definition time0 : Time := {| date_now := 1000; performance_now := 5 |}.
Definition time1 : Time := {| date_now := 1080; performance_now := 427 # 5 |}.
Definition time2 : Time := {| date_now := 1090; performance_now := 95 |}.

Definition measuringSample : Latency :=
  snd (measureLatency sampleUrl time0 latency_init).
Definition measuredSample : Latency :=
  settleLatency 0 (Response true) time1 measuringSample.
Definition fetchingSample : Units :=
  snd (fetchSupportedUnits sampleUrl time0 units_init).
Definition readingSample : Units :=
  settleUnitsFetch 0 (Response true) fetchingSample.

Definition keyset (unit : string) (active : bool) : Json :=
  JObject [("id", JString "00ad268c4d1f5826"); ("unit", JString unit);
           ("active", JBool active)]%string.

Definition sampleBody : Json :=
  JObject [("keysets",
            JArray [keyset "sat" true; keyset "usd" true; keyset "eur" false;
                    keyset "sat" true; JNull;
                    JObject [("unit", JNumber 1); ("active", JBool true)]])]%string.


Definition dashCell : Cell := {| className := ""; childNodes := [TextNode "-"] |}.

Definition currenciesDash : Cell :=
  {| className := "currencies"; childNodes := [TextNode "-"] |}.

Definition mintCell (name : string) : Cell :=
  {| className := "mint"; childNodes := [TextNode name] |}.

Definition sampleRow (name href : string) : MintRow :=
  {| dataset := {["name" := name]}; link := Some href;
     cells := [mintCell name; currenciesDash; dashCell] |}.

(** Three rows, two of them for the same mint, and one without a link. *)
Definition sampleRows : list MintRow :=
  [sampleRow "alpha" "http://a.example"; sampleRow "beta" "http://b.example";
   sampleRow "alpha again" "http://a.example";
   {| dataset := ∅; link := None; cells := [dashCell] |}]%string.

Definition freshMonitor : Monitor :=
  {| latencyState := latency_init; unitsState := units_init |}.

End LatencyMonitor.

(** * Properties *)

Import MintSorter.

(** ** Parsing *)

Example parseInt_examples :
  map Str.parseInt_Z ["42"; "  -7x"; "+0012"; ""; "abc"; "-"; "12.9"; "0x1f"]%string
  = [Some 42; Some (-7); Some 12; None; None; None; Some 12; Some 0].
Proof. reflexivity. Qed.

Example parseFloat_examples :
  map Str.parseFloat_parsed ["0"; "99.5"; " -.5e2"; "1e"; "."; "Infinity"; "1.e-3x"; "n/a"]%string
  = [Str.PDecimal false 0 0; Str.PDecimal false 995 (-1); Str.PDecimal true 5 1;
     Str.PDecimal false 1 0; Str.PNaN; Str.PInfinity false;
     Str.PDecimal false 1 (-3); Str.PNaN].
Proof. reflexivity. Qed.

(** ** Arithmetic on [Number] *)

Section NumberFacts.

Local Open Scope R_scope.

Lemma Rltb_true x y : x < y -> Rltb x y = true.
Proof. intros H. unfold Rltb. destruct (Rlt_dec x y); [reflexivity | contradiction]. Qed.

Lemma Rltb_false x y : y <= x -> Rltb x y = false.
Proof. intros H. unfold Rltb. destruct (Rlt_dec x y); [lra | reflexivity]. Qed.

Lemma Rltb_spec x y : Rltb x y = true <-> x < y.
Proof. unfold Rltb. destruct (Rlt_dec x y); split; intros; try discriminate; tauto. Qed.

Lemma Rltb_nlt x y : Rltb x y = false <-> y <= x.
Proof. unfold Rltb. destruct (Rlt_dec x y); split; intros; try discriminate; lra. Qed.

Lemma Reqb_true x y : x = y -> Reqb x y = true.
Proof. intros H. unfold Reqb. destruct (Req_dec_T x y); [reflexivity | contradiction]. Qed.

Lemma Reqb_false x y : x <> y -> Reqb x y = false.
Proof. intros H. unfold Reqb. destruct (Req_dec_T x y); [contradiction | reflexivity]. Qed.

Lemma Reqb_spec x y : Reqb x y = true <-> x = y.
Proof. unfold Reqb. destruct (Req_dec_T x y); split; intros; try discriminate; tauto. Qed.

Lemma ln_10_gt_1 : 1 < ln 10.
Proof.
  rewrite <- (ln_exp 1). apply ln_increasing; [apply exp_pos |].
  pose proof exp_le_3. lra.
Qed.

(** The logarithm of a count of at least 1 lies between 0 and the count. *)
Lemma log10_bounds x : 1 <= x -> 0 <= ln x / ln 10 <= x.
Proof.
  intros Hx. pose proof ln_10_gt_1 as H10.
  assert (0 <= ln x) as H0.
  { rewrite <- ln_1. destruct Hx as [Hx | <-]; [left; apply ln_increasing; lra | lra]. }
  assert (ln x <= x) as H1.
  { destruct Hx as [Hx | <-]; [| rewrite ln_1; lra].
    pose proof (exp_ineq1 (ln x)) as He.
    rewrite exp_ln in He by lra.
    destruct H0 as [H0 | H0]; [| lra].
    assert (ln x <> 0) as Hne by lra. specialize (He Hne). lra. }
  assert (0 < / ln 10) as Hi by (apply Rinv_0_lt_compat; lra).
  assert (ln 10 * / ln 10 = 1) as Hr by (apply Rinv_r; lra).
  unfold Rdiv. split; nra.
Qed.

End NumberFacts.

(** ** The score as a sum of terms *)

Section ScoreTerms.

Local Open Scope R_scope.

Lemma add_zero (s : Number) : Num.add s zero = s.
Proof. destruct s; simpl; try reflexivity. f_equal. lra. Qed.

Lemma addStatus_term w d s : addStatus w d s = Num.add s (statusTerm w d).
Proof.
  unfold addStatus, statusTerm. destruct (w_status w); [reflexivity |].
  symmetry. apply add_zero.
Qed.

Lemma addActivity_term w d s : addActivity w d s = Num.add s (activityTerm w d).
Proof.
  unfold addActivity, activityTerm.
  destruct (Num.gt (activityScore w d) zero); [reflexivity |].
  symmetry. apply add_zero.
Qed.

Lemma addCapacity_term w d s : addCapacity w d s = Num.add s (capacityTerm w d).
Proof.
  unfold addCapacity, capacityTerm.
  destruct (Num.gt (capacity d) zero); [reflexivity |].
  symmetry. apply add_zero.
Qed.

Lemma addChannels_term w d s : addChannels w d s = Num.add s (channelsTerm w d).
Proof.
  unfold addChannels, channelsTerm.
  destruct (Num.gt (channels d) zero); [reflexivity |].
  symmetry. apply add_zero.
Qed.

Lemma subLatency_term w d s : subLatency w d s = Num.sub s (latencyPenalty w d).
Proof.
  unfold subLatency, latencyPenalty.
  destruct (Num.ge (latency d) (Fin 99999)); reflexivity.
Qed.

(** [calculateScore] adds up its six terms, whatever the values. *)
Lemma calculateScore_terms w d :
  calculateScore w d =
  Num.add
    (Num.sub
       (Num.add
          (Num.add (Num.add (Num.add zero (statusTerm w d)) (activityTerm w d))
             (capacityTerm w d))
          (channelsTerm w d))
       (latencyPenalty w d))
    (currencyTerm w d).
Proof.
  unfold calculateScore, addCurrencies, currencyTerm.
  rewrite subLatency_term, addChannels_term, addCapacity_term,
    addActivity_term, addStatus_term.
  reflexivity.
Qed.

(** When the terms are finite, so is the score, with the real sum as value. *)
Lemma calculateScore_real w d s a c h l u :
  statusTerm w d = Fin s -> activityTerm w d = Fin a ->
  capacityTerm w d = Fin c -> channelsTerm w d = Fin h ->
  latencyPenalty w d = Fin l -> currencyTerm w d = Fin u ->
  calculateScore w d = Fin (s + a + c + h - l + u).
Proof.
  intros Hs Ha Hc Hh Hl Hu.
  rewrite calculateScore_terms, Hs, Ha, Hc, Hh, Hl, Hu. simpl.
  f_equal. lra.
Qed.

Lemma count_nonneg n (z : Z) :
  (0 <= z)%Z -> n = Num.of_Z z -> n = Fin (IZR z) /\ 0 <= IZR z.
Proof.
  intros Hz ->. split; [reflexivity |]. apply IZR_le in Hz. exact Hz.
Qed.

(** The status term is 1e9 for a live row and 0 for a dead one. *)
Lemma statusTerm_cases w d :
  statusTerm w d =
  Fin (if w_status w && Num.to_boolean (isUp d) then 1000000000 else 0).
Proof.
  unfold statusTerm, zero.
  destruct (w_status w), (Num.to_boolean (isUp d)); reflexivity.
Qed.

Lemma channelsTerm_count w d z r :
  (0 <= z)%Z -> channels d = Num.of_Z z -> w_channels w = Fin r ->
  channelsTerm w d = Fin (IZR z * r).
Proof.
  intros Hz Hc Hw. unfold channelsTerm. rewrite Hc, Hw. unfold Num.of_Z, zero.
  simpl. apply IZR_le in Hz. unfold Num.gt, Num.lt, Rltb.
  destruct (Rlt_dec 0 (IZR z)); [reflexivity |].
  f_equal. assert (IZR z = 0) as -> by lra. lra.
Qed.

Lemma currencyTerm_count w d z r :
  currencies d = Num.of_Z z -> w_currency w = Fin r ->
  currencyTerm w d = Fin (IZR z * r).
Proof. intros Hc Hw. unfold currencyTerm. rewrite Hc, Hw. reflexivity. Qed.

(** The capacity term of a count: finite, not negative, at most
    [capacity * weight], and growing with the capacity. *)
Lemma capacityTerm_count w d z r :
  (0 <= z)%Z -> capacity d = Num.of_Z z -> w_capacity w = Fin r -> 0 <= r ->
  exists x, capacityTerm w d = Fin x /\ 0 <= x <= IZR z * r.
Proof.
  intros Hz Hc Hw Hr. unfold capacityTerm. rewrite Hc, Hw.
  unfold Num.of_Z, zero, Num.gt, Num.lt, Rltb.
  destruct (Rlt_dec 0 (IZR z)) as [Hpos | Hnpos].
  - assert (1 <= IZR z) as H1.
    { apply lt_IZR in Hpos. apply (IZR_le 1). lia. }
    unfold Num.log10. rewrite Rltb_false by lra. rewrite Reqb_false by lra.
    simpl. eexists; split; [reflexivity |].
    pose proof (log10_bounds _ H1). nra.
  - exists 0. split; [reflexivity |]. apply IZR_le in Hz. nra.
Qed.

Lemma capacityTerm_mono w d d' z z' r :
  (0 <= z <= z')%Z -> capacity d = Num.of_Z z -> capacity d' = Num.of_Z z' ->
  w_capacity w = Fin r -> 0 <= r ->
  Num.real (capacityTerm w d) <= Num.real (capacityTerm w d').
Proof.
  intros [Hz Hzz'] Hc Hc' Hw Hr. unfold capacityTerm. rewrite Hc, Hc', Hw.
  unfold Num.of_Z, zero, Num.gt, Num.lt, Rltb.
  assert (IZR z <= IZR z') as Hle by (apply IZR_le; exact Hzz').
  destruct (Rlt_dec 0 (IZR z)) as [Hpos | Hnpos];
    destruct (Rlt_dec 0 (IZR z')) as [Hpos' | Hnpos']; try lra.
  - unfold Num.log10. rewrite !Rltb_false by lra. rewrite !Reqb_false by lra.
    simpl. apply Rmult_le_compat_r; [exact Hr |].
    pose proof ln_10_gt_1 as H10.
    assert (ln (IZR z) <= ln (IZR z')) as Hln.
    { destruct Hle as [Hlt | ->]; [left; apply ln_increasing; lra | lra]. }
    assert (0 < / ln 10) as Hi by (apply Rinv_0_lt_compat; lra).
    unfold Rdiv. nra.
  - assert (1 <= IZR z') as H1.
    { apply lt_IZR in Hpos'. apply (IZR_le 1). lia. }
    unfold Num.log10. rewrite Rltb_false by lra. rewrite Reqb_false by lra.
    simpl. pose proof (log10_bounds _ H1). nra.
Qed.

(** The latency penalty of a count. *)
Lemma latencyPenalty_count w d z r :
  latency d = Num.of_Z z -> w_latency w = Fin r ->
  latencyPenalty w d = Fin (penalty_of z * r).
Proof.
  intros Hl Hw. unfold latencyPenalty, penalty_of. rewrite Hl, Hw.
  unfold Num.of_Z, Num.ge, Num.lt.
  destruct (Z_lt_dec z 99999) as [Hlt | Hge].
  - rewrite Rltb_true by (apply IZR_lt; exact Hlt). reflexivity.
  - rewrite Rltb_false by (apply IZR_le; lia). reflexivity.
Qed.

End ScoreTerms.

(** ** The activity term *)

Section ActivityTerm.

Local Open Scope R_scope.

Variables (w : Weights) (d : RowData).
Variables (m l e : Z) (wm wl we : R).
Hypothesis Hm : (0 <= m)%Z.
Hypothesis Hl : (0 <= l)%Z.
Hypothesis He : (0 <= e)%Z.
Hypothesis mints_d : mints d = Num.of_Z m.
Hypothesis melts_d : melts d = Num.of_Z l.
Hypothesis errors_d : errors d = Num.of_Z e.
Hypothesis mints_w : w_mints w = Fin wm.
Hypothesis melts_w : w_melts w = Fin wl.
Hypothesis errors_w : w_errors w = Fin we.

Let act : R := IZR m * wm + IZR l * wl.
Let rate : R := IZR e / (IZR m + IZR l + IZR e).

Lemma activityScore_count : activityScore w d = Fin act.
Proof.
  unfold activityScore. rewrite mints_d, melts_d, mints_w, melts_w. reflexivity.
Qed.

Lemma activity_positive_ops : 0 < act -> 0 < IZR m + IZR l.
Proof.
  unfold act. intros Hact.
  apply IZR_le in Hm, Hl.
  destruct (Rle_lt_dec (IZR m + IZR l) 0) as [Hz | Hpos]; [| exact Hpos].
  assert (IZR m = 0) as Hm0 by lra. assert (IZR l = 0) as Hl0 by lra.
  rewrite Hm0, Hl0 in Hact. lra.
Qed.

Lemma modulation_count :
  0 < act -> modulation w d = Fin (Rmax 0 (1 - rate * (we / 100))).
Proof.
  intros Hact. pose proof (activity_positive_ops Hact) as Hops.
  pose proof (IZR_le _ _ He) as He'.
  unfold modulation. rewrite mints_d, melts_d, errors_d, errors_w.
  unfold Num.of_Z, zero. simpl. unfold Num.gt, Num.lt.
  rewrite Rltb_true by lra. simpl.
  rewrite Reqb_false by lra. rewrite Reqb_false by lra. simpl.
  fold rate. unfold Rmax, Rltb.
  destruct (Rlt_dec 0 (1 + - (rate * (we / 100))));
    destruct (Rle_dec 0 (1 - rate * (we / 100))); f_equal; lra.
Qed.

(** The term that step 2 adds, in closed form. *)
Lemma activityTerm_count :
  activityTerm w d =
  Fin (if Rlt_dec 0 act then act * Rmax 0 (1 - rate * (we / 100)) else 0).
Proof.
  unfold activityTerm. rewrite activityScore_count.
  unfold Num.gt, Num.lt, zero, Rltb.
  destruct (Rlt_dec 0 act) as [Hact | Hact]; [| reflexivity].
  rewrite (modulation_count Hact). reflexivity.
Qed.

Lemma activityTerm_nonneg : 0 <= Num.real (activityTerm w d).
Proof.
  rewrite activityTerm_count. simpl.
  destruct (Rlt_dec 0 act) as [Hact | Hact]; [| lra].
  pose proof (Rmax_l 0 (1 - rate * (we / 100))). nra.
Qed.

Lemma rate_bounds : 0 < IZR m + IZR l -> 0 <= rate <= 1.
Proof.
  intros Hops. pose proof (IZR_le _ _ He) as He'. unfold rate.
  assert (0 < / (IZR m + IZR l + IZR e)) as Hi by (apply Rinv_0_lt_compat; lra).
  assert ((IZR m + IZR l + IZR e) * / (IZR m + IZR l + IZR e) = 1) as Hr
      by (apply Rinv_r; lra).
  unfold Rdiv. split; nra.
Qed.

Lemma activityTerm_le_activity :
  0 <= wm -> 0 <= wl -> 0 <= we -> Num.real (activityTerm w d) <= act.
Proof.
  intros Hwm Hwl Hwe. rewrite activityTerm_count. simpl.
  pose proof (IZR_le _ _ Hm) as Hm'. pose proof (IZR_le _ _ Hl) as Hl'.
  destruct (Rlt_dec 0 act) as [Hact | Hact]; [| unfold act; nra].
  pose proof (rate_bounds (activity_positive_ops Hact)) as [Hr0 Hr1].
  assert (0 <= rate * (we / 100)) as Hp by (apply Rmult_le_pos; lra).
  assert (Rmax 0 (1 - rate * (we / 100)) <= 1) as Hmax
      by (apply Rmax_lub; lra).
  pose proof (Rmax_l 0 (1 - rate * (we / 100))). nra.
Qed.

End ActivityTerm.

Section ErrorsModulateActivity.

Local Open Scope R_scope.

Lemma ratio_mono t e e' : 0 < t -> 0 <= e <= e' -> e / (t + e) <= e' / (t + e').
Proof.
  intros Ht [He Hee'].
  replace (e / (t + e)) with (1 - t / (t + e)) by (field; lra).
  replace (e' / (t + e')) with (1 - t / (t + e')) by (field; lra).
  assert (/ (t + e') <= / (t + e)) as Hi by (apply Rinv_le_contravar; lra).
  unfold Rdiv. nra.
Qed.

Lemma Rmax_0_mono x y : x <= y -> Rmax 0 x <= Rmax 0 y.
Proof. intros H. unfold Rmax. destruct (Rle_dec 0 x), (Rle_dec 0 y); lra. Qed.

(** C3. In [calculateScore], step 2 adds [activityTerm] to the score. On a
    row of counts, with numeric weights and an errors weight that is not
    negative: when the activity [mints * w.mints + melts * w.melts] is
    positive, raising [errors] alone never raises the term; the term is
    never negative; and when the activity is 0 the score does not depend
    on [errors] at all. *)
Theorem errors_only_discount_activity (w : Weights) (d : RowData) :
  (forall s, addActivity w d s = Num.add s (activityTerm w d)) /\
  (forall (m l : Z) (wm wl we : R),
      (0 <= m)%Z -> (0 <= l)%Z ->
      mints d = Num.of_Z m -> melts d = Num.of_Z l ->
      w_mints w = Fin wm -> w_melts w = Fin wl -> w_errors w = Fin we ->
      (0 <= we ->
       Num.gt (activityScore w d) zero = true ->
       forall e e' : Z, (0 <= e <= e')%Z ->
         Num.Le (activityTerm w (setErrors (Num.of_Z e') d))
                (activityTerm w (setErrors (Num.of_Z e) d))) /\
      (forall e : Z, (0 <= e)%Z ->
         Num.Le zero (activityTerm w (setErrors (Num.of_Z e) d)))) /\
  (activityScore w d = zero ->
   forall v v' : Number,
     calculateScore w (setErrors v d) = calculateScore w (setErrors v' d)).
Proof.
  split; [apply addActivity_term |]. split.
  - intros m l wm wl we Hm Hl Hdm Hdl Hwm Hwl Hwe. split.
    + intros Hwe0 Hgt e e' [He Hee'].
      assert (0 <= e')%Z as He' by lia.
      rewrite (activityScore_count w d m l wm wl Hdm Hdl Hwm Hwl) in Hgt.
      apply Rltb_spec in Hgt.
      rewrite (activityTerm_count w (setErrors (Num.of_Z e') d) m l e' wm wl we
                 Hm Hl He' Hdm Hdl eq_refl Hwm Hwl Hwe).
      rewrite (activityTerm_count w (setErrors (Num.of_Z e) d) m l e wm wl we
                 Hm Hl He Hdm Hdl eq_refl Hwm Hwl Hwe).
      simpl. destruct (Rlt_dec 0 (IZR m * wm + IZR l * wl)); [| lra].
      pose proof (activity_positive_ops m l wm wl Hm Hl Hgt) as Hops.
      assert (IZR e / (IZR m + IZR l + IZR e)
              <= IZR e' / (IZR m + IZR l + IZR e')) as Hrate.
      { apply ratio_mono; [exact Hops |].
        split; [apply (IZR_le 0); exact He | apply IZR_le; exact Hee']. }
      apply Rmult_le_compat_l; [lra |]. apply Rmax_0_mono.
      assert (0 <= we / 100) by lra. nra.
    + intros e He.
      pose proof (activityTerm_nonneg w (setErrors (Num.of_Z e) d) m l e wm wl we
                    Hm Hl He Hdm Hdl eq_refl Hwm Hwl Hwe) as Hn.
      rewrite (activityTerm_count w (setErrors (Num.of_Z e) d) m l e wm wl we
                 Hm Hl He Hdm Hdl eq_refl Hwm Hwl Hwe) in Hn |- *.
      exact Hn.
  - intros Hzero v v'.
    unfold calculateScore, addActivity, addStatus, addCapacity, addChannels,
      subLatency, addCurrencies.
    change (activityScore w (setErrors v d)) with (activityScore w d).
    change (activityScore w (setErrors v' d)) with (activityScore w d).
    rewrite Hzero. unfold Num.gt, Num.lt, zero. rewrite Rltb_false by lra.
    reflexivity.
Qed.

End ErrorsModulateActivity.

(** ** Scores of rows of counts *)

Section CountScores.

Local Open Scope R_scope.

Lemma finite_real n : Num.finite n -> n = Fin (Num.real n).
Proof. destruct n; simpl; intros H; try contradiction. reflexivity. Qed.

Lemma terms_finite w d :
  nonnegative w -> counts d ->
  Num.finite (statusTerm w d) /\ Num.finite (activityTerm w d) /\
  Num.finite (capacityTerm w d) /\ Num.finite (channelsTerm w d) /\
  Num.finite (latencyPenalty w d) /\ Num.finite (currencyTerm w d).
Proof.
  intros [(wu & Hwu & Ewu) (wc & Hwc & Ewc) (wh & Hwh & Ewh) (wl & Hwl & Ewl)
            (wm & Hwm & Ewm) (wt & Hwt & Ewt) (we & Hwe & Ewe)]
         [(c & Hc & Ec) (h & Hh & Eh) (u & Hu & Eu) (l & Hl & El)
            (m & Hm & Em) (t & Ht & Et) (e & He & Ee)].
  repeat split.
  - rewrite statusTerm_cases. exact I.
  - rewrite (activityTerm_count w d m t e wm wt we Hm Ht He Em Et Ee Ewm Ewt Ewe).
    exact I.
  - destruct (capacityTerm_count w d c wc Hc Ec Ewc Hwc) as (x & -> & _). exact I.
  - rewrite (channelsTerm_count w d h wh Hh Eh Ewh). exact I.
  - rewrite (latencyPenalty_count w d l wl El Ewl). exact I.
  - rewrite (currencyTerm_count w d u wu Eu Ewu). exact I.
Qed.

(** On a row of counts, with weights that are not negative, the score is
    the finite sum of the six terms. *)
Lemma calculateScore_counts w d :
  nonnegative w -> counts d ->
  calculateScore w d =
  Fin (Num.real (statusTerm w d) + Num.real (activityTerm w d)
       + Num.real (capacityTerm w d) + Num.real (channelsTerm w d)
       - Num.real (latencyPenalty w d) + Num.real (currencyTerm w d)).
Proof.
  intros Hw Hd.
  destruct (terms_finite w d Hw Hd) as (Hs & Ha & Hc & Hh & Hl & Hu).
  apply calculateScore_real; apply finite_real; assumption.
Qed.

Lemma counts_setCapacity d c :
  (0 <= c)%Z -> counts d -> counts (setCapacity (Num.of_Z c) d).
Proof. intros Hc [? ? ? ? ? ? ?]. split; try assumption. exists c. auto. Qed.

Lemma counts_setChannels d c :
  (0 <= c)%Z -> counts d -> counts (setChannels (Num.of_Z c) d).
Proof. intros Hc [? ? ? ? ? ? ?]. split; try assumption. exists c. auto. Qed.

Lemma counts_setCurrencies d c :
  (0 <= c)%Z -> counts d -> counts (setCurrencies (Num.of_Z c) d).
Proof. intros Hc [? ? ? ? ? ? ?]. split; try assumption. exists c. auto. Qed.

Lemma counts_setLatency d c :
  (0 <= c)%Z -> counts d -> counts (setLatency (Num.of_Z c) d).
Proof. intros Hc [? ? ? ? ? ? ?]. split; try assumption. exists c. auto. Qed.

Lemma counts_rowOf name u up cap ch cur lat m l e :
  (0 <= cap)%Z -> (0 <= ch)%Z -> (0 <= cur)%Z -> (0 <= lat)%Z ->
  (0 <= m)%Z -> (0 <= l)%Z -> (0 <= e)%Z ->
  counts (rowOf name u up cap ch cur lat m l e).
Proof. intros. split; simpl; eexists; (split; [| reflexivity]); assumption. Qed.

Lemma nonnegative_DEFAULTS : nonnegative DEFAULTS.
Proof. split; simpl; eexists; (split; [| reflexivity]); lra. Qed.

Lemma penalty_of_mono l l' :
  (0 <= l <= l')%Z -> (l' < 99999 \/ l <= 1000 \/ 99999 <= l)%Z ->
  penalty_of l <= penalty_of l'.
Proof.
  intros [Hl Hll'] Hcase. unfold penalty_of.
  destruct (Z_lt_dec l 99999), (Z_lt_dec l' 99999); try lia; try lra.
  - apply IZR_le. exact Hll'.
  - apply (IZR_le l 1000). lia.
Qed.

End CountScores.

(** ** Monotonicity of the score *)

Ltac decide_reals :=
  repeat match goal with
    | |- context [Rltb ?a ?b] =>
        first [rewrite (Rltb_true a b) by lra | rewrite (Rltb_false a b) by lra]
    | |- context [Reqb ?a ?b] =>
        first [rewrite (Reqb_true a b) by lra | rewrite (Reqb_false a b) by lra]
    end.

Ltac unfold_score :=
  cbv beta iota delta
    [calculateScore addStatus addActivity addCapacity addChannels subLatency
       addCurrencies activityScore modulation activityTerm
       slowRow unknownRow downRow exampleA exampleB exampleWeights DEFAULTS rowOf
       setErrors setCapacity setChannels setCurrencies setLatency
       isUp capacity channels currencies latency mints melts errors
       w_status w_currency w_capacity w_channels w_latency w_mints w_melts
       w_errors zero Num.of_Z].

Ltac eval_score :=
  unfold_score;
  repeat (cbv beta iota delta
            [Num.add Num.sub Num.neg Num.mul Num.div Num.gt Num.lt Num.ge
               Num.max Num.to_boolean Num.log10 Num.Lt Num.Le negb];
          decide_reals).

(** Terms that read none of the replaced field are those of the row [d]. *)
Ltac other_terms d :=
  repeat match goal with
    | |- context [?term ?w (?set ?v d)] =>
        progress change (term w (set v d)) with (term w d)
    end.

Section Monotone.

Local Open Scope R_scope.

(** C4, as stated, fails on the latency: the score of a row measured at
    2000 ms is lower than the score of the same row with the latency
    unknown (99999), although 2000 <= 99999. *)
Lemma latency_sentinel_scores_higher :
  counts slowRow /\ nonnegative DEFAULTS /\
  unknownRow = setLatency (Num.of_Z 99999) slowRow /\
  latency slowRow = Num.of_Z 2000 /\ (2000 <= 99999)%Z /\
  Num.Lt (calculateScore DEFAULTS slowRow) (calculateScore DEFAULTS unknownRow) /\
  ~ Num.Le (calculateScore DEFAULTS unknownRow) (calculateScore DEFAULTS slowRow).
Proof.
  split; [apply counts_rowOf; lia |].
  split; [apply nonnegative_DEFAULTS |].
  split; [reflexivity |]. split; [reflexivity |]. split; [lia |].
  split.
  - eval_score. lra.
  - eval_score. lra.
Qed.

(** C4 (amended). For weights that are not negative and a row of counts,
    the score never decreases when the capacity, the channels or the
    currency count grows alone. When the latency grows alone from [l] to
    [l'], the score never increases provided [l'] is a measured latency
    (below the sentinel 99999), or [l] is at most 1000, or [l] is itself at
    or above the sentinel. *)
Theorem score_monotone (w : Weights) (d : RowData) :
  nonnegative w -> counts d ->
  (forall c c' : Z, (0 <= c <= c')%Z ->
     Num.Le (calculateScore w (setCapacity (Num.of_Z c) d))
            (calculateScore w (setCapacity (Num.of_Z c') d))) /\
  (forall c c' : Z, (0 <= c <= c')%Z ->
     Num.Le (calculateScore w (setChannels (Num.of_Z c) d))
            (calculateScore w (setChannels (Num.of_Z c') d))) /\
  (forall c c' : Z, (0 <= c <= c')%Z ->
     Num.Le (calculateScore w (setCurrencies (Num.of_Z c) d))
            (calculateScore w (setCurrencies (Num.of_Z c') d))) /\
  (forall l l' : Z, (0 <= l <= l')%Z ->
     (l' < 99999 \/ l <= 1000 \/ 99999 <= l)%Z ->
     Num.Le (calculateScore w (setLatency (Num.of_Z l') d))
            (calculateScore w (setLatency (Num.of_Z l) d))).
Proof.
  intros Hw Hd.
  pose proof Hw as [(wu & Hwu & Ewu) (wc & Hwc & Ewc) (wh & Hwh & Ewh)
                      (wl & Hwl & Ewl) _ _ _].
  repeat split.
  - intros c c' [Hc Hcc']. assert (0 <= c')%Z as Hc' by lia.
    rewrite (calculateScore_counts w _ Hw (counts_setCapacity d c Hc Hd)).
    rewrite (calculateScore_counts w _ Hw (counts_setCapacity d c' Hc' Hd)).
    simpl.
    pose proof (capacityTerm_mono w (setCapacity (Num.of_Z c) d)
                  (setCapacity (Num.of_Z c') d) c c' wc (conj Hc Hcc')
                  eq_refl eq_refl Ewc Hwc) as Hmono.
    other_terms d.
    lra.
  - intros c c' [Hc Hcc']. assert (0 <= c')%Z as Hc' by lia.
    rewrite (calculateScore_counts w _ Hw (counts_setChannels d c Hc Hd)).
    rewrite (calculateScore_counts w _ Hw (counts_setChannels d c' Hc' Hd)).
    simpl.
    rewrite (channelsTerm_count w (setChannels (Num.of_Z c) d) c wh Hc eq_refl Ewh).
    rewrite (channelsTerm_count w (setChannels (Num.of_Z c') d) c' wh Hc' eq_refl Ewh).
    simpl. apply IZR_le in Hcc'.
    other_terms d.
    nra.
  - intros c c' [Hc Hcc']. assert (0 <= c')%Z as Hc' by lia.
    rewrite (calculateScore_counts w _ Hw (counts_setCurrencies d c Hc Hd)).
    rewrite (calculateScore_counts w _ Hw (counts_setCurrencies d c' Hc' Hd)).
    simpl.
    rewrite (currencyTerm_count w (setCurrencies (Num.of_Z c) d) c wu eq_refl Ewu).
    rewrite (currencyTerm_count w (setCurrencies (Num.of_Z c') d) c' wu eq_refl Ewu).
    simpl. apply IZR_le in Hcc'.
    other_terms d.
    nra.
  - intros l l' [Hl Hll'] Hcase. assert (0 <= l')%Z as Hl' by lia.
    rewrite (calculateScore_counts w _ Hw (counts_setLatency d l Hl Hd)).
    rewrite (calculateScore_counts w _ Hw (counts_setLatency d l' Hl' Hd)).
    simpl.
    rewrite (latencyPenalty_count w (setLatency (Num.of_Z l) d) l wl eq_refl Ewl).
    rewrite (latencyPenalty_count w (setLatency (Num.of_Z l') d) l' wl eq_refl Ewl).
    simpl. pose proof (penalty_of_mono l l' (conj Hl Hll') Hcase) as Hp.
    other_terms d.
    nra.
Qed.

End Monotone.

(** ** The status bias *)

Section StatusBias.

Local Open Scope R_scope.

Lemma prod_within z r F W : 0 <= z <= F -> 0 <= r <= W -> 0 <= z * r <= F * W.
Proof. intros [Hz HzF] [Hr HrW]. split; nra. Qed.

Lemma penalty_of_within (l : Z) F :
  (0 <= l)%Z -> IZR l <= F -> 0 <= penalty_of l <= F.
Proof.
  intros Hl HF. unfold penalty_of. destruct (Z_lt_dec l 99999) as [Hlt | Hge].
  - split; [apply (IZR_le 0); exact Hl | exact HF].
  - assert (99999 <= IZR l) by (apply (IZR_le 99999); lia). lra.
Qed.

(** Bounds on the score of a row of counts whose fields are at most [F],
    under weights that are at most [W]. *)
Lemma calculateScore_within w d W F :
  nonnegative w -> counts d -> weights_within W w -> fields_within F d ->
  exists r, calculateScore w d = Fin r /\
    Num.real (statusTerm w d) - W * F <= r <= Num.real (statusTerm w d) + 5 * W * F.
Proof.
  intros Hw Hd HW HF. rewrite (calculateScore_counts w d Hw Hd).
  eexists. split; [reflexivity |].
  destruct Hw as [(wu & Hwu & Ewu) (wc & Hwc & Ewc) (wh & Hwh & Ewh)
                    (wl & Hwl & Ewl) (wm & Hwm & Ewm) (wt & Hwt & Ewt)
                    (we & Hwe & Ewe)].
  destruct Hd as [(c & Hc & Ec) (h & Hh & Eh) (u & Hu & Eu) (l & Hl & El)
                    (m & Hm & Em) (t & Ht & Et) (e & He & Ee)].
  unfold weights_within in HW. unfold fields_within in HF.
  repeat match goal with H : Forall _ (_ :: _) |- _ =>
    apply Forall_cons_1 in H; destruct H as [? H] end.
  repeat match goal with E : ?x = _, H : Num.Le ?x _ |- _ =>
    rewrite E in H; simpl in H end.
  pose proof (IZR_le _ _ Hc). pose proof (IZR_le _ _ Hh).
  pose proof (IZR_le _ _ Hu). pose proof (IZR_le _ _ Hm).
  pose proof (IZR_le _ _ Ht).
  pose proof (activityTerm_nonneg w d m t e wm wt we Hm Ht He Em Et Ee Ewm Ewt Ewe)
    as Ha0.
  pose proof (activityTerm_le_activity w d m t e wm wt we Hm Ht He Em Et Ee
                Ewm Ewt Ewe Hwm Hwt Hwe) as Ha1.
  destruct (capacityTerm_count w d c wc Hc Ec Ewc Hwc) as (x & Ex & Hx0 & Hx1).
  rewrite Ex, (channelsTerm_count w d h wh Hh Eh Ewh),
    (latencyPenalty_count w d l wl El Ewl), (currencyTerm_count w d u wu Eu Ewu).
  simpl.
  pose proof (penalty_of_within l F Hl ltac:(assumption)) as Hp.
  pose proof (prod_within (IZR m) wm F W ltac:(lra) ltac:(lra)).
  pose proof (prod_within (IZR t) wt F W ltac:(lra) ltac:(lra)).
  pose proof (prod_within (IZR c) wc F W ltac:(lra) ltac:(lra)).
  pose proof (prod_within (IZR h) wh F W ltac:(lra) ltac:(lra)).
  pose proof (prod_within (IZR u) wu F W ltac:(lra) ltac:(lra)).
  pose proof (prod_within (penalty_of l) wl F W ltac:(lra) ltac:(lra)).
  split; lra.
Qed.

(** In the weighted mode the comparator puts the higher score first. *)
Lemma weighted_puts_first st a b :
  mode st = Weighted ->
  Num.Lt (calculateScore (weights st) b) (calculateScore (weights st) a) ->
  order (compareRows st a b) = Lt.
Proof.
  intros Hmode Hlt. unfold compareRows, primary. rewrite Hmode.
  destruct (calculateScore (weights st) b) as [| | rb |]; try contradiction.
  destruct (calculateScore (weights st) a) as [| | ra |]; try contradiction.
  simpl in Hlt. unfold zero. simpl. rewrite Reqb_false by lra.
  unfold order, Num.gt, Num.lt, zero. rewrite Rltb_true by lra. reflexivity.
Qed.

(** C1. With the status criterion on, weights that are not negative and at
    most [W], and rows of counts whose fields are at most [F], where
    [6 * W * F < 1e9]: a row whose [isUp] is truthy scores strictly higher
    than a row whose [isUp] is falsy, whatever the other fields, and the
    comparator of the weighted mode puts it first. *)
Theorem live_outranks_dead (w : Weights) (a b : RowData) (W F : R) :
  w_status w = true ->
  nonnegative w -> weights_within W w ->
  counts a -> fields_within F a ->
  counts b -> fields_within F b ->
  6 * W * F < 1000000000 ->
  Num.to_boolean (isUp a) = true ->
  Num.to_boolean (isUp b) = false ->
  Num.Lt (calculateScore w b) (calculateScore w a) /\
  (forall st : State,
      mode st = Weighted -> weights st = w -> order (compareRows st a b) = Lt).
Proof.
  intros Hs Hw HW Ha HFa Hb HFb Hbound Hup Hdown.
  destruct (calculateScore_within w a W F Hw Ha HW HFa) as (ra & Era & Hra & _).
  destruct (calculateScore_within w b W F Hw Hb HW HFb) as (rb & Erb & _ & Hrb).
  rewrite statusTerm_cases, Hs, Hup in Hra. rewrite statusTerm_cases, Hs, Hdown in Hrb.
  simpl in Hra, Hrb.
  assert (rb < ra) as Hlt by lra.
  split; [rewrite Era, Erb; exact Hlt |].
  intros st Hmode Hweights.
  apply weighted_puts_first; [exact Hmode |].
  rewrite Hweights, Era, Erb. exact Hlt.
Qed.

End StatusBias.

(** ** The theorems at sample rows *)

Section Samples.

Local Open Scope R_scope.

Lemma counts_exampleA : counts exampleA.
Proof. apply counts_rowOf; lia. Defined.

Lemma counts_exampleB : counts exampleB.
Proof. apply counts_rowOf; lia. Defined.

Lemma counts_downRow : counts downRow.
Proof. apply counts_rowOf; lia. Defined.

Lemma live_outranks_dead_witness :
  w_status DEFAULTS = true /\ weights_within 5000 DEFAULTS /\
  fields_within 1000 exampleA /\ fields_within 1000 downRow /\
  6 * 5000 * 1000 < 1000000000 /\
  Num.to_boolean (isUp exampleA) = true /\
  Num.to_boolean (isUp downRow) = false /\
  Num.Lt (calculateScore DEFAULTS downRow) (calculateScore DEFAULTS exampleA) /\
  order (compareRows initial exampleA downRow) = Lt.
Proof.
  assert (weights_within 5000 DEFAULTS) as HW
      by (repeat constructor; simpl; lra).
  assert (fields_within 1000 exampleA) as HFa
      by (repeat constructor; simpl; lra).
  assert (fields_within 1000 downRow) as HFb
      by (repeat constructor; simpl; lra).
  assert (6 * 5000 * 1000 < 1000000000) as Hbound by lra.
  assert (Num.to_boolean (isUp exampleA) = true) as Hup
      by (simpl; rewrite Reqb_false by lra; reflexivity).
  assert (Num.to_boolean (isUp downRow) = false) as Hdown
      by (simpl; rewrite Reqb_true by lra; reflexivity).
  destruct (live_outranks_dead DEFAULTS exampleA downRow 5000 1000 eq_refl
              nonnegative_DEFAULTS HW counts_exampleA HFa counts_downRow HFb
              Hbound Hup Hdown) as [Hlt Hcmp].
  repeat split; try assumption.
  apply Hcmp; reflexivity.
Defined.

Lemma errors_only_discount_activity_witness :
  Num.gt (activityScore exampleWeights exampleA) zero = true /\
  Num.Le (activityTerm exampleWeights (setErrors (Num.of_Z 150) exampleA))
         (activityTerm exampleWeights (setErrors (Num.of_Z 0) exampleA)) /\
  Num.Le zero (activityTerm exampleWeights (setErrors (Num.of_Z 150) exampleA)) /\
  activityScore exampleWeights exampleB = zero /\
  calculateScore exampleWeights (setErrors (Num.of_Z 150) exampleB)
  = calculateScore exampleWeights (setErrors zero exampleB).
Proof.
  assert (Num.gt (activityScore exampleWeights exampleA) zero = true) as Hgt
      by (cbv [activityScore exampleWeights exampleA rowOf mints melts w_mints w_melts
                 Num.mul Num.add Num.of_Z Num.gt Num.lt zero];
          apply Rltb_true; lra).
  assert (activityScore exampleWeights exampleB = zero) as Hzero
      by (cbv [activityScore exampleWeights exampleB rowOf mints melts w_mints w_melts
                 Num.mul Num.add Num.of_Z zero]; f_equal; lra).
  destruct (errors_only_discount_activity exampleWeights exampleA) as (_ & HA & _).
  destruct (HA 100%Z 50%Z 10 10 100 ltac:(lia) ltac:(lia) eq_refl eq_refl
              eq_refl eq_refl eq_refl) as [Hmono Hnonneg].
  destruct (errors_only_discount_activity exampleWeights exampleB) as (_ & _ & HB).
  split; [exact Hgt |].
  split; [apply (Hmono ltac:(lra) Hgt 0%Z 150%Z); lia |].
  split; [apply Hnonneg; lia |].
  split; [exact Hzero |].
  apply HB. exact Hzero.
Defined.

Lemma score_monotone_witness :
  nonnegative DEFAULTS /\ counts exampleA /\
  Num.Le (calculateScore DEFAULTS (setCapacity (Num.of_Z 1000) exampleA))
         (calculateScore DEFAULTS (setCapacity (Num.of_Z 2000) exampleA)) /\
  Num.Le (calculateScore DEFAULTS (setChannels (Num.of_Z 5) exampleA))
         (calculateScore DEFAULTS (setChannels (Num.of_Z 6) exampleA)) /\
  Num.Le (calculateScore DEFAULTS (setCurrencies (Num.of_Z 3) exampleA))
         (calculateScore DEFAULTS (setCurrencies (Num.of_Z 4) exampleA)) /\
  Num.Le (calculateScore DEFAULTS (setLatency (Num.of_Z 99999) exampleA))
         (calculateScore DEFAULTS (setLatency (Num.of_Z 200) exampleA)).
Proof.
  destruct (score_monotone DEFAULTS exampleA nonnegative_DEFAULTS counts_exampleA)
    as (Hcap & Hch & Hcur & Hlat).
  split; [exact nonnegative_DEFAULTS |]. split; [exact counts_exampleA |].
  split; [apply Hcap; lia |]. split; [apply Hch; lia |].
  split; [apply Hcur; lia |]. apply Hlat; lia.
Defined.

(** The worked example of the documentation: the activity of row A
    contributes 750, that of row B nothing, and A ranks above B. *)
Example worked_example :
  activityTerm exampleWeights exampleA = Fin 750 /\
  activityTerm exampleWeights exampleB = Fin 0 /\
  order (compareRows
           {| mode := Weighted; columnKey := None; direction := Desc;
              weights := exampleWeights |} exampleA exampleB) = Lt.
Proof.
  assert (activityTerm exampleWeights exampleA = Fin 750) as HA.
  2: assert (activityTerm exampleWeights exampleB = Fin 0) as HB.
  3: split; [exact HA | split; [exact HB |]].
  - rewrite (activityTerm_count exampleWeights exampleA 100 50 150 10 10 100)
      by (reflexivity || lia).
    f_equal. destruct (Rlt_dec 0 (100 * 10 + 50 * 10)); [| lra].
    replace (150 / (100 + 50 + 150)) with (1 / 2) by field.
    unfold Rmax. destruct (Rle_dec 0 (1 - 1 / 2 * (100 / 100))); lra.
  - rewrite (activityTerm_count exampleWeights exampleB 0 0 0 10 10 100)
      by (reflexivity || lia).
    f_equal. destruct (Rlt_dec 0 (0 * 10 + 0 * 10)); lra.
  - apply weighted_puts_first; [reflexivity |]. simpl weights.
    assert (nonnegative exampleWeights) as Hw
        by (split; simpl; eexists; (split; [| reflexivity]); lra).
    rewrite (calculateScore_counts _ _ Hw counts_exampleA).
    rewrite (calculateScore_counts _ _ Hw counts_exampleB).
    change (statusTerm exampleWeights exampleB)
      with (statusTerm exampleWeights exampleA).
    change (capacityTerm exampleWeights exampleB)
      with (capacityTerm exampleWeights exampleA).
    change (channelsTerm exampleWeights exampleB)
      with (channelsTerm exampleWeights exampleA).
    change (latencyPenalty exampleWeights exampleB)
      with (latencyPenalty exampleWeights exampleA).
    change (currencyTerm exampleWeights exampleB)
      with (currencyTerm exampleWeights exampleA).
    rewrite HA, HB. simpl. lra.
Qed.

End Samples.

(** ** Record construction *)

Section RecordConstruction.

Local Open Scope R_scope.

Lemma or_else_unset row key dflt :
  unset row key -> Str.or_else (row !! key) dflt = dflt.
Proof. intros [-> | ->]; reflexivity. Qed.

Lemma or_else_set (o : option string) s dflt :
  o = Some s -> s <> ""%string -> Str.or_else o dflt = s.
Proof. intros -> Hs. destruct s; [contradiction | reflexivity]. Qed.

Lemma parseInt_unset row key :
  unset row key -> Str.parseInt (Str.or_else (row !! key) "0") = Fin 0.
Proof. intros H. rewrite (or_else_unset row key "0" H). reflexivity. Qed.

Lemma parseInt_within F row key dflt d :
  Str.parseInt_Z dflt = Some d -> (Z.abs d <= F)%Z ->
  integer_within F row key ->
  integer F (Str.parseInt (Str.or_else (row !! key) dflt)).
Proof.
  intros Hd HF [H | (s & z & Hs & Hz & Hle)].
  - rewrite (or_else_unset row key dflt H). unfold Str.parseInt. rewrite Hd.
    exists d. split; [exact HF | reflexivity].
  - destruct s as [| c s].
    + discriminate Hz.
    + rewrite Hs. simpl Str.or_else. unfold Str.parseInt. rewrite Hz.
      exists z. split; [exact Hle | reflexivity].
Qed.

Lemma integer_real F n :
  integer F n -> exists z : Z, n = Fin (IZR z) /\ - IZR F <= IZR z <= IZR F.
Proof.
  intros (z & Hz & ->). exists z. split; [reflexivity |].
  split; [rewrite <- opp_IZR |]; apply IZR_le; lia.
Qed.

Lemma prod_abs x y F W :
  - F <= x <= F -> - W <= y <= W -> - (F * W) <= x * y <= F * W.
Proof.
  intros [Hx1 Hx2] [Hy1 Hy2].
  pose proof (Rmult_le_pos (F - x) (W - y) ltac:(lra) ltac:(lra)).
  pose proof (Rmult_le_pos (F + x) (W + y) ltac:(lra) ltac:(lra)).
  pose proof (Rmult_le_pos (F - x) (W + y) ltac:(lra) ltac:(lra)).
  pose proof (Rmult_le_pos (F + x) (W - y) ltac:(lra) ltac:(lra)).
  split; lra.
Qed.

(** The activity term of integers of magnitude at most [F] under weights
    of magnitude at most [W]. *)
Lemma activityTerm_bounded w d (m t e : Z) wm wt we F W :
  mints d = Fin (IZR m) -> melts d = Fin (IZR t) -> errors d = Fin (IZR e) ->
  w_mints w = Fin wm -> w_melts w = Fin wt -> w_errors w = Fin we ->
  - F <= IZR m <= F -> - F <= IZR t <= F -> - F <= IZR e <= F ->
  - W <= wm <= W -> - W <= wt <= W -> - W <= we <= W ->
  exists a, activityTerm w d = Fin a /\
            0 <= a <= 2 * (F * W) + (F * W) ^ 2 / 50.
Proof.
  intros Em Et Ee Ewm Ewt Ewe Hm Ht He Hwm Hwt Hwe.
  pose proof (prod_abs _ _ F W Hm Hwm) as Hmw.
  pose proof (prod_abs _ _ F W Ht Hwt) as Htw.
  assert (0 <= F * W) as HFW by lra.
  unfold activityTerm, activityScore, modulation, zero, Num.gt.
  rewrite Em, Et, Ee, Ewm, Ewt, Ewe. simpl.
  destruct (Rltb 0 (IZR m * wm + IZR t * wt)) eqn:Hact;
    [| exists 0; split; [reflexivity | nra]].
  apply Rltb_spec in Hact.
  rewrite (Reqb_false 100 0) by lra.
  destruct (Rltb 0 (IZR m + IZR t + IZR e)) eqn:Hops.
  - apply Rltb_spec in Hops.
    assert (1 <= IZR m + IZR t + IZR e) as Hone.
    { rewrite <- !plus_IZR in *. apply lt_IZR in Hops. apply (IZR_le 1). lia. }
    rewrite Reqb_false by lra. simpl.
    assert (- F <= IZR e / (IZR m + IZR t + IZR e) <= F) as Hrate.
    { assert (0 < / (IZR m + IZR t + IZR e) <= 1) as Hinv.
      { split; [apply Rinv_0_lt_compat; lra |].
        rewrite <- Rinv_1. apply Rinv_le_contravar; lra. }
      unfold Rdiv. nra. }
    pose proof (prod_abs _ _ F W Hrate Hwe) as Hpf.
    destruct (Rltb 0 (1 + - (IZR e / (IZR m + IZR t + IZR e) * (we / 100))))
      eqn:Hmod.
    + apply Rltb_spec in Hmod. eexists. split; [reflexivity |]. nra.
    + eexists. split; [reflexivity |]. nra.
  - simpl. destruct (Rltb 0 (1 + - (0 * (we / 100)))) eqn:Hmod.
    + eexists. split; [reflexivity |]. nra.
    + eexists. split; [reflexivity |]. nra.
Qed.

Lemma capacityTerm_bounded w d (c : Z) wc F W :
  capacity d = Fin (IZR c) -> w_capacity w = Fin wc ->
  - F <= IZR c <= F -> - W <= wc <= W ->
  exists x, capacityTerm w d = Fin x /\ - (F * W) <= x <= F * W.
Proof.
  intros Ec Ewc Hc Hwc. unfold capacityTerm, zero, Num.gt. rewrite Ec, Ewc. simpl.
  destruct (Rltb 0 (IZR c)) eqn:Hpos; [| exists 0; split; [reflexivity | nra]].
  apply Rltb_spec in Hpos.
  assert (1 <= IZR c) as H1 by (apply lt_IZR in Hpos; apply (IZR_le 1); lia).
  rewrite Rltb_false by lra. rewrite Reqb_false by lra.
  eexists. split; [reflexivity |].
  pose proof (log10_bounds _ H1) as Hlog.
  apply (prod_abs _ _ F W); lra.
Qed.

(** The score of a row of integers of magnitude at most [F], under
    numeric weights of magnitude at most [W]: a number, with bounds. *)
Lemma calculateScore_bounded w d (F : Z) (W : R) :
  (1000 <= F)%Z ->
  Forall (integer F) (integer_fields d) ->
  Forall (number_within W) (numeric_weights w) ->
  exists r : R,
    calculateScore w d = Fin r /\
    - (4 * (IZR F * W)) <= r
    <= 1000000000 + 6 * (IZR F * W) + (IZR F * W) ^ 2 / 50.
Proof.
  unfold integer_fields, numeric_weights. intros HF Hd Hw.
  apply Forall_cons_1 in Hd as [_ Hd].
  apply Forall_cons_1 in Hd as [Hc Hd]. apply Forall_cons_1 in Hd as [Hh Hd].
  apply Forall_cons_1 in Hd as [Hu Hd]. apply Forall_cons_1 in Hd as [Hl Hd].
  apply Forall_cons_1 in Hd as [Hm Hd]. apply Forall_cons_1 in Hd as [Ht Hd].
  apply Forall_cons_1 in Hd as [He _].
  apply Forall_cons_1 in Hw as [(wu & Ewu & Hwu) Hw].
  apply Forall_cons_1 in Hw as [(wc & Ewc & Hwc) Hw].
  apply Forall_cons_1 in Hw as [(wh & Ewh & Hwh) Hw].
  apply Forall_cons_1 in Hw as [(wl & Ewl & Hwl) Hw].
  apply Forall_cons_1 in Hw as [(wm & Ewm & Hwm) Hw].
  apply Forall_cons_1 in Hw as [(wt & Ewt & Hwt) Hw].
  apply Forall_cons_1 in Hw as [(we & Ewe & Hwe) _].
  apply integer_real in Hc as (c & Ec & Hc). apply integer_real in Hh as (h & Eh & Hh).
  apply integer_real in Hu as (u & Eu & Hu). apply integer_real in Hl as (l & El & Hl).
  apply integer_real in Hm as (m & Em & Hm). apply integer_real in Ht as (t & Et & Ht).
  apply integer_real in He as (e & Ee & He).
  assert (1000 <= IZR F) as HF' by (apply (IZR_le 1000); exact HF).
  destruct (activityTerm_bounded w d m t e wm wt we (IZR F) W Em Et Ee Ewm Ewt Ewe
              Hm Ht He Hwm Hwt Hwe) as (a & Ea & Ha).
  destruct (capacityTerm_bounded w d c wc (IZR F) W Ec Ewc Hc Hwc) as (x & Ex & Hx).
  assert (exists y, channelsTerm w d = Fin y /\ - (IZR F * W) <= y <= IZR F * W)
    as (y & Ey & Hy).
  { unfold channelsTerm, zero, Num.gt. rewrite Eh, Ewh. simpl.
    pose proof (prod_abs _ _ (IZR F) W Hh Hwh).
    destruct (Rltb 0 (IZR h)); eexists; (split; [reflexivity |]); lra. }
  assert (exists p, latencyPenalty w d = Fin p /\ - (IZR F * W) <= p <= IZR F * W)
    as (p & Ep & Hp).
  { unfold latencyPenalty. rewrite El, Ewl. simpl.
    pose proof (prod_abs _ _ (IZR F) W Hl Hwl).
    pose proof (prod_abs 1000 wl (IZR F) W ltac:(lra) Hwl).
    destruct (negb (Rltb (IZR l) 99999)); eexists; (split; [reflexivity |]); lra. }
  assert (exists q, currencyTerm w d = Fin q /\ - (IZR F * W) <= q <= IZR F * W)
    as (q & Eq & Hq).
  { unfold currencyTerm. rewrite Eu, Ewu. simpl.
    pose proof (prod_abs _ _ (IZR F) W Hu Hwu).
    eexists; (split; [reflexivity |]); lra. }
  rewrite (calculateScore_real w d _ a x y p q (statusTerm_cases w d) Ea Ex Ey Ep Eq).
  eexists. split; [reflexivity |].
  destruct (w_status w && Num.to_boolean (isUp d)); lra.
Qed.

Lemma safe_score_bound F W r :
  0 <= F <= IZR Num.MAX_SAFE_INTEGER -> 0 <= W <= IZR Num.MAX_SAFE_INTEGER ->
  - (4 * (F * W)) <= r <= 1000000000 + 6 * (F * W) + (F * W) ^ 2 / 50 ->
  - 10 ^ 63 < r < 10 ^ 63.
Proof.
  unfold Num.MAX_SAFE_INTEGER. intros HF HW Hr.
  assert (F * W <= 10 ^ 16 * 10 ^ 16) as H1 by (apply Rmult_le_compat; lra).
  assert (0 <= F * W) as H0 by (apply Rmult_le_pos; lra).
  assert ((F * W) ^ 2 <= (10 ^ 32) ^ 2) as H2.
  { apply pow_incr. split; [exact H0 | lra]. }
  lra.
Qed.

(** C5, as stated, fails for source values that are present but hold no
    number: the capacity and the latency of such a row are NaN, not 0 and
    not the sentinel, and the NaN reaches the score. *)
Lemma unparsable_fields_are_NaN :
  unparsableRow !! "capacity"%string = Some "n/a"%string /\
  unparsableRow !! "latency"%string = Some "n/a"%string /\
  capacity (getRowData unparsableRow) = NaN /\
  latency (getRowData unparsableRow) = NaN /\
  calculateScore DEFAULTS (getRowData unparsableRow) = NaN.
Proof.
  assert (unparsableRow !! "capacity"%string = Some "n/a"%string) as Hc
      by (vm_compute; reflexivity).
  assert (unparsableRow !! "latency"%string = Some "n/a"%string) as Hl
      by (vm_compute; reflexivity).
  assert (capacity (getRowData unparsableRow) = NaN) as Ec
      by (unfold getRowData, capacity; rewrite Hc; reflexivity).
  assert (latency (getRowData unparsableRow) = NaN) as El
      by (unfold getRowData, latency; rewrite Hl; reflexivity).
  repeat split; try assumption.
  rewrite calculateScore_terms.
  assert (latencyPenalty DEFAULTS (getRowData unparsableRow) = NaN) as ->
      by (unfold latencyPenalty; rewrite El; reflexivity).
  destruct (Num.add _ (channelsTerm _ _)); reflexivity.
Qed.

(** C5 (amended). For every row, [getRowData] gives each integer field
    (isUp, capacity, channels, currencies, mints, melts, errors) and the
    uptime the value 0 when the data attribute is absent or empty, and the
    latency the sentinel 99999; a row with the latency unset is charged the
    fixed penalty [1000 * weights.latency]. When every integer attribute is
    unset or starts with a decimal integer of magnitude at most [F], where
    [F] is at least the sentinel and at most [Num.MAX_SAFE_INTEGER], every
    integer field is an integer of magnitude at most [F], and with numeric
    weights of magnitude at most [W], itself at most
    [Num.MAX_SAFE_INTEGER], the score is a number, not NaN and not an
    infinity, between [- 4 F W] and [1e9 + 6 F W + (F W)^2 / 50], which is
    below [1e63]. *)
Theorem getRowData_defaults (row : Dataset) :
  (unset row "up" -> isUp (getRowData row) = Fin 0) /\
  (unset row "capacity" -> capacity (getRowData row) = Fin 0) /\
  (unset row "channels" -> channels (getRowData row) = Fin 0) /\
  (unset row "currencies" -> currencies (getRowData row) = Fin 0) /\
  (unset row "mints" -> mints (getRowData row) = Fin 0) /\
  (unset row "melts" -> melts (getRowData row) = Fin 0) /\
  (unset row "errors" -> errors (getRowData row) = Fin 0) /\
  (unset row "uptime" -> uptime (getRowData row) = Fin 0) /\
  (unset row "latency" ->
     latency (getRowData row) = Fin 99999 /\
     forall (w : Weights) (score : Number),
       subLatency w (getRowData row) score
       = Num.sub score (Num.mul (Fin 1000) (w_latency w))) /\
  (forall F : Z,
     (99999 <= F <= Num.MAX_SAFE_INTEGER)%Z ->
     Forall (integer_within F row) integer_keys ->
     Forall (integer F) (integer_fields (getRowData row)) /\
     forall (w : Weights) (W : R),
       W <= IZR Num.MAX_SAFE_INTEGER ->
       Forall (number_within W) (numeric_weights w) ->
       exists r : R,
         calculateScore w (getRowData row) = Fin r /\
         - (4 * (IZR F * W)) <= r
         <= 1000000000 + 6 * (IZR F * W) + (IZR F * W) ^ 2 / 50 /\
         - 10 ^ 63 < r < 10 ^ 63).
Proof.
  assert (forall F : Z,
             (99999 <= F <= Num.MAX_SAFE_INTEGER)%Z ->
             Forall (integer_within F row) integer_keys ->
             Forall (integer F) (integer_fields (getRowData row))) as Hfields.
  { intros F HF H. unfold integer_keys in H. unfold integer_fields, getRowData; simpl.
    repeat (apply Forall_cons_1 in H as [? H]).
    repeat (apply Forall_cons; split;
            [eapply parseInt_within; [reflexivity | simpl; lia | assumption] |]).
    apply Forall_nil. exact I. }
  repeat split; try (intros H; apply (parseInt_unset row _ H)).
  - intros H. unfold getRowData, uptime.
    rewrite (or_else_unset row _ "0" H). unfold Str.parseFloat.
    change (Str.parseFloat_parsed "0") with (Str.PDecimal false 0 0).
    simpl. f_equal. lra.
  - unfold getRowData, latency. rewrite (or_else_unset row _ "99999" H).
    reflexivity.
  - intros w score. unfold subLatency.
    assert (latency (getRowData row) = Fin 99999) as ->
        by (unfold getRowData, latency; rewrite (or_else_unset row _ "99999" H);
            reflexivity).
    unfold Num.ge, Num.lt. rewrite Rltb_false by lra. reflexivity.
  - apply Hfields; assumption.
  - intros w W HW Hw.
    destruct (calculateScore_bounded w (getRowData row) F W ltac:(lia)
                (Hfields F ltac:(assumption) ltac:(assumption)) Hw)
      as (r & Er & Hr).
    exists r. split; [exact Er |]. split; [exact Hr |].
    assert (0 <= W) as HW0.
    { unfold numeric_weights in Hw. apply Forall_cons_1 in Hw as [(x & _ & Hx) _].
      lra. }
    apply (safe_score_bound (IZR F) W); [| lra | exact Hr].
    unfold Num.MAX_SAFE_INTEGER in *.
    split; [apply (IZR_le 0); lia | apply IZR_le; lia].
Qed.

End RecordConstruction.

Section RecordConstructionSample.

Local Open Scope R_scope.

Lemma integer_keys_freshRow : Forall (integer_within 99999 freshRow) integer_keys.
Proof.
  unfold integer_keys.
  repeat (apply Forall_cons; split;
          [first [ left; left; vm_compute; reflexivity
                 | left; right; vm_compute; reflexivity
                 | right; eexists; eexists;
                   split; [vm_compute; reflexivity |];
                   split; [vm_compute; reflexivity | vm_compute; discriminate] ] |]).
  apply Forall_nil. exact I.
Defined.

Lemma number_within_DEFAULTS : Forall (number_within 5000) (numeric_weights DEFAULTS).
Proof.
  unfold numeric_weights. simpl.
  repeat (apply Forall_cons; split;
          [eexists; split; [reflexivity | split; lra] |]).
  apply Forall_nil. exact I.
Defined.

Lemma getRowData_defaults_witness :
  unset freshRow "currencies" /\ unset freshRow "errors" /\
  unset freshRow "latency" /\
  (99999 <= 99999 <= Num.MAX_SAFE_INTEGER)%Z /\
  Forall (integer_within 99999 freshRow) integer_keys /\
  5000 <= IZR Num.MAX_SAFE_INTEGER /\
  Forall (number_within 5000) (numeric_weights DEFAULTS) /\
  currencies (getRowData freshRow) = Fin 0 /\
  errors (getRowData freshRow) = Fin 0 /\
  latency (getRowData freshRow) = Fin 99999 /\
  subLatency DEFAULTS (getRowData freshRow) zero
  = Num.sub zero (Num.mul (Fin 1000) (w_latency DEFAULTS)) /\
  exists r : R,
    calculateScore DEFAULTS (getRowData freshRow) = Fin r /\
    - (4 * (IZR 99999 * 5000)) <= r
    <= 1000000000 + 6 * (IZR 99999 * 5000) + (IZR 99999 * 5000) ^ 2 / 50 /\
    - 10 ^ 63 < r < 10 ^ 63.
Proof.
  assert (unset freshRow "currencies") as Hu by (left; vm_compute; reflexivity).
  assert (unset freshRow "errors") as He by (right; vm_compute; reflexivity).
  assert (unset freshRow "latency") as Hl by (left; vm_compute; reflexivity).
  assert (99999 <= 99999 <= Num.MAX_SAFE_INTEGER)%Z as HF
    by (unfold Num.MAX_SAFE_INTEGER; lia).
  assert (5000 <= IZR Num.MAX_SAFE_INTEGER) as HW
    by (unfold Num.MAX_SAFE_INTEGER; lra).
  destruct (getRowData_defaults freshRow)
    as (_ & _ & _ & Hcur & _ & _ & Herr & _ & Hlat & Hall).
  destruct (Hlat Hl) as [Hsentinel Hpenalty].
  destruct (Hall 99999%Z HF integer_keys_freshRow) as [_ Hscore].
  split; [exact Hu |]. split; [exact He |]. split; [exact Hl |].
  split; [exact HF |].
  split; [exact integer_keys_freshRow |]. split; [exact HW |].
  split; [exact number_within_DEFAULTS |].
  split; [exact (Hcur Hu) |]. split; [exact (Herr He) |].
  split; [exact Hsentinel |]. split; [apply Hpenalty |].
  apply Hscore; [exact HW | exact number_within_DEFAULTS].
Defined.

End RecordConstructionSample.

(** ** The sort state *)

Section SortState.

(** C9, as stated, fails on the direction: a click on the latency header
    followed by a reset leaves [direction = asc]. *)
Lemma reset_keeps_direction :
  reachable (handleHeaderClick (Key "latency") initial) /\
  mode (handleHeaderClick (Key "latency") initial) = Column /\
  direction (handleHeaderClick (Key "latency") initial) = Asc /\
  direction (onReset (handleHeaderClick (Key "latency") initial)) = Asc /\
  direction (onReset (handleHeaderClick (Key "latency") initial)) <> Desc.
Proof.
  split; [apply (reachable_handle (HeaderClick (Key "latency"))), reachable_initial |].
  repeat split. discriminate.
Qed.

(** C9 (amended). After the reset the mode is weighted and the weights are
    the defaults, from every sort state; the direction and the column key
    are left as they were. They are not read in the weighted mode: rows
    compare as in the initial state (descending score), and the next header
    click sets the state that it sets from the initial state. *)
Theorem reset_restores_weighted_defaults (st : State) :
  mode (onReset st) = Weighted /\
  weights (onReset st) = DEFAULTS /\
  direction (onReset st) = direction st /\
  columnKey (onReset st) = columnKey st /\
  (forall a b : RowData, compareRows (onReset st) a b = compareRows initial a b) /\
  (forall key : DataKey,
      handleHeaderClick key (onReset st) = handleHeaderClick key initial).
Proof.
  split; [reflexivity |]. split; [reflexivity |]. split; [reflexivity |].
  split; [reflexivity |]. split.
  - intros a b. unfold compareRows, primary. reflexivity.
  - intros key. unfold handleHeaderClick. reflexivity.
Qed.

End SortState.

(** ** The comparator *)

Section StringOrder.

Lemma compare_refl (s : string) : String.compare s s = Eq.
Proof.
  induction s as [| c s IH]; [reflexivity |]. simpl.
  unfold Ascii.compare. rewrite N.compare_refl. exact IH.
Qed.

Lemma compare_not_Gt_trans (a b c : string) :
  String.compare a b <> Gt -> String.compare b c <> Gt -> String.compare a c <> Gt.
Proof.
  revert b c. induction a as [| x a IH]; intros [| y b] [| z c]; simpl;
    try congruence.
  unfold Ascii.compare.
  destruct (N.compare_spec (N_of_ascii x) (N_of_ascii y)) as [Hxy | Hxy | Hxy];
    destruct (N.compare_spec (N_of_ascii y) (N_of_ascii z)) as [Hyz | Hyz | Hyz];
    destruct (N.compare_spec (N_of_ascii x) (N_of_ascii z)) as [Hxz | Hxz | Hxz];
    try congruence; try lia.
  apply IH.
Qed.

Lemma lt_compare (a b : string) : Str.lt a b = true <-> String.compare a b = Lt.
Proof. unfold Str.lt. destruct (String.compare a b); split; congruence. Qed.

Lemma gt_compare (a b : string) : Str.lt b a = true <-> String.compare a b = Gt.
Proof.
  rewrite lt_compare, String.compare_antisym.
  destruct (String.compare a b); simpl; split; congruence.
Qed.

End StringOrder.

(** Lexicographic combination of two three-way comparisons. *)
Section Lexicographic.

Variable A : Type.
Variable dom : A -> Prop.
Variables p n : A -> A -> comparison.
Hypothesis p_anti : forall a b, dom a -> dom b -> p b a = CompOpp (p a b).
Hypothesis p_trans :
  forall a b c, dom a -> dom b -> dom c ->
    p a b <> Gt -> p b c <> Gt -> p a c <> Gt.
Hypothesis n_anti : forall a b, n b a = CompOpp (n a b).
Hypothesis n_trans : forall a b c, n a b <> Gt -> n b c <> Gt -> n a c <> Gt.

Let lex (a b : A) : comparison := thenBy (p a b) (n a b).

Lemma lex_anti a b : dom a -> dom b -> lex b a = CompOpp (lex a b).
Proof.
  intros Ha Hb. unfold lex, thenBy. rewrite (p_anti a b Ha Hb), n_anti.
  destruct (p a b); reflexivity.
Qed.

Lemma p_Eq_trans a b c :
  dom a -> dom b -> dom c -> p a b = Eq -> p b c = Eq -> p a c = Eq.
Proof.
  intros Ha Hb Hc Hab Hbc.
  assert (p a c <> Gt) as H1 by (apply (p_trans a b c); congruence).
  assert (p c a <> Gt) as H2.
  { apply (p_trans c b a); try assumption;
      [rewrite (p_anti b c), Hbc | rewrite (p_anti a b), Hab]; simpl;
      congruence || assumption. }
  rewrite (p_anti a c Ha Hc) in H2. destruct (p a c); simpl in *; congruence.
Qed.

Lemma p_Lt_trans_l a b c :
  dom a -> dom b -> dom c -> p a b = Lt -> p b c <> Gt -> p a c = Lt.
Proof.
  intros Ha Hb Hc Hab Hbc.
  assert (p a c <> Gt) as H1 by (apply (p_trans a b c); congruence).
  destruct (p a c) eqn:Hac; try congruence.
  exfalso. apply (p_trans b c a Hb Hc Ha Hbc).
  - rewrite (p_anti a c Ha Hc), Hac. simpl. congruence.
  - rewrite (p_anti a b Ha Hb), Hab. reflexivity.
Qed.

Lemma p_Lt_trans_r a b c :
  dom a -> dom b -> dom c -> p a b <> Gt -> p b c = Lt -> p a c = Lt.
Proof.
  intros Ha Hb Hc Hab Hbc.
  assert (p a c <> Gt) as H1 by (apply (p_trans a b c); congruence).
  destruct (p a c) eqn:Hac; try congruence.
  exfalso. apply (p_trans c a b Hc Ha Hb).
  - rewrite (p_anti a c Ha Hc), Hac. simpl. congruence.
  - exact Hab.
  - rewrite (p_anti b c Hb Hc), Hbc. reflexivity.
Qed.

Lemma lex_trans a b c :
  dom a -> dom b -> dom c -> lex a b <> Gt -> lex b c <> Gt -> lex a c <> Gt.
Proof.
  intros Ha Hb Hc. unfold lex, thenBy.
  destruct (p a b) eqn:Hab; destruct (p b c) eqn:Hbc; try congruence;
    intros H1 H2.
  - rewrite (p_Eq_trans a b c Ha Hb Hc Hab Hbc). apply (n_trans a b c H1 H2).
  - rewrite (p_Lt_trans_r a b c Ha Hb Hc) by congruence. congruence.
  - rewrite (p_Lt_trans_l a b c Ha Hb Hc) by congruence. congruence.
  - rewrite (p_Lt_trans_l a b c Ha Hb Hc) by congruence. congruence.
Qed.

End Lexicographic.

Section ValueOrder.

Local Open Scope R_scope.

Lemma get_same_kind a b k :
  comparable (get a k) -> comparable (get b k) -> same_kind (get a k) (get b k).
Proof.
  unfold get. generalize (propertyName k). clear k. intros k.
  unfold fields, assoc.
  repeat match goal with
    | |- context [String.eqb k ?f] =>
        destruct (String.eqb k f);
        [ try solve [intros _ _; constructor] | ]
    end.
  - destruct (url a), (url b); simpl; intros Ha Hb; try contradiction.
    constructor.
  - intros Ha Hb. constructor; intros E; rewrite E in *; contradiction.
  - intros Ha Hb. constructor; intros E; rewrite E in *; contradiction.
  - intros Ha Hb. constructor; intros E; rewrite E in *; contradiction.
  - intros Ha Hb. constructor; intros E; rewrite E in *; contradiction.
  - intros Ha Hb. constructor; intros E; rewrite E in *; contradiction.
  - intros Ha Hb. constructor; intros E; rewrite E in *; contradiction.
  - intros Ha Hb. constructor; intros E; rewrite E in *; contradiction.
  - intros Ha Hb. constructor; intros E; rewrite E in *; contradiction.
  - intros Ha Hb. constructor; intros E; rewrite E in *; contradiction.
  - intros [].
Qed.

Ltac real_cases :=
  unfold Rltb;
  repeat match goal with
    | |- context [Rlt_dec ?x ?y] => destruct (Rlt_dec x y)
    | H : context [Rlt_dec ?x ?y] |- _ => destruct (Rlt_dec x y)
    end;
  simpl in *; try congruence; try lra.

Lemma number_compare_anti x y :
  value_compare (VNumber y) (VNumber x)
  = CompOpp (value_compare (VNumber x) (VNumber y)).
Proof.
  unfold value_compare, value_lt. destruct x, y; simpl; try reflexivity.
  real_cases.
Qed.

Lemma number_compare_trans x y z :
  x <> NaN -> y <> NaN -> z <> NaN ->
  value_compare (VNumber x) (VNumber y) <> Gt ->
  value_compare (VNumber y) (VNumber z) <> Gt ->
  value_compare (VNumber x) (VNumber z) <> Gt.
Proof.
  unfold value_compare, value_lt. intros Hx Hy Hz.
  destruct x, y, z; simpl; try congruence; real_cases.
Qed.

Lemma string_compare_value s t :
  value_compare (VString s) (VString t) = String.compare s t.
Proof.
  unfold value_compare, value_lt.
  destruct (String.compare s t) eqn:E.
  - assert (Str.lt s t = false) as -> by (unfold Str.lt; rewrite E; reflexivity).
    assert (Str.lt t s = false) as ->
        by (unfold Str.lt; rewrite String.compare_antisym, E; reflexivity).
    reflexivity.
  - apply lt_compare in E. rewrite E. reflexivity.
  - assert (Str.lt s t = false) as -> by (unfold Str.lt; rewrite E; reflexivity).
    apply gt_compare in E. rewrite E. reflexivity.
Qed.

Lemma value_compare_anti x y :
  same_kind x y -> value_compare y x = CompOpp (value_compare x y).
Proof.
  intros [x' y' _ _ | s t | r r'].
  - apply number_compare_anti.
  - rewrite !string_compare_value. apply String.compare_antisym.
  - reflexivity.
Qed.

Lemma value_compare_trans x y z :
  same_kind x y -> same_kind y z ->
  value_compare x y <> Gt -> value_compare y z <> Gt -> value_compare x z <> Gt.
Proof.
  intros Hxy Hyz. inversion Hxy; subst; inversion Hyz; subst.
  - apply number_compare_trans; assumption.
  - rewrite !string_compare_value. apply compare_not_Gt_trans.
  - intros _ _. discriminate.
Qed.

End ValueOrder.

Section RowOrder.

Local Open Scope R_scope.

Variable st : State.

(** The order that the primary comparison alone gives. *)
Let rank (a b : RowData) : comparison := order (primary st a b).

Lemma order_Fin r :
  order (Fin r) = if Rlt_dec r 0 then Lt else if Rlt_dec 0 r then Gt else Eq.
Proof.
  unfold order, Num.gt, Num.lt, zero, Rltb.
  destruct (Rlt_dec r 0), (Rlt_dec 0 r); reflexivity.
Qed.

Lemma primary_column a b :
  mode st = Column ->
  primary st a b = Fin 0 \/ primary st a b = Fin 1 \/ primary st a b = Fin (-1).
Proof.
  intros Hm. unfold primary, signed, zero. rewrite Hm.
  destruct (value_lt (get a (columnKey st)) (get b (columnKey st))),
    (value_lt (get b (columnKey st)) (get a (columnKey st))), (direction st);
    auto.
Qed.

Lemma rank_column a b :
  mode st = Column ->
  rank a b =
  match direction st with
  | Asc => value_compare (get a (columnKey st)) (get b (columnKey st))
  | Desc => CompOpp (value_compare (get a (columnKey st)) (get b (columnKey st)))
  end.
Proof.
  intros Hm. unfold rank, primary, value_compare, signed, zero. rewrite Hm.
  destruct (value_lt (get a (columnKey st)) (get b (columnKey st))),
    (value_lt (get b (columnKey st)) (get a (columnKey st))),
    (direction st); rewrite order_Fin;
    repeat match goal with |- context [Rlt_dec ?x ?y] => destruct (Rlt_dec x y) end;
    simpl; try reflexivity; lra.
Qed.

Lemma primary_finite a b :
  sortable st a -> sortable st b -> exists r, primary st a b = Fin r.
Proof.
  unfold sortable. destruct (mode st) eqn:Hm.
  - intros Ha Hb. unfold primary. rewrite Hm.
    apply finite_real in Ha, Hb. rewrite Ha, Hb. eexists. reflexivity.
  - intros _ _. destruct (primary_column a b Hm) as [-> | [-> | ->]]; eauto.
Qed.

Lemma rank_anti a b : sortable st a -> sortable st b -> rank b a = CompOpp (rank a b).
Proof.
  intros Ha Hb. unfold sortable in Ha, Hb. destruct (mode st) eqn:Hm.
  - unfold rank, primary. rewrite Hm.
    apply finite_real in Ha, Hb. rewrite Ha, Hb. simpl. rewrite !order_Fin.
    repeat match goal with |- context [Rlt_dec ?x ?y] => destruct (Rlt_dec x y) end;
      simpl; try reflexivity; lra.
  - rewrite !rank_column by exact Hm.
    rewrite (value_compare_anti _ _ (get_same_kind a b _ Ha Hb)).
    destruct (direction st); [reflexivity |].
    destruct (value_compare _ _); reflexivity.
Qed.

Lemma rank_trans a b c :
  sortable st a -> sortable st b -> sortable st c ->
  rank a b <> Gt -> rank b c <> Gt -> rank a c <> Gt.
Proof.
  intros Ha Hb Hc. unfold sortable in Ha, Hb, Hc. destruct (mode st) eqn:Hm.
  - unfold rank, primary. rewrite Hm.
    apply finite_real in Ha, Hb, Hc. rewrite Ha, Hb, Hc. simpl. rewrite !order_Fin.
    repeat match goal with |- context [Rlt_dec ?x ?y] => destruct (Rlt_dec x y) end;
      simpl; try congruence; lra.
  - rewrite !rank_column by exact Hm.
    pose proof (get_same_kind a b _ Ha Hb) as Kab.
    pose proof (get_same_kind b c _ Hb Hc) as Kbc.
    pose proof (get_same_kind c b _ Hc Hb) as Kcb.
    pose proof (get_same_kind b a _ Hb Ha) as Kba.
    destruct (direction st).
    + apply value_compare_trans; assumption.
    + intros H1 H2.
      rewrite <- (value_compare_anti _ _ Kab) in H1.
      rewrite <- (value_compare_anti _ _ Kbc) in H2.
      rewrite <- (value_compare_anti _ _ (get_same_kind a c _ Ha Hc)).
      apply (value_compare_trans _ _ _ Kcb Kba H2 H1).
Qed.

(** The primary comparison is [res === 0] exactly when it ranks the two
    rows as equal. *)
Lemma rank_Eq r : Num.strict_eq (Fin r) zero = true <-> order (Fin r) = Eq.
Proof.
  unfold Num.strict_eq, zero. rewrite Reqb_spec, order_Fin.
  destruct (Rlt_dec r 0), (Rlt_dec 0 r); split; intros; try congruence; lra.
Qed.

(** The comparator orders by the primary comparison, then by sort name. *)
Lemma order_compareRows a b r :
  primary st a b = Fin r ->
  order (compareRows st a b) = thenBy (rank a b) (byName a b).
Proof.
  intros Hp. unfold compareRows, rank, byName. rewrite Hp.
  destruct (Num.strict_eq (Fin r) zero) eqn:Hz.
  - apply rank_Eq in Hz. rewrite Hz. simpl.
    destruct (String.compare (sortName a) (sortName b)) eqn:E.
    + assert (Str.lt (sortName a) (sortName b) = false) as ->
          by (unfold Str.lt; rewrite E; reflexivity).
      assert (Str.lt (sortName b) (sortName a) = false) as ->
          by (unfold Str.lt; rewrite String.compare_antisym, E; reflexivity).
      exact Hz.
    + apply lt_compare in E. rewrite E. rewrite order_Fin.
      destruct (Rlt_dec (-1) 0); [reflexivity | lra].
    + assert (Str.lt (sortName a) (sortName b) = false) as ->
          by (unfold Str.lt; rewrite E; reflexivity).
      apply gt_compare in E. rewrite E. rewrite order_Fin.
      destruct (Rlt_dec 1 0); [lra |]. destruct (Rlt_dec 0 1); [reflexivity | lra].
  - destruct (order (Fin r)) eqn:Ho; try reflexivity.
    apply rank_Eq in Ho. congruence.
Qed.

Lemma byName_anti a b : byName b a = CompOpp (byName a b).
Proof.
  unfold byName. rewrite String.compare_antisym.
  destruct (String.compare (sortName a) (sortName b)); reflexivity.
Qed.

Lemma byName_trans a b c :
  byName a b <> Gt -> byName b c <> Gt -> byName a c <> Gt.
Proof. apply compare_not_Gt_trans. Qed.

Lemma compareRows_anti a b :
  sortable st a -> sortable st b ->
  order (compareRows st b a) = CompOpp (order (compareRows st a b)).
Proof.
  intros Ha Hb.
  destruct (primary_finite a b Ha Hb) as (r & Hr).
  destruct (primary_finite b a Hb Ha) as (r' & Hr').
  rewrite (order_compareRows a b r Hr), (order_compareRows b a r' Hr').
  apply (lex_anti RowData (sortable st) rank byName rank_anti byName_anti);
    assumption.
Qed.

Lemma compareRows_trans a b c :
  sortable st a -> sortable st b -> sortable st c ->
  order (compareRows st a b) <> Gt -> order (compareRows st b c) <> Gt ->
  order (compareRows st a c) <> Gt.
Proof.
  intros Ha Hb Hc.
  destruct (primary_finite a b Ha Hb) as (r1 & Hr1).
  destruct (primary_finite b c Hb Hc) as (r2 & Hr2).
  destruct (primary_finite a c Ha Hc) as (r3 & Hr3).
  rewrite (order_compareRows a b r1 Hr1), (order_compareRows b c r2 Hr2),
    (order_compareRows a c r3 Hr3).
  apply (lex_trans RowData (sortable st) rank byName rank_anti rank_trans
           byName_trans); assumption.
Qed.

Lemma compareRows_Eq a b :
  sortable st a -> sortable st b ->
  (order (compareRows st a b) = Eq <->
   Num.strict_eq (primary st a b) zero = true /\ sortName a = sortName b).
Proof.
  intros Ha Hb. destruct (primary_finite a b Ha Hb) as (r & Hr).
  rewrite (order_compareRows a b r Hr). unfold rank. rewrite Hr, rank_Eq.
  unfold thenBy, byName. destruct (order (Fin r)); split.
  - intros E. split; [reflexivity |]. apply String.compare_eq_iff. exact E.
  - intros [_ ->]. apply compare_refl.
  - discriminate.
  - intros [E _]. discriminate.
  - discriminate.
  - intros [E _]. discriminate.
Qed.

End RowOrder.

Section TotalPreorder.

Local Open Scope R_scope.

Lemma strict_eq_zero n : Num.strict_eq n zero = true -> n = Fin 0.
Proof.
  destruct n; simpl; try discriminate. intros H. apply Reqb_spec in H.
  rewrite H. reflexivity.
Qed.

Lemma primary_zero_any_direction st a b dir :
  Num.strict_eq (primary st a b) zero = true ->
  primary (withDirection dir st) a b = primary st a b.
Proof.
  unfold primary, withDirection. simpl. destruct (mode st); [reflexivity |].
  destruct (value_lt (get a (columnKey st)) (get b (columnKey st))),
    (value_lt (get b (columnKey st)) (get a (columnKey st)));
    try reflexivity; destruct (direction st), dir; try reflexivity;
    unfold signed, zero; simpl; intros H; apply Reqb_spec in H; lra.
Qed.

Lemma sortable_counts st d :
  mode st = Weighted -> nonnegative (weights st) -> counts d -> sortable st d.
Proof.
  intros Hm Hw Hd. unfold sortable. rewrite Hm.
  rewrite (calculateScore_counts _ _ Hw Hd). exact I.
Qed.

Lemma counts_twinA : counts twinA.
Proof. apply counts_rowOf; lia. Qed.

Lemma counts_twinB : counts twinB.
Proof. apply counts_rowOf; lia. Qed.

Lemma twins_tie_weighted : Num.strict_eq (primary initial twinA twinB) zero = true.
Proof.
  unfold primary. simpl mode. simpl weights.
  change (calculateScore DEFAULTS twinB) with (calculateScore DEFAULTS twinA).
  rewrite (calculateScore_counts _ _ nonnegative_DEFAULTS counts_twinA).
  simpl. apply Reqb_true. lra.
Qed.

Lemma twins_tie_column : Num.strict_eq (primary byCapacity twinA twinB) zero = true.
Proof.
  unfold primary. simpl mode.
  change (get twinA (columnKey byCapacity)) with (VNumber (Fin 1000)).
  change (get twinB (columnKey byCapacity)) with (VNumber (Fin 1000)).
  unfold value_lt, Num.lt. rewrite Rltb_false by lra.
  simpl. apply Reqb_true. reflexivity.
Qed.

(** C6, as stated, fails on antisymmetry: two different rows with the same
    display name and the same score, or the same column value, compare as
    equal in both modes, so the comparator does not order them. *)
Lemma same_name_rows_compare_equal :
  twinA <> twinB /\ url twinA <> url twinB /\
  sortName twinA = sortName twinB /\
  order (compareRows initial twinA twinB) = Eq /\
  order (compareRows initial twinB twinA) = Eq /\
  order (compareRows byCapacity twinA twinB) = Eq /\
  order (compareRows byCapacity twinB twinA) = Eq.
Proof.
  assert (sortable initial twinA) as Sa
      by (apply sortable_counts; [reflexivity | apply nonnegative_DEFAULTS
                                 | apply counts_twinA]).
  assert (sortable initial twinB) as Sb
      by (apply sortable_counts; [reflexivity | apply nonnegative_DEFAULTS
                                 | apply counts_twinB]).
  assert (sortable byCapacity twinA) as Ca by exact I.
  assert (sortable byCapacity twinB) as Cb by exact I.
  assert (order (compareRows initial twinA twinB) = Eq) as Hw.
  { apply compareRows_Eq; try assumption. split; [apply twins_tie_weighted |].
    reflexivity. }
  assert (order (compareRows byCapacity twinA twinB) = Eq) as Hc.
  { apply compareRows_Eq; try assumption. split; [apply twins_tie_column |].
    reflexivity. }
  split; [discriminate |]. split; [discriminate |]. split; [reflexivity |].
  split; [exact Hw |].
  split; [rewrite (compareRows_anti initial twinA twinB Sa Sb), Hw; reflexivity |].
  split; [exact Hc |].
  rewrite (compareRows_anti byCapacity twinA twinB Ca Cb), Hc. reflexivity.
Qed.

(** C6 (amended). The sort name of a row is its display name, or its URL
    when the name is absent, in lowercase. In both modes, whenever the
    primary comparison of two rows is equal ([res === 0]), the comparator
    orders them by their sort name, ascending, and this does not depend on
    the direction. On rows it can rank (a finite score in the weighted
    mode, a comparable value in the column mode) the comparator is a total
    preorder: reversing the arguments reverses the result, it is
    transitive, and two rows compare as equal exactly when both their
    primary comparison and their sort names are equal. *)
Theorem compareRows_total_preorder (st : State) (a b c : RowData) :
  (forall row : Dataset,
      sortName (getRowData row)
      = Str.toLowerCase
          (Str.or_else (row !! "name"%string) (Str.or_else (row !! "url"%string) ""))) /\
  (Num.strict_eq (primary st a b) zero = true ->
     order (compareRows st a b) = byName a b /\
     forall dir : Direction,
       Num.strict_eq (primary (withDirection dir st) a b) zero = true /\
       compareRows (withDirection dir st) a b = compareRows st a b) /\
  (sortable st a -> sortable st b -> sortable st c ->
     order (compareRows st b a) = CompOpp (order (compareRows st a b)) /\
     (order (compareRows st a b) <> Gt -> order (compareRows st b c) <> Gt ->
      order (compareRows st a c) <> Gt) /\
     (order (compareRows st a b) = Eq <->
      Num.strict_eq (primary st a b) zero = true /\ sortName a = sortName b)).
Proof.
  split; [reflexivity |]. split.
  - intros Hz. split.
    + pose proof (strict_eq_zero _ Hz) as Hp.
      rewrite (order_compareRows st a b 0 Hp), Hp.
      replace (order (Fin 0)) with Eq; [reflexivity |].
      rewrite order_Fin. destruct (Rlt_dec 0 0); [lra | reflexivity].
    + intros dir. pose proof (primary_zero_any_direction st a b dir Hz) as Hd.
      split; [rewrite Hd; exact Hz |].
      unfold compareRows. rewrite Hd. reflexivity.
  - intros Ha Hb Hc. split; [apply compareRows_anti; assumption |].
    split; [apply compareRows_trans; assumption |].
    apply compareRows_Eq; assumption.
Qed.

Lemma compareRows_total_preorder_witness :
  Num.strict_eq (primary initial twinA twinB) zero = true /\
  sortable initial twinA /\ sortable initial twinB /\ sortable initial exampleA /\
  order (compareRows initial twinA twinB) = byName twinA twinB /\
  compareRows (withDirection Asc initial) twinA twinB
  = compareRows initial twinA twinB /\
  order (compareRows initial twinB twinA)
  = CompOpp (order (compareRows initial twinA twinB)) /\
  (order (compareRows initial twinA twinB) = Eq <->
   Num.strict_eq (primary initial twinA twinB) zero = true /\
   sortName twinA = sortName twinB).
Proof.
  assert (sortable initial twinA) as Sa
      by (apply sortable_counts; [reflexivity | apply nonnegative_DEFAULTS
                                 | apply counts_twinA]).
  assert (sortable initial twinB) as Sb
      by (apply sortable_counts; [reflexivity | apply nonnegative_DEFAULTS
                                 | apply counts_twinB]).
  assert (sortable initial exampleA) as Sc
      by (apply sortable_counts; [reflexivity | apply nonnegative_DEFAULTS
                                 | apply counts_exampleA]).
  destruct (compareRows_total_preorder initial twinA twinB exampleA)
    as (_ & Htie & Hord).
  destruct (Htie twins_tie_weighted) as [Hname Hdir].
  destruct (Hdir Asc) as [_ Hsame].
  destruct (Hord Sa Sb Sc) as (Hanti & _ & Heq).
  split; [exact twins_tie_weighted |].
  split; [exact Sa |]. split; [exact Sb |]. split; [exact Sc |].
  split; [exact Hname |]. split; [exact Hsame |]. split; [exact Hanti |].
  exact Heq.
Defined.

End TotalPreorder.

(** ** The latency probe *)

Import LatencyMonitor.

Section LatencyProbe.

Local Open Scope Z_scope.

Lemma latency_invariant_later t t' st :
  t <= t' -> latency_invariant t st -> latency_invariant t' st.
Proof.
  intros Ht [H1 H2 H3 H4 H5]. split; try assumption.
  intros u p c Hp Hc. specialize (H3 u p c Hp Hc). lia.
Qed.

Lemma latency_invariant_init t : latency_invariant t latency_init.
Proof. split; simpl; intros; simplify_map_eq. Qed.

(** The three ways [measureLatency] returns. *)
Lemma measureLatency_cases mintUrl now st :
  (exists c, latencyCache st !! mintUrl = Some c /\ is_fresh now c = true /\
     measureLatency mintUrl now st = (Immediate (value c), st)) \/
  ((forall c, latencyCache st !! mintUrl = Some c -> is_fresh now c = false) /\
   ((exists p, pendingRequests st !! mintUrl = Some p /\
       measureLatency mintUrl now st = (Awaits p, st)) \/
    (pendingRequests st !! mintUrl = None /\
     measureLatency mintUrl now st =
     (Awaits (nextMeasure st),
      {| latencyCache := latencyCache st;
         pendingRequests := <[mintUrl := nextMeasure st]> (pendingRequests st);
         measuring :=
           <[nextMeasure st :=
               {| measure_url := mintUrl; start := performance_now now |}]>
             (measuring st);
         measured := measured st;
         infoRequests := infoRequests st ++ [info_url mintUrl];
         nextMeasure := S (nextMeasure st) |})))).
Proof.
  unfold measureLatency.
  destruct (latencyCache st !! mintUrl) as [c |] eqn:Hc.
  - destruct (is_fresh now c) eqn:Hf.
    + left. exists c. auto.
    + right. split; [intros c' [= <-]; exact Hf |].
      destruct (pendingRequests st !! mintUrl) as [p |]; [left | right]; eauto.
  - right. split; [intros c' [=] |].
    destruct (pendingRequests st !! mintUrl) as [p |]; [left | right]; eauto.
Qed.

Lemma not_fresh {V} now (c : Entry V) :
  is_fresh now c = false -> CACHE_DURATION_MS <= date_now now - timestamp c.
Proof. unfold is_fresh. intros H. apply Z.ltb_ge in H. exact H. Qed.

Lemma latency_invariant_call t st mintUrl now :
  latency_invariant t st -> t <= date_now now ->
  latency_invariant (date_now now) (snd (measureLatency mintUrl now st)).
Proof.
  intros Hinv Ht.
  pose proof (latency_invariant_later _ _ st Ht Hinv) as Hlater.
  destruct (measureLatency_cases mintUrl now st)
    as [(c & _ & _ & ->) | [Hstale [(p & _ & ->) | [Hnone ->]]]];
    try exact Hlater.
  destruct Hlater as [H1 H2 H3 H4 H5]. split; simpl.
  - intros u p. destruct (decide (mintUrl = u)) as [<- | Hne].
    + rewrite lookup_insert_eq. intros [= <-]. rewrite lookup_insert_eq. eauto.
    + rewrite lookup_insert_ne by exact Hne. intros Hp.
      destruct (H1 u p Hp) as (k & Hk & Hu). exists k. split; [| exact Hu].
      rewrite lookup_insert_ne; [exact Hk |]. specialize (H4 p k Hk). lia.
  - intros p k. destruct (decide (nextMeasure st = p)) as [<- | Hne].
    + rewrite lookup_insert_eq. intros [= <-]. simpl. apply lookup_insert_eq.
    + rewrite lookup_insert_ne by exact Hne. intros Hk.
      specialize (H2 p k Hk). rewrite lookup_insert_ne; [exact H2 |].
      intros ->. congruence.
  - intros u p c. destruct (decide (mintUrl = u)) as [<- | Hne].
    + intros _ Hc. apply not_fresh. apply Hstale. exact Hc.
    + rewrite lookup_insert_ne by exact Hne. apply H3.
  - intros p k. destruct (decide (nextMeasure st = p)) as [<- | Hne].
    + intros _. lia.
    + rewrite lookup_insert_ne by exact Hne. intros Hk.
      specialize (H4 p k Hk). lia.
  - exact H5.
Qed.

Lemma latency_invariant_settle t st p r now :
  latency_invariant t st -> t <= date_now now ->
  latency_invariant (date_now now) (settleLatency p r now st).
Proof.
  intros Hinv Ht.
  pose proof (latency_invariant_later _ _ st Ht Hinv) as Hlater.
  unfold settleLatency. destruct (measuring st !! p) as [task |] eqn:Htask;
    [| exact Hlater].
  destruct Hlater as [H1 H2 H3 H4 H5]. split; simpl.
  - intros u q Hq. apply lookup_delete_Some in Hq as [Hne Hq].
    destruct (H1 u q Hq) as (k & Hk & Hu). exists k. split; [| exact Hu].
    rewrite lookup_delete_ne; [exact Hk |]. intros <-. congruence.
  - intros q k Hk. apply lookup_delete_Some in Hk as [Hne Hk].
    pose proof (H2 q k Hk) as Hq. pose proof (H2 p task Htask) as Hp.
    rewrite lookup_delete_ne; [exact Hq |].
    intros Hu. rewrite Hu in Hp. congruence.
  - intros u q c Hq Hc. apply lookup_delete_Some in Hq as [Hne Hq].
    apply (H3 u q c Hq).
    destruct (match r with Response true => true | _ => false end);
      [rewrite lookup_insert_ne in Hc by exact Hne |]; exact Hc.
  - intros q k Hk. apply lookup_delete_Some in Hk as [_ Hk]. apply (H4 q k Hk).
  - intros u c.
    destruct (match r with Response true => true | _ => false end); [| apply H5].
    destruct (decide (measure_url task = u)) as [<- | Hne].
    + rewrite lookup_insert_eq. intros [= <-]. simpl. eauto.
    + rewrite lookup_insert_ne by exact Hne. apply H5.
Qed.

Lemma latency_invariant_clear t st :
  latency_invariant t st -> latency_invariant t (clearLatency st).
Proof.
  intros [H1 H2 H3 H4 H5]. split; simpl; try assumption.
  - intros u p c _ Hc. simplify_map_eq.
  - intros u c Hc. simplify_map_eq.
Qed.

Lemma latency_reachable_invariant t st :
  latency_reachable t st -> latency_invariant t st.
Proof.
  induction 1 as [t | t st e now Hreach IH Ht].
  - apply latency_invariant_init.
  - destruct e as [mintUrl | p r |]; simpl.
    + apply (latency_invariant_call t); assumption.
    + apply (latency_invariant_settle t); assumption.
    + apply latency_invariant_clear.
      apply (latency_invariant_later t); assumption.
Qed.

End LatencyProbe.

(** ** The capability probe *)

Section UnitsProbe.

Local Open Scope Z_scope.

Lemma units_invariant_later t t' st :
  t <= t' -> units_invariant t st -> units_invariant t' st.
Proof.
  intros Ht [H1 H2 H3 H4 H5]. split; try assumption.
  intros u p c Hp Hc. specialize (H3 u p c Hp Hc). lia.
Qed.

Lemma units_invariant_init t : units_invariant t units_init.
Proof. split; simpl; intros; simplify_map_eq. Qed.

(** The three ways [fetchSupportedUnits] returns. *)
Lemma fetchSupportedUnits_cases mintUrl now st :
  (exists c, currencyCache st !! mintUrl = Some c /\ is_fresh now c = true /\
     fetchSupportedUnits mintUrl now st = (Immediate (value c), st)) \/
  ((forall c, currencyCache st !! mintUrl = Some c -> is_fresh now c = false) /\
   ((exists p, pendingCurrencyRequests st !! mintUrl = Some p /\
       fetchSupportedUnits mintUrl now st = (Awaits p, st)) \/
    (pendingCurrencyRequests st !! mintUrl = None /\
     fetchSupportedUnits mintUrl now st =
     (Awaits (nextFetch st),
      {| currencyCache := currencyCache st;
         pendingCurrencyRequests :=
           <[mintUrl := nextFetch st]> (pendingCurrencyRequests st);
         fetching := <[nextFetch st := AwaitFetch mintUrl]> (fetching st);
         fetched := fetched st;
         keysetRequests := keysetRequests st ++ [keysets_url mintUrl];
         nextFetch := S (nextFetch st) |})))).
Proof.
  unfold fetchSupportedUnits.
  destruct (currencyCache st !! mintUrl) as [c |] eqn:Hc.
  - destruct (is_fresh now c) eqn:Hf.
    + left. exists c. auto.
    + right. split; [intros c' [= <-]; exact Hf |].
      destruct (pendingCurrencyRequests st !! mintUrl) as [p |];
        [left | right]; eauto.
  - right. split; [intros c' [=] |].
    destruct (pendingCurrencyRequests st !! mintUrl) as [p |];
      [left | right]; eauto.
Qed.

Lemma units_invariant_call t st mintUrl now :
  units_invariant t st -> t <= date_now now ->
  units_invariant (date_now now) (snd (fetchSupportedUnits mintUrl now st)).
Proof.
  intros Hinv Ht.
  pose proof (units_invariant_later _ _ st Ht Hinv) as Hlater.
  destruct (fetchSupportedUnits_cases mintUrl now st)
    as [(c & _ & _ & ->) | [Hstale [(p & _ & ->) | [Hnone ->]]]];
    try exact Hlater.
  destruct Hlater as [H1 H2 H3 H4 H5]. split; simpl.
  - intros u p. destruct (decide (mintUrl = u)) as [<- | Hne].
    + rewrite lookup_insert_eq. intros [= <-]. rewrite lookup_insert_eq. eauto.
    + rewrite lookup_insert_ne by exact Hne. intros Hp.
      destruct (H1 u p Hp) as (k & Hk & Hu). exists k. split; [| exact Hu].
      rewrite lookup_insert_ne; [exact Hk |]. specialize (H4 p k Hk). lia.
  - intros p k. destruct (decide (nextFetch st = p)) as [<- | Hne].
    + rewrite lookup_insert_eq. intros [= <-]. simpl. apply lookup_insert_eq.
    + rewrite lookup_insert_ne by exact Hne. intros Hk.
      specialize (H2 p k Hk). rewrite lookup_insert_ne; [exact H2 |].
      intros ->. congruence.
  - intros u p c. destruct (decide (mintUrl = u)) as [<- | Hne].
    + intros _ Hc. apply not_fresh. apply Hstale. exact Hc.
    + rewrite lookup_insert_ne by exact Hne. apply H3.
  - intros p k. destruct (decide (nextFetch st = p)) as [<- | Hne].
    + intros _. lia.
    + rewrite lookup_insert_ne by exact Hne. intros Hk.
      specialize (H4 p k Hk). lia.
  - exact H5.
Qed.

Lemma units_invariant_finish t st p k store result :
  units_invariant t st -> fetching st !! p = Some k ->
  (forall entry, store = Some entry -> exists l, value entry = Some l) ->
  units_invariant t (finishUnits p (fetching_url k) store result st).
Proof.
  intros [H1 H2 H3 H4 H5] Htask Hstore. split; simpl.
  - intros u q Hq. apply lookup_delete_Some in Hq as [Hne Hq].
    destruct (H1 u q Hq) as (k' & Hk & Hu). exists k'. split; [| exact Hu].
    rewrite lookup_delete_ne; [exact Hk |]. intros <-. congruence.
  - intros q k' Hk. apply lookup_delete_Some in Hk as [Hne Hk].
    pose proof (H2 q k' Hk) as Hq. pose proof (H2 p k Htask) as Hp.
    rewrite lookup_delete_ne; [exact Hq |].
    intros Hu. rewrite Hu in Hp. congruence.
  - intros u q c Hq Hc. apply lookup_delete_Some in Hq as [Hne Hq].
    apply (H3 u q c Hq).
    destruct store; [rewrite lookup_insert_ne in Hc by exact Hne |]; exact Hc.
  - intros q k' Hk. apply lookup_delete_Some in Hk as [_ Hk]. apply (H4 q k' Hk).
  - intros u c. destruct store as [entry |]; [| apply H5].
    destruct (decide (fetching_url k = u)) as [<- | Hne].
    + rewrite lookup_insert_eq. intros [= <-]. apply Hstore. reflexivity.
    + rewrite lookup_insert_ne by exact Hne. apply H5.
Qed.

Lemma units_invariant_fetch_settled t st p r :
  units_invariant t st -> units_invariant t (settleUnitsFetch p r st).
Proof.
  intros Hinv. unfold settleUnitsFetch.
  destruct (fetching st !! p) as [[u | u] |] eqn:Htask; try exact Hinv.
  assert (units_invariant t (finishUnits p u None None st)) as Hfinish
      by (apply (units_invariant_finish t st p (AwaitFetch u));
          [exact Hinv | exact Htask | discriminate]).
  destruct r as [[|] | |]; try exact Hfinish.
  destruct Hinv as [H1 H2 H3 H4 H5]. split; simpl; try assumption.
  - intros u' q Hq. destruct (H1 u' q Hq) as (k & Hk & Hu).
    destruct (decide (p = q)) as [<- | Hne].
    + rewrite lookup_insert_eq. exists (AwaitJson u). split; [reflexivity |].
      rewrite Htask in Hk. injection Hk as <-. exact Hu.
    + rewrite lookup_insert_ne by exact Hne. eauto.
  - intros q k. destruct (decide (p = q)) as [<- | Hne].
    + rewrite lookup_insert_eq. intros [= <-]. apply (H2 p _ Htask).
    + rewrite lookup_insert_ne by exact Hne. apply H2.
  - intros q k. destruct (decide (p = q)) as [<- | Hne].
    + intros _. apply (H4 p _ Htask).
    + rewrite lookup_insert_ne by exact Hne. apply H4.
Qed.

Lemma units_invariant_json_settled t st p body now :
  units_invariant t st -> units_invariant t (settleUnitsJson p body now st).
Proof.
  intros Hinv. unfold settleUnitsJson.
  destruct (fetching st !! p) as [[u | u] |] eqn:Htask; try exact Hinv.
  destruct body as [data |].
  - apply (units_invariant_finish t st p (AwaitJson u)); [exact Hinv | exact Htask |].
    intros entry [= <-]. simpl. eauto.
  - apply (units_invariant_finish t st p (AwaitJson u));
      [exact Hinv | exact Htask | discriminate].
Qed.

Lemma units_invariant_clear t st :
  units_invariant t st -> units_invariant t (clearUnits st).
Proof.
  intros [H1 H2 H3 H4 H5]. split; simpl; try assumption.
  - intros u p c _ Hc. simplify_map_eq.
  - intros u c Hc. simplify_map_eq.
Qed.

Lemma units_reachable_invariant t st :
  units_reachable t st -> units_invariant t st.
Proof.
  induction 1 as [t | t st e now Hreach IH Ht].
  - apply units_invariant_init.
  - pose proof (units_invariant_later t _ st Ht IH) as Hlater.
    destruct e as [mintUrl | p r | p body |]; simpl.
    + apply (units_invariant_call t); assumption.
    + apply units_invariant_fetch_settled. exact Hlater.
    + apply units_invariant_json_settled. exact Hlater.
    + apply units_invariant_clear. exact Hlater.
Qed.

End UnitsProbe.

(** ** Deduplication, failures and the caches *)

Section ProbeCache.

Local Open Scope Z_scope.

Lemma fresh_not_stale {V} now (c : Entry V) t :
  t <= date_now now -> CACHE_DURATION_MS <= t - timestamp c ->
  is_fresh now c = false.
Proof. intros Ht Hc. unfold is_fresh. apply Z.ltb_ge. lia. Qed.

(** A call for a URL whose probe [p] is in flight attaches to [p]. *)
Lemma measureLatency_attaches t st p k now :
  latency_invariant t st -> measuring st !! p = Some k -> t <= date_now now ->
  measureLatency (measure_url k) now st = (Awaits p, st).
Proof.
  intros [H1 H2 H3 H4 H5] Hk Ht. pose proof (H2 p k Hk) as Hp.
  destruct (measureLatency_cases (measure_url k) now st)
    as [(c & Hc & Hf & _) | [_ [(q & Hq & ->) | [Hnone _]]]].
  - rewrite (fresh_not_stale now c t Ht (H3 _ _ _ Hp Hc)) in Hf. discriminate.
  - congruence.
  - congruence.
Qed.

Lemma fetchSupportedUnits_attaches t st p k now :
  units_invariant t st -> fetching st !! p = Some k -> t <= date_now now ->
  fetchSupportedUnits (fetching_url k) now st = (Awaits p, st).
Proof.
  intros [H1 H2 H3 H4 H5] Hk Ht. pose proof (H2 p k Hk) as Hp.
  destruct (fetchSupportedUnits_cases (fetching_url k) now st)
    as [(c & Hc & Hf & _) | [_ [(q & Hq & ->) | [Hnone _]]]].
  - rewrite (fresh_not_stale now c t Ht (H3 _ _ _ Hp Hc)) in Hf. discriminate.
  - congruence.
  - congruence.
Qed.

(** C2. In every reachable state, for each probe kind: two probes in
    flight never have the same URL; a call for a URL whose probe is in
    flight issues no request, leaves the state as it is and hands back the
    promise of that probe, so the caller observes whatever that probe
    settles with; and any call either issues no request, or issues
    exactly one and registers and hands back the promise of the probe it
    starts. *)
Theorem one_probe_per_url (t : Z) (lat : Latency) (cur : Units) :
  latency_reachable t lat -> units_reachable t cur ->
  ((forall p q k k',
       measuring lat !! p = Some k -> measuring lat !! q = Some k' ->
       measure_url k = measure_url k' -> p = q) /\
   (forall p k now,
       measuring lat !! p = Some k -> t <= date_now now ->
       measureLatency (measure_url k) now lat = (Awaits p, lat) /\
       forall results : gmap nat (option Z),
         observe results (fst (measureLatency (measure_url k) now lat))
         = results !! p) /\
   (forall u now,
       infoRequests (snd (measureLatency u now lat)) = infoRequests lat \/
       (fst (measureLatency u now lat) = Awaits (nextMeasure lat) /\
        pendingRequests (snd (measureLatency u now lat)) !! u
        = Some (nextMeasure lat) /\
        infoRequests (snd (measureLatency u now lat))
        = infoRequests lat ++ [info_url u]))) /\
  ((forall p q k k',
       fetching cur !! p = Some k -> fetching cur !! q = Some k' ->
       fetching_url k = fetching_url k' -> p = q) /\
   (forall p k now,
       fetching cur !! p = Some k -> t <= date_now now ->
       fetchSupportedUnits (fetching_url k) now cur = (Awaits p, cur) /\
       forall results : gmap nat (option (list string)),
         observe results (fst (fetchSupportedUnits (fetching_url k) now cur))
         = results !! p) /\
   (forall u now,
       keysetRequests (snd (fetchSupportedUnits u now cur)) = keysetRequests cur \/
       (fst (fetchSupportedUnits u now cur) = Awaits (nextFetch cur) /\
        pendingCurrencyRequests (snd (fetchSupportedUnits u now cur)) !! u
        = Some (nextFetch cur) /\
        keysetRequests (snd (fetchSupportedUnits u now cur))
        = keysetRequests cur ++ [keysets_url u]))).
Proof.
  intros Hlat Hcur.
  apply latency_reachable_invariant in Hlat.
  apply units_reachable_invariant in Hcur.
  split; (split; [| split]).
  - intros p q k k' Hp Hq Hu.
    pose proof (latency_in_flight t lat Hlat p k Hp) as H1.
    pose proof (latency_in_flight t lat Hlat q k' Hq) as H2.
    rewrite Hu in H1. congruence.
  - intros p k now Hk Ht.
    rewrite (measureLatency_attaches t lat p k now Hlat Hk Ht). auto.
  - intros u now.
    destruct (measureLatency_cases u now lat)
      as [(c & _ & _ & ->) | [_ [(p & _ & ->) | [_ ->]]]]; simpl; auto.
    right. split; [reflexivity |]. split; [apply lookup_insert_eq | reflexivity].
  - intros p q k k' Hp Hq Hu.
    pose proof (units_in_flight t cur Hcur p k Hp) as H1.
    pose proof (units_in_flight t cur Hcur q k' Hq) as H2.
    rewrite Hu in H1. congruence.
  - intros p k now Hk Ht.
    rewrite (fetchSupportedUnits_attaches t cur p k now Hcur Hk Ht). auto.
  - intros u now.
    destruct (fetchSupportedUnits_cases u now cur)
      as [(c & _ & _ & ->) | [_ [(p & _ & ->) | [_ ->]]]]; simpl; auto.
    right. split; [reflexivity |]. split; [apply lookup_insert_eq | reflexivity].
Qed.

Lemma settleLatency_result st p k r now :
  measuring st !! p = Some k ->
  settleLatency p r now st =
  let latency := round (performance_now now - start k) in
  let ok := match r with Response true => true | _ => false end in
  {| latencyCache :=
       if ok then
         <[measure_url k := {| value := Some latency; timestamp := date_now now |}]>
           (latencyCache st)
       else latencyCache st;
     pendingRequests := delete (measure_url k) (pendingRequests st);
     measuring := delete p (measuring st);
     measured := <[p := if ok then Some latency else None]> (measured st);
     infoRequests := infoRequests st;
     nextMeasure := nextMeasure st |}.
Proof. intros Hk. unfold settleLatency. rewrite Hk. reflexivity. Qed.

(** C7. When the fetch of a probe in flight settles: on a response with
    [ok] the promise resolves with the rounded elapsed time and that value
    is cached under the URL with the current time; on any other outcome
    (a response without [ok], a network error, an abort by the timeout)
    the promise resolves with null, the cache is left as it was, and a call
    for the same URL at that time or later issues a new request. *)
Theorem latency_cached_only_on_success
    (t : Z) (st : Latency) (p : nat) (k : Measure) (r : FetchResult) (now : Time) :
  latency_reachable t st -> measuring st !! p = Some k -> t <= date_now now ->
  (r = Response true ->
     measured (settleLatency p r now st) !! p
     = Some (Some (round (performance_now now - start k))) /\
     latencyCache (settleLatency p r now st) !! measure_url k
     = Some {| value := Some (round (performance_now now - start k));
               timestamp := date_now now |}) /\
  (r <> Response true ->
     measured (settleLatency p r now st) !! p = Some None /\
     latencyCache (settleLatency p r now st) = latencyCache st /\
     forall later : Time,
       date_now now <= date_now later ->
       fst (measureLatency (measure_url k) later (settleLatency p r now st))
       = Awaits (nextMeasure st) /\
       infoRequests
         (snd (measureLatency (measure_url k) later (settleLatency p r now st)))
       = infoRequests st ++ [info_url (measure_url k)]).
Proof.
  intros Hreach Hk Ht. apply latency_reachable_invariant in Hreach.
  pose proof (latency_invariant_settle t st p r now Hreach Ht) as Hinv'.
  pose proof (latency_in_flight t st Hreach p k Hk) as Hp.
  rewrite (settleLatency_result st p k r now Hk) in *. split.
  - intros ->. simpl. split; apply lookup_insert_eq.
  - intros Hr. simpl.
    assert (match r with Response true => true | _ => false end = false) as Hok
        by (destruct r as [[|] | |]; congruence).
    rewrite Hok in *. split; [apply lookup_insert_eq |]. split; [reflexivity |].
    intros later Hlater.
    match goal with |- context [measureLatency ?u later ?s] =>
      destruct (measureLatency_cases u later s)
        as [(c & Hc & Hf & _) | [_ [(q & Hq & _) | [_ ->]]]]
    end; simpl in *.
    + pose proof (latency_stale t st Hreach _ _ c Hp Hc) as Hstale.
      rewrite (fresh_not_stale later c t) in Hf by lia. discriminate.
    + rewrite lookup_delete_eq in Hq. discriminate.
    + split; reflexivity.
Qed.

(** C10. In every reachable state no entry of [latencyCache] holds null.
    An entry appears or changes only when the fetch of a probe in flight
    for that URL settles with an [ok] response, and then holds the rounded
    elapsed time of that probe, an integer. So a call that finds an entry
    younger than [CACHE_DURATION_MS] hands back that integer, never null,
    and leaves the state, and with it the list of requests, as it was. *)
Theorem latency_cache_holds_integers (t : Z) (st : Latency) :
  latency_reachable t st ->
  (forall u c, latencyCache st !! u = Some c -> exists z : Z, value c = Some z) /\
  (forall e now u c,
      latencyCache (latency_step e now st) !! u = Some c ->
      latencyCache st !! u = Some c \/
      exists p k,
        e = FetchSettled p (Response true) /\ measuring st !! p = Some k /\
        measure_url k = u /\
        c = {| value := Some (round (performance_now now - start k));
               timestamp := date_now now |}) /\
  (forall u c now,
      latencyCache st !! u = Some c -> is_fresh now c = true ->
      exists z : Z,
        value c = Some z /\
        measureLatency u now st = (Immediate (Some z), st)).
Proof.
  intros Hreach. apply latency_reachable_invariant in Hreach.
  split; [exact (latency_not_null t st Hreach) |]. split.
  - intros [mintUrl | p r |] now u c; simpl.
    + destruct (measureLatency_cases mintUrl now st)
        as [(c' & _ & _ & ->) | [_ [(q & _ & ->) | [_ ->]]]]; simpl; auto.
    + unfold settleLatency. destruct (measuring st !! p) as [k |] eqn:Hk; auto.
      simpl. destruct r as [[|] | |]; auto.
      destruct (decide (measure_url k = u)) as [<- | Hne].
      * rewrite lookup_insert_eq. intros [= <-]. right. exists p, k. auto.
      * rewrite lookup_insert_ne by exact Hne. auto.
    + intros Hc. simplify_map_eq.
  - intros u c now Hc Hf.
    destruct (latency_not_null t st Hreach u c Hc) as (z & Hz).
    exists z. split; [exact Hz |].
    unfold measureLatency. rewrite Hc, Hf, Hz. reflexivity.
Qed.

End ProbeCache.

(** ** The unit set *)

Section UnitSet.

Lemma set_add_spec acc x :
  NoDup acc -> NoDup (set_add acc x) /\ forall y, y ∈ set_add acc x <-> y ∈ acc \/ y = x.
Proof.
  intros Hnd. unfold set_add. destruct (bool_decide (x ∈ acc)) eqn:Hx.
  - apply bool_decide_eq_true in Hx. split; [exact Hnd |].
    intros y. split; [auto | intros [H | ->]; assumption].
  - apply bool_decide_eq_false in Hx. split.
    + apply NoDup_app. split; [exact Hnd |]. split.
      * intros y Hy Hy'. apply list_elem_of_singleton in Hy'. subst. contradiction.
      * apply NoDup_singleton.
    + intros y. rewrite elem_of_app, list_elem_of_singleton. reflexivity.
Qed.

Lemma fold_set_add_spec l acc :
  NoDup acc ->
  NoDup (fold_left set_add l acc) /\
  forall y, y ∈ fold_left set_add l acc <-> y ∈ acc \/ y ∈ l.
Proof.
  revert acc. induction l as [| x l IH]; intros acc Hnd; simpl.
  - split; [exact Hnd |]. intros y. rewrite elem_of_nil. tauto.
  - destruct (set_add_spec acc x Hnd) as [Hnd' Hin'].
    destruct (IH (set_add acc x) Hnd') as [Hnd'' Hin''].
    split; [exact Hnd'' |]. intros y.
    rewrite Hin'', Hin', elem_of_cons. tauto.
Qed.

(** [[...new Set(l)]] has the members of [l], each once. *)
Lemma spread_set_spec l :
  NoDup (spread_set l) /\ forall y, y ∈ spread_set l <-> y ∈ l.
Proof.
  destruct (fold_set_add_spec l [] (NoDup_nil_2 (A:=string))) as [Hnd Hin].
  split; [exact Hnd |]. intros y. unfold spread_set. rewrite Hin, elem_of_nil.
  tauto.
Qed.

Lemma is_active_unit_spec ks :
  is_active_unit ks = true <->
  prop ks "active" = Some (JBool true) /\
  exists u, prop ks "unit" = Some (JString u).
Proof.
  unfold is_active_unit. split.
  - intros H. apply andb_prop in H as [H Hunit]. apply andb_prop in H as [_ Hact].
    split.
    + destruct (prop ks "active") as [[| [|] | | | |] |]; try discriminate.
      reflexivity.
    + destruct (prop ks "unit") as [[| | | u | |] |]; try discriminate. eauto.
  - intros [Hact (u & Hunit)]. rewrite Hact, Hunit.
    destruct ks; try discriminate. reflexivity.
Qed.

(** The units read from a body: the [unit] strings of the entries of its
    [keysets] array whose [active] is true, each once. *)
Lemma extract_units_spec data :
  NoDup (extract_units data) /\
  forall s : string,
    s ∈ extract_units data <->
    exists items ks,
      prop data "keysets" = Some (JArray items) /\ ks ∈ items /\
      prop ks "active" = Some (JBool true) /\
      prop ks "unit" = Some (JString s).
Proof.
  unfold extract_units.
  match goal with |- context [spread_set ?l] =>
    destruct (spread_set_spec l) as [Hnd Hin] end.
  split; [exact Hnd |]. intros s. rewrite Hin, list_elem_of_In, in_map_iff.
  split.
  - intros (ks & Hs & Hks). apply filter_In in Hks as [Hks Hact].
    apply is_active_unit_spec in Hact as [Hact (u & Hunit)].
    unfold unit_of in Hs. rewrite Hunit in Hs. subst u.
    destruct (prop data "keysets") as [[| | | | items |] |]; try contradiction.
    exists items, ks. rewrite list_elem_of_In. auto.
  - intros (items & ks & -> & Hks & Hact & Hunit).
    exists ks. split; [unfold unit_of; rewrite Hunit; reflexivity |].
    apply filter_In. split; [apply list_elem_of_In; exact Hks |].
    apply is_active_unit_spec. eauto.
Qed.

Example extract_units_sample : extract_units sampleBody = ["sat"; "usd"]%string.
Proof. vm_compute. reflexivity. Qed.

End UnitSet.

Section UnitsResult.

Local Open Scope Z_scope.

(** C8, as stated, fails for a body that parses but has the wrong shape:
    for the body [{}] the probe resolves with the empty list, not null,
    and caches it. *)
Lemma wrong_shape_yields_empty_list :
  fetching readingSample !! 0%nat = Some (AwaitJson sampleUrl) /\
  prop (JObject []) "keysets" = None /\
  fetched (settleUnitsJson 0 (Some (JObject [])) time1 readingSample) !! 0%nat
  = Some (Some []) /\
  fetched (settleUnitsJson 0 (Some (JObject [])) time1 readingSample) !! 0%nat
  <> Some None /\
  currencyCache (settleUnitsJson 0 (Some (JObject [])) time1 readingSample)
    !! sampleUrl
  = Some {| value := Some []; timestamp := 1080 |}.
Proof.
  assert (fetching readingSample !! 0%nat = Some (AwaitJson sampleUrl)) as Hk
      by (vm_compute; reflexivity).
  split; [exact Hk |]. split; [reflexivity |].
  unfold settleUnitsJson. rewrite Hk. simpl.
  rewrite !lookup_insert_eq. repeat split. discriminate.
Qed.

(** C8 (amended). When the body of an [ok] response is parsed, the probe
    resolves with the [unit] strings of the entries of its [keysets] array
    whose [active] is true, each once (the empty list when the body has no
    [keysets] array), and caches that list: a call within
    [CACHE_DURATION_MS] hands it back without a request. When the body
    cannot be parsed, and when the fetch fails or the response is not
    [ok], the probe resolves with null and caches nothing. *)
Theorem units_probe_result (st : Units) (p : nat) (u : string) :
  (forall data now,
      fetching st !! p = Some (AwaitJson u) ->
      (NoDup (extract_units data) /\
       forall s : string,
         s ∈ extract_units data <->
         exists items ks,
           prop data "keysets" = Some (JArray items) /\ ks ∈ items /\
           prop ks "active" = Some (JBool true) /\
           prop ks "unit" = Some (JString s)) /\
      fetched (settleUnitsJson p (Some data) now st) !! p
      = Some (Some (extract_units data)) /\
      currencyCache (settleUnitsJson p (Some data) now st) !! u
      = Some {| value := Some (extract_units data); timestamp := date_now now |} /\
      forall later : Time,
        date_now later - date_now now < CACHE_DURATION_MS ->
        fetchSupportedUnits u later (settleUnitsJson p (Some data) now st)
        = (Immediate (Some (extract_units data)),
           settleUnitsJson p (Some data) now st)) /\
  (forall now,
      fetching st !! p = Some (AwaitJson u) ->
      fetched (settleUnitsJson p None now st) !! p = Some None /\
      currencyCache (settleUnitsJson p None now st) = currencyCache st) /\
  (forall r,
      fetching st !! p = Some (AwaitFetch u) -> r <> Response true ->
      fetched (settleUnitsFetch p r st) !! p = Some None /\
      currencyCache (settleUnitsFetch p r st) = currencyCache st).
Proof.
  split; [| split].
  - intros data now Hk. split; [apply extract_units_spec |].
    unfold settleUnitsJson. rewrite Hk. simpl.
    split; [apply lookup_insert_eq |]. split; [apply lookup_insert_eq |].
    intros later Hlater. unfold fetchSupportedUnits. simpl.
    rewrite lookup_insert_eq. unfold is_fresh. simpl.
    apply Z.ltb_lt in Hlater. rewrite Hlater. reflexivity.
  - intros now Hk. unfold settleUnitsJson. rewrite Hk. simpl.
    split; [apply lookup_insert_eq | reflexivity].
  - intros r Hk Hr. unfold settleUnitsFetch. rewrite Hk.
    destruct r as [[|] | |]; try congruence; simpl;
      (split; [apply lookup_insert_eq | reflexivity]).
Qed.

End UnitsResult.

(** ** The probe theorems on the sample runs *)

Section ProbeSamples.

Local Open Scope Z_scope.

Lemma reachable_measuringSample : latency_reachable 1000 measuringSample.
Proof.
  apply (latency_next 1000 latency_init (CallLatency sampleUrl) time0).
  - apply latency_start.
  - simpl. lia.
Defined.

Lemma reachable_measuredSample : latency_reachable 1080 measuredSample.
Proof.
  apply (latency_next 1000 measuringSample (FetchSettled 0 (Response true)) time1).
  - apply reachable_measuringSample.
  - simpl. lia.
Defined.

Lemma reachable_fetchingSample : units_reachable 1000 fetchingSample.
Proof.
  apply (units_next 1000 units_init (CallUnits sampleUrl) time0).
  - apply units_start.
  - simpl. lia.
Defined.

Lemma one_probe_per_url_witness :
  latency_reachable 1000 measuringSample /\ units_reachable 1000 fetchingSample /\
  measuring measuringSample !! 0%nat
  = Some {| measure_url := sampleUrl; start := 5 |} /\
  fetching fetchingSample !! 0%nat = Some (AwaitFetch sampleUrl) /\
  1000 <= date_now time1 /\
  measureLatency sampleUrl time1 measuringSample = (Awaits 0, measuringSample) /\
  fetchSupportedUnits sampleUrl time1 fetchingSample = (Awaits 0, fetchingSample).
Proof.
  assert (measuring measuringSample !! 0%nat
          = Some {| measure_url := sampleUrl; start := 5 |}) as Hm
      by (vm_compute; reflexivity).
  assert (fetching fetchingSample !! 0%nat = Some (AwaitFetch sampleUrl)) as Hf
      by (vm_compute; reflexivity).
  assert (1000 <= date_now time1) as Ht by (simpl; lia).
  destruct (one_probe_per_url 1000 measuringSample fetchingSample
              reachable_measuringSample reachable_fetchingSample)
    as [(_ & Hlat & _) (_ & Hcur & _)].
  destruct (Hlat 0%nat _ time1 Hm Ht) as [Hcall _].
  destruct (Hcur 0%nat _ time1 Hf Ht) as [Hcall' _].
  repeat split; assumption || apply reachable_measuringSample
                || apply reachable_fetchingSample.
Defined.

Lemma latency_cached_only_on_success_witness :
  latency_reachable 1000 measuringSample /\
  measuring measuringSample !! 0%nat
  = Some {| measure_url := sampleUrl; start := 5 |} /\
  1000 <= date_now time1 /\ Aborted <> Response true /\
  date_now time1 <= date_now time2 /\
  measured (settleLatency 0 Aborted time1 measuringSample) !! 0%nat = Some None /\
  latencyCache (settleLatency 0 Aborted time1 measuringSample)
  = latencyCache measuringSample /\
  infoRequests
    (snd (measureLatency sampleUrl time2
            (settleLatency 0 Aborted time1 measuringSample)))
  = infoRequests measuringSample ++ [info_url sampleUrl] /\
  latencyCache measuredSample !! sampleUrl
  = Some {| value := Some (round (performance_now time1 - 5));
            timestamp := date_now time1 |}.
Proof.
  assert (measuring measuringSample !! 0%nat
          = Some {| measure_url := sampleUrl; start := 5 |}) as Hm
      by (vm_compute; reflexivity).
  assert (1000 <= date_now time1) as Ht by (simpl; lia).
  assert (Aborted <> Response true) as Hr by discriminate.
  assert (date_now time1 <= date_now time2) as Hlater by (simpl; lia).
  destruct (latency_cached_only_on_success 1000 measuringSample 0 _ Aborted time1
              reachable_measuringSample Hm Ht) as [_ Hfail].
  destruct (Hfail Hr) as (Hnull & Hcache & Hnext).
  destruct (Hnext time2 Hlater) as [_ Hrequest].
  destruct (latency_cached_only_on_success 1000 measuringSample 0 _
              (Response true) time1 reachable_measuringSample Hm Ht) as [Hok _].
  destruct (Hok eq_refl) as [_ Hcached].
  repeat split; assumption || apply reachable_measuringSample.
Defined.

Lemma latency_cache_holds_integers_witness :
  latency_reachable 1080 measuredSample /\
  latencyCache measuredSample !! sampleUrl
  = Some {| value := Some 80; timestamp := 1080 |} /\
  is_fresh time2 {| value := Some 80; timestamp := 1080 |} = true /\
  exists z : Z,
    value {| value := Some 80; timestamp := 1080 |} = Some z /\
    measureLatency sampleUrl time2 measuredSample
    = (Immediate (Some z), measuredSample).
Proof.
  assert (latencyCache measuredSample !! sampleUrl
          = Some {| value := Some 80; timestamp := 1080 |}) as Hc
      by (vm_compute; reflexivity).
  assert (is_fresh time2 {| value := Some 80; timestamp := 1080 |} = true) as Hf
      by reflexivity.
  destruct (latency_cache_holds_integers 1080 measuredSample
              reachable_measuredSample) as (_ & _ & Hhit).
  split; [apply reachable_measuredSample |]. split; [exact Hc |].
  split; [exact Hf |]. exact (Hhit sampleUrl _ time2 Hc Hf).
Defined.

Lemma units_probe_result_witness :
  fetching readingSample !! 0%nat = Some (AwaitJson sampleUrl) /\
  fetching fetchingSample !! 0%nat = Some (AwaitFetch sampleUrl) /\
  NetworkError <> Response true /\
  date_now time2 - date_now time1 < CACHE_DURATION_MS /\
  fetched (settleUnitsJson 0 (Some sampleBody) time1 readingSample) !! 0%nat
  = Some (Some (extract_units sampleBody)) /\
  fetchSupportedUnits sampleUrl time2
    (settleUnitsJson 0 (Some sampleBody) time1 readingSample)
  = (Immediate (Some (extract_units sampleBody)),
     settleUnitsJson 0 (Some sampleBody) time1 readingSample) /\
  fetched (settleUnitsJson 0 None time1 readingSample) !! 0%nat = Some None /\
  fetched (settleUnitsFetch 0 NetworkError fetchingSample) !! 0%nat = Some None.
Proof.
  assert (fetching readingSample !! 0%nat = Some (AwaitJson sampleUrl)) as Hj
      by (vm_compute; reflexivity).
  assert (fetching fetchingSample !! 0%nat = Some (AwaitFetch sampleUrl)) as Hf
      by (vm_compute; reflexivity).
  assert (NetworkError <> Response true) as Hr by discriminate.
  assert (date_now time2 - date_now time1 < CACHE_DURATION_MS) as Hlater
      by (vm_compute; reflexivity).
  destruct (units_probe_result readingSample 0 sampleUrl) as (Hok & Hbad & _).
  destruct (Hok sampleBody time1 Hj) as (_ & Hres & _ & Hhit).
  destruct (Hbad time1 Hj) as [Hnull _].
  destruct (units_probe_result fetchingSample 0 sampleUrl) as (_ & _ & Hfail).
  destruct (Hfail NetworkError Hf Hr) as [Hnull' _].
  pose proof (Hhit time2 Hlater) as Hcached.
  repeat split; assumption.
Defined.

End ProbeSamples.

(** * Further properties *)

(** ** Header clicks and weight edits *)

Section HeaderClicks.

Local Open Scope R_scope.

Lemma keyIs_spec k key : keyIs k key = true <-> k = Some key.
Proof.
  destruct k as [[| c] |], key as [| name]; simpl; split; try congruence.
  - intros H. apply String.eqb_eq in H. subst. reflexivity.
  - intros [= ->]. apply String.eqb_refl.
Qed.


Lemma handleHeaderClick_same key st :
  mode st = Column -> columnKey st = Some key ->
  handleHeaderClick key st = withDirection (flip (direction st)) st.
Proof.
  intros Hm Hk. unfold handleHeaderClick, withDirection.
  rewrite Hm, (proj2 (keyIs_spec (columnKey st) key) Hk). reflexivity.
Qed.



Lemma compareRows_column st a b :
  mode st = Column ->
  order (compareRows st a b) = thenBy (order (primary st a b)) (byName a b).
Proof.
  intros Hm.
  destruct (primary_column st a b Hm) as [E | [E | E]];
    apply (order_compareRows st a b _ E).
Qed.

(** X2. In the column mode a click on the header of the current column
    reverses the order of two rows that differ in that column, and keeps the
    order of two rows that are equal in it (these stay ordered by name,
    ascending). *)
Theorem header_click_reverses_column_order
    (st : State) (key : DataKey) (a b : RowData) :
  mode st = Column -> columnKey st = Some key ->
  (order (primary st a b) <> Eq ->
   order (compareRows (handleHeaderClick key st) a b)
   = CompOpp (order (compareRows st a b))) /\
  (order (primary st a b) = Eq ->
   order (compareRows (handleHeaderClick key st) a b) = byName a b /\
   order (compareRows st a b) = byName a b).
Proof.
  intros Hm Hk. rewrite (handleHeaderClick_same key st Hm Hk).
  assert (mode (withDirection (flip (direction st)) st) = Column) as Hm' by exact Hm.
  rewrite (compareRows_column _ a b Hm'), (compareRows_column st a b Hm).
  assert (order (primary (withDirection (flip (direction st)) st) a b)
          = CompOpp (order (primary st a b))) as Hflip.
  { pose proof (rank_column st a b Hm) as H1.
    pose proof (rank_column _ a b Hm') as H2. simpl in H1, H2.
    rewrite H1, H2. simpl.
    destruct (direction st); simpl; [reflexivity |].
    destruct (value_compare _ _); reflexivity. }
  rewrite Hflip. split.
  - intros Hne. destruct (order (primary st a b)); simpl; congruence.
  - intros ->. simpl. split; reflexivity.
Qed.

Lemma header_click_reverses_column_order_witness :
  mode byCapacity = Column /\ columnKey byCapacity = Some (Key "capacity") /\
  order (primary byCapacity slowRow exampleA) <> Eq /\
  order (compareRows (handleHeaderClick (Key "capacity") byCapacity) slowRow exampleA)
  = CompOpp (order (compareRows byCapacity slowRow exampleA)).
Proof.
  assert (order (primary byCapacity slowRow exampleA) <> Eq) as Hne.
  { unfold primary. simpl mode.
    change (get slowRow (columnKey byCapacity)) with (VNumber (Fin 0)).
    change (get exampleA (columnKey byCapacity)) with (VNumber (Fin 1000)).
    unfold value_lt, Num.lt. rewrite Rltb_true by lra. simpl.
    rewrite order_Fin. destruct (Rlt_dec (-1) 0); [discriminate | lra]. }
  destruct (header_click_reverses_column_order byCapacity (Key "capacity")
              slowRow exampleA
              eq_refl eq_refl) as [Hrev _].
  split; [reflexivity |]. split; [reflexivity |]. split; [exact Hne |].
  exact (Hrev Hne).
Defined.







Lemma add_NaN_r (s : Number) : Num.add s NaN = NaN.
Proof. destruct s; reflexivity. Qed.

Lemma mul_NaN_r (s : Number) : Num.mul s NaN = NaN.
Proof. destruct s; reflexivity. Qed.

Lemma calculateScore_NaN_weight w d :
  w_currency w = NaN \/ w_latency w = NaN -> calculateScore w d = NaN.
Proof.
  intros [Hw | Hw]; rewrite calculateScore_terms.
  - unfold currencyTerm. rewrite Hw, mul_NaN_r. apply add_NaN_r.
  - assert (latencyPenalty w d = NaN) as ->.
    { unfold latencyPenalty. rewrite Hw.
      destruct (Num.ge (latency d) (Fin 99999)); apply mul_NaN_r. }
    unfold Num.sub. simpl Num.neg. rewrite add_NaN_r. reflexivity.
Qed.

(** X4. When the text of the currency or of the latency weight input holds
    no number, the weight becomes NaN, the score of every row is NaN, and
    the comparator returns NaN for every pair of rows: no row is put before
    another, and the tie-break by name is not reached. *)
Theorem empty_weight_input_disables_sort
    (key : WeightKey) (value : string) (st : State) (a b : RowData) :
  key = KCurrency \/ key = KLatency ->
  Str.parseInt_Z value = None ->
  calculateScore (weights (onWeightInput key value st)) a = NaN /\
  compareRows (onWeightInput key value st) a b = NaN /\
  order (compareRows (onWeightInput key value st) a b) = Eq.
Proof.
  intros Hkey Hvalue.
  assert (forall d, calculateScore (weights (onWeightInput key value st)) d = NaN)
    as Hscore.
  { intros d. apply calculateScore_NaN_weight. unfold onWeightInput, Str.parseInt.
    rewrite Hvalue. destruct Hkey as [-> | ->]; simpl; auto. }
  split; [apply Hscore |].
  assert (compareRows (onWeightInput key value st) a b = NaN) as Hcmp.
  { unfold compareRows, primary. simpl mode. rewrite !Hscore. reflexivity. }
  split; [exact Hcmp |]. rewrite Hcmp. reflexivity.
Qed.

Lemma empty_weight_input_disables_sort_witness :
  Str.parseInt_Z "" = None /\
  order (compareRows (onWeightInput KLatency "" initial) exampleA downRow) = Eq.
Proof.
  destruct (empty_weight_input_disables_sort KLatency "" initial exampleA downRow
              (or_intror eq_refl) eq_refl) as (_ & _ & Horder).
  split; [reflexivity | exact Horder].
Defined.

End HeaderClicks.

(** ** The table after [applySort] *)

Section SortedTable.

Local Open Scope R_scope.

Variable st : State.

Lemma insertRow_perm cmp x l : insertRow cmp x l ≡ₚ x :: l.
Proof.
  induction l as [| y l IH]; simpl; [reflexivity |].
  destruct (order (cmp x y)); try reflexivity.
  rewrite IH. apply Permutation_swap.
Qed.

Lemma sortRows_perm cmp l : sortRows cmp l ≡ₚ l.
Proof.
  induction l as [| x l IH]; simpl; [reflexivity |].
  rewrite insertRow_perm, IH. reflexivity.
Qed.

Lemma notAfter_total a b :
  sortable st a -> sortable st b ->
  order (compareRows st a b) = Gt -> notAfter st b a.
Proof.
  intros Ha Hb Hgt. unfold notAfter.
  rewrite (compareRows_anti st a b Ha Hb), Hgt. discriminate.
Qed.

Lemma insertRow_sorted x l :
  sortable st x -> Forall (sortable st) l ->
  StronglySorted (notAfter st) l ->
  StronglySorted (notAfter st) (insertRow (compareRows st) x l).
Proof.
  intros Hx Hl Hs. induction Hs as [| y l Hs IH Hy]; simpl.
  - repeat constructor.
  - apply Forall_cons_1 in Hl as [Hdy Hl].
    assert (order (compareRows st x y) <> Gt ->
            StronglySorted (notAfter st) (x :: y :: l)) as Hfront.
    { intros Hle. constructor; [constructor; assumption |].
      constructor; [exact Hle |].
      rewrite Forall_forall in *. intros z Hz.
      apply (compareRows_trans st x y z); auto. apply Hy. exact Hz. }
    destruct (order (compareRows st x y)) eqn:Hxy;
      try (apply Hfront; discriminate).
    constructor; [apply IH; exact Hl |].
    rewrite (insertRow_perm (compareRows st) x l).
    constructor; [| exact Hy]. apply notAfter_total; assumption.
Qed.

Lemma sortRows_sorted l :
  Forall (sortable st) l ->
  StronglySorted (notAfter st) (sortRows (compareRows st) l).
Proof.
  induction l as [| x l IH]; simpl; intros Hl; [constructor |].
  apply Forall_cons_1 in Hl as [Hx Hl].
  apply insertRow_sorted; [exact Hx | | apply IH; exact Hl].
  rewrite (sortRows_perm (compareRows st) l). exact Hl.
Qed.

(** Sorting a sorted list leaves it as it is. *)
Lemma sortRows_sorted_id l :
  StronglySorted (notAfter st) l -> sortRows (compareRows st) l = l.
Proof.
  induction 1 as [| x l Hs IH Hx]; simpl; [reflexivity |].
  rewrite IH. destruct l as [| y l]; [reflexivity |]. simpl.
  apply Forall_cons_1 in Hx as [Hxy _]. unfold notAfter in Hxy.
  destruct (order (compareRows st x y)); congruence.
Qed.

Lemma rowsOf_app l1 l2 : rowsOf (l1 ++ l2) = rowsOf l1 ++ rowsOf l2.
Proof.
  induction l1 as [| [row |] l1 IH]; simpl; [reflexivity | f_equal |]; exact IH.
Qed.

Lemma rowsOf_removeRows l : rowsOf (removeRows l) = [].
Proof. induction l as [| [row |] l IH]; simpl; assumption || reflexivity. Qed.

Lemma rowsOf_Tr (l : list RowData) :
  rowsOf (map (fun d => Tr (element d)) l) = map element l.
Proof. induction l as [| d l IH]; simpl; [reflexivity | f_equal; exact IH]. Qed.

Lemma dividers_app l1 l2 : (dividers (l1 ++ l2) = dividers l1 + dividers l2)%nat.
Proof.
  induction l1 as [| [row |] l1 IH]; simpl; [reflexivity | exact IH |].
  rewrite IH. reflexivity.
Qed.

Lemma dividers_removeRows l : dividers (removeRows l) = dividers l.
Proof.
  induction l as [| [row |] l IH]; simpl; [reflexivity | exact IH |].
  rewrite IH. reflexivity.
Qed.

Lemma dividers_removeDivider l : dividers (removeDivider l) = Nat.pred (dividers l).
Proof. induction l as [| [row |] l IH]; simpl; [reflexivity | exact IH | reflexivity]. Qed.

Lemma dividers_Tr (l : list RowData) :
  dividers (map (fun d => Tr (element d)) l) = 0%nat.
Proof. induction l as [| d l IH]; simpl; [reflexivity | exact IH]. Qed.

Lemma element_getRowData (rows : list Dataset) :
  map element (map getRowData rows) = rows.
Proof. induction rows as [| r rows IH]; simpl; [reflexivity | f_equal; exact IH]. Qed.

(** The rows of the table body after [applySort]. *)
Lemma applySort_rows elements children :
  tbody elements = Some children ->
  tbody (applySort st elements)
  = Some (removeRows (removeDivider children)
          ++ map (fun d => Tr (element d))
               (sortRows (compareRows st) (map getRowData (rowsOf children)))).
Proof. intros H. unfold applySort. rewrite H. reflexivity. Qed.

(** The rows of the body after [applySort] are those before, sorted. *)
Lemma applySort_sorted_rows elements children :
  tbody elements = Some children ->
  exists sorted : list Dataset,
    tbody (applySort st elements)
    = Some (removeRows (removeDivider children) ++ map Tr sorted) /\
    sorted ≡ₚ rowsOf children /\
    (Forall (fun row => sortable st (getRowData row)) (rowsOf children) ->
     StronglySorted (notAfter st) (map getRowData sorted)).
Proof.
  intros H.
  exists (map element (sortRows (compareRows st) (map getRowData (rowsOf children)))).
  split; [| split].
  - rewrite (applySort_rows elements children H), map_map. reflexivity.
  - rewrite (sortRows_perm (compareRows st)). rewrite element_getRowData.
    reflexivity.
  - intros Hrows.
    assert (Forall (sortable st) (map getRowData (rowsOf children))) as Hdata
        by (apply Forall_map; exact Hrows).
    pose proof (sortRows_sorted _ Hdata) as Hsorted.
    assert (Forall (fun d => getRowData (element d) = d)
              (sortRows (compareRows st) (map getRowData (rowsOf children)))) as Hid.
    { rewrite (sortRows_perm (compareRows st)). apply Forall_map.
      apply Forall_forall. intros r _. reflexivity. }
    rewrite map_map.
    rewrite (map_ext_Forall _ _ Hid), map_id. exact Hsorted.
Qed.

(** X5. [applySort] loses and duplicates no row: without a table body it
    changes nothing; otherwise the rows of the body afterwards are a
    permutation of the rows before, they follow every child that is not a
    row, and exactly the first divider, when there is one, is removed. *)
Theorem applySort_keeps_rows (elements : Elements) :
  (tbody elements = None -> applySort st elements = elements) /\
  (forall children,
      tbody elements = Some children ->
      exists (others : list Child) (sorted : list Dataset),
        tbody (applySort st elements) = Some (others ++ map Tr sorted) /\
        rowsOf others = [] /\
        sorted ≡ₚ rowsOf children /\
        dividers others = Nat.pred (dividers children)).
Proof.
  split.
  - intros H. unfold applySort. rewrite H. reflexivity.
  - intros children H.
    destruct (applySort_sorted_rows elements children H) as (sorted & Ht & Hperm & _).
    exists (removeRows (removeDivider children)), sorted.
    split; [exact Ht |]. split; [apply rowsOf_removeRows |].
    split; [exact Hperm |].
    rewrite dividers_removeRows. apply dividers_removeDivider.
Qed.

(** X6. When the comparator can rank every row of the table body, the rows
    are sorted after [applySort]: no row is followed, at any distance, by a
    row that the comparator puts before it. *)
Theorem applySort_sorts (elements : Elements) (children : list Child) :
  tbody elements = Some children ->
  Forall (fun row => sortable st (getRowData row)) (rowsOf children) ->
  exists (others : list Child) (sorted : list Dataset),
    tbody (applySort st elements) = Some (others ++ map Tr sorted) /\
    rowsOf others = [] /\
    StronglySorted (notAfter st) (map getRowData sorted).
Proof.
  intros H Hrows.
  destruct (applySort_sorted_rows elements children H) as (sorted & Ht & _ & Hsorted).
  exists (removeRows (removeDivider children)), sorted.
  split; [exact Ht |]. split; [apply rowsOf_removeRows |].
  apply Hsorted. exact Hrows.
Qed.

End SortedTable.

Section SortedTableMore.

Local Open Scope R_scope.

Variable st : State.

Lemma removeDivider_none l : dividers l = 0%nat -> removeDivider l = l.
Proof.
  induction l as [| [row |] l IH]; simpl; intros H; [reflexivity | | discriminate].
  rewrite IH by exact H. reflexivity.
Qed.

Lemma removeRows_app l1 l2 : removeRows (l1 ++ l2) = removeRows l1 ++ removeRows l2.
Proof.
  induction l1 as [| [row |] l1 IH]; simpl; [reflexivity | exact IH |].
  rewrite IH. reflexivity.
Qed.

Lemma removeRows_removeRows l : removeRows (removeRows l) = removeRows l.
Proof.
  induction l as [| [row |] l IH]; simpl; [reflexivity | exact IH |].
  rewrite IH. reflexivity.
Qed.

Lemma removeRows_Tr (l : list RowData) :
  removeRows (map (fun d => Tr (element d)) l) = [].
Proof. induction l as [| d l IH]; simpl; [reflexivity | exact IH]. Qed.

Lemma filter_not_marker_app l d :
  List.filter (fun c => negb (isMarker c)) (l ++ [directionName d])
  = List.filter (fun c => negb (isMarker c)) l.
Proof.
  rewrite List.filter_app. simpl.
  assert (isMarker (directionName d) = true) as -> by (destruct d; reflexivity).
  simpl. apply app_nil_r.
Qed.

Lemma filter_filter_same {A} (f : A -> bool) l :
  List.filter f (List.filter f l) = List.filter f l.
Proof.
  induction l as [| x l IH]; simpl; [reflexivity |].
  destruct (f x) eqn:Hx; simpl; [rewrite Hx, IH |]; auto.
Qed.

Lemma markHeader_idempotent th : markHeader st (markHeader st th) = markHeader st th.
Proof.
  unfold markHeader. simpl.
  destruct (isColumn (mode st) && keyIs (columnKey st) (th_key th)); simpl.
  - rewrite filter_not_marker_app, filter_filter_same. reflexivity.
  - rewrite filter_filter_same. reflexivity.
Qed.

(** X7. Sorting again changes nothing: when the table body holds at most
    one divider and the comparator can rank its rows, a second [applySort]
    in the same state leaves the table, rows and headers, as the first left
    it. A body with two or more dividers loses one more divider at every
    [applySort]. *)
Theorem applySort_idempotent (elements : Elements) (children : list Child) :
  tbody elements = Some children ->
  ((dividers children <= 1)%nat ->
   Forall (fun row => sortable st (getRowData row)) (rowsOf children) ->
   applySort st (applySort st elements) = applySort st elements) /\
  ((2 <= dividers children)%nat ->
   applySort st (applySort st elements) <> applySort st elements).
Proof.
  intros H.
  set (others := removeRows (removeDivider children)).
  set (sorted := sortRows (compareRows st) (map getRowData (rowsOf children))).
  assert (tbody (applySort st elements)
          = Some (others ++ map (fun d => Tr (element d)) sorted)) as H1
      by (apply applySort_rows; exact H).
  assert (dividers (others ++ map (fun d => Tr (element d)) sorted)
          = Nat.pred (dividers children)) as Hdiv.
  { rewrite dividers_app, dividers_Tr. unfold others.
    rewrite dividers_removeRows, dividers_removeDivider. lia. }
  split.
  - intros Hone Hrows.
    assert (Forall (sortable st) (map getRowData (rowsOf children))) as Hdata
        by (apply Forall_map; exact Hrows).
    assert (Forall (fun d => getRowData (element d) = d) sorted) as Hid.
    { unfold sorted. rewrite (sortRows_perm (compareRows st)). apply Forall_map.
      apply Forall_forall. intros r _. reflexivity. }
    assert (map getRowData (map element sorted) = sorted) as Hback
        by (rewrite map_map, (map_ext_Forall _ _ Hid); apply map_id).
    assert (rowsOf (others ++ map (fun d => Tr (element d)) sorted)
            = map element sorted) as Hrows1.
    { rewrite rowsOf_app, rowsOf_Tr. unfold others. rewrite rowsOf_removeRows.
      reflexivity. }
    assert (removeRows (removeDivider (others ++ map (fun d => Tr (element d)) sorted))
            = others) as Hothers1.
    { rewrite removeDivider_none by (rewrite Hdiv; lia).
      rewrite removeRows_app, removeRows_Tr, app_nil_r. unfold others.
      apply removeRows_removeRows. }
    assert (sortRows (compareRows st) sorted = sorted) as Hsame
        by (apply sortRows_sorted_id; apply sortRows_sorted; exact Hdata).
    unfold applySort at 1. rewrite H1, Hrows1, Hothers1, Hback, Hsame.
    unfold applySort. rewrite H. fold sorted. fold others. simpl. f_equal.
    destruct (table elements) as [headers |]; simpl; [| reflexivity].
    f_equal. rewrite map_map. apply map_ext. intros th.
    apply markHeader_idempotent.
  - intros Htwo Heq.
    assert (forall e c, tbody e = Some c ->
              exists c', tbody (applySort st e) = Some c' /\
                         dividers c' = Nat.pred (dividers c)) as Hstep.
    { intros e c Hc. eexists. split; [apply applySort_rows; exact Hc |].
      rewrite dividers_app, dividers_Tr, dividers_removeRows,
        dividers_removeDivider. lia. }
    destruct (Hstep elements children H) as (c1 & Hc1 & Hd1).
    destruct (Hstep (applySort st elements) c1 Hc1) as (c2 & Hc2 & Hd2).
    rewrite Heq, Hc1 in Hc2. injection Hc2 as <-. lia.
Qed.

End SortedTableMore.

Section SortedTableSamples.

Local Open Scope R_scope.

(** Reads the data attributes of a sample row. *)
Ltac read_attributes :=
  repeat match goal with
    | |- context [?m !! ?k] =>
        match type of m with
        | gmap string string =>
            let v := eval vm_compute in (m !! k) in change (m !! k) with v
        end
    end.

Lemma counts_liveDataset : counts (getRowData liveDataset).
Proof.
  split; unfold getRowData; simpl; read_attributes.
  - exists 1000%Z. split; [lia | reflexivity].
  - exists 5%Z. split; [lia | reflexivity].
  - exists 3%Z. split; [lia | reflexivity].
  - exists 120%Z. split; [lia | reflexivity].
  - exists 100%Z. split; [lia | reflexivity].
  - exists 50%Z. split; [lia | reflexivity].
  - exists 2%Z. split; [lia | reflexivity].
Defined.

Lemma counts_downDataset : counts (getRowData downDataset).
Proof.
  split; unfold getRowData; simpl; read_attributes.
  - exists 900%Z. split; [lia | reflexivity].
  - exists 0%Z. split; [lia | reflexivity].
  - exists 0%Z. split; [lia | reflexivity].
  - exists 250%Z. split; [lia | reflexivity].
  - exists 0%Z. split; [lia | reflexivity].
  - exists 0%Z. split; [lia | reflexivity].
  - exists 0%Z. split; [lia | reflexivity].
Defined.

Lemma fields_within_liveDataset : fields_within 1000 (getRowData liveDataset).
Proof.
  unfold fields_within, getRowData; simpl; read_attributes.
  repeat (apply Forall_cons; split;
          [match goal with |- Num.Le (Str.parseInt ?s) _ =>
             let z := eval vm_compute in (Str.parseInt_Z s) in
             match z with Some ?v => change (Str.parseInt s) with (Num.of_Z v) end
           end; simpl; lra |]).
  apply Forall_nil. exact I.
Defined.

Lemma fields_within_downDataset : fields_within 1000 (getRowData downDataset).
Proof.
  unfold fields_within, getRowData; simpl; read_attributes.
  repeat (apply Forall_cons; split;
          [match goal with |- Num.Le (Str.parseInt ?s) _ =>
             let z := eval vm_compute in (Str.parseInt_Z s) in
             match z with Some ?v => change (Str.parseInt s) with (Num.of_Z v) end
           end; simpl; lra |]).
  apply Forall_nil. exact I.
Defined.

Lemma rankedElements_sortable :
  Forall (fun row => sortable initial (getRowData row)) [downDataset; liveDataset].
Proof.
  repeat constructor.
  - apply sortable_counts;
      [reflexivity | apply nonnegative_DEFAULTS | apply counts_downDataset].
  - apply sortable_counts;
      [reflexivity | apply nonnegative_DEFAULTS | apply counts_liveDataset].
Defined.

Lemma applySort_keeps_rows_witness :
  tbody sampleElements = Some [Tr unparsableRow; SectionDivider; Tr freshRow] /\
  exists (others : list Child) (sorted : list Dataset),
    tbody (applySort initial sampleElements) = Some (others ++ map Tr sorted) /\
    rowsOf others = [] /\
    sorted ≡ₚ [unparsableRow; freshRow] /\
    dividers others = 0%nat.
Proof.
  destruct (applySort_keeps_rows initial sampleElements) as [_ H].
  split; [reflexivity |]. exact (H _ eq_refl).
Defined.

Lemma applySort_sorts_witness :
  tbody rankedElements = Some [Tr downDataset; SectionDivider; Tr liveDataset] /\
  Forall (fun row => sortable initial (getRowData row)) [downDataset; liveDataset] /\
  exists (others : list Child) (sorted : list Dataset),
    tbody (applySort initial rankedElements) = Some (others ++ map Tr sorted) /\
    rowsOf others = [] /\
    StronglySorted (notAfter initial) (map getRowData sorted).
Proof.
  split; [reflexivity |]. split; [exact rankedElements_sortable |].
  exact (applySort_sorts initial rankedElements _ eq_refl rankedElements_sortable).
Defined.

Lemma applySort_idempotent_witness :
  tbody rankedElements = Some [Tr downDataset; SectionDivider; Tr liveDataset] /\
  (dividers [Tr downDataset; SectionDivider; Tr liveDataset] <= 1)%nat /\
  applySort initial (applySort initial rankedElements)
  = applySort initial rankedElements.
Proof.
  destruct (applySort_idempotent initial rankedElements _ eq_refl) as [Hsame _].
  split; [reflexivity |]. split; [simpl; lia |].
  apply Hsame; [simpl; lia | exact rankedElements_sortable].
Defined.

End SortedTableSamples.

Section LiveRowsFirst.

Local Open Scope R_scope.

Variable st : State.

Lemma StronglySorted_lookup {A B} (R : B -> B -> Prop) (f : A -> B) (l : list A) :
  StronglySorted R (map f l) ->
  forall (i j : nat) (x y : A),
    (i < j)%nat -> l !! i = Some x -> l !! j = Some y -> R (f x) (f y).
Proof.
  induction l as [| z l IH]; simpl; intros Hs i j x y Hij Hi Hj.
  - discriminate.
  - apply StronglySorted_inv in Hs as [Hs Hz].
    destruct j as [| j]; [lia |]. simpl in Hj. destruct i as [| i]; simpl in Hi.
    + injection Hi as <-. rewrite Forall_forall in Hz. apply Hz.
      apply list_elem_of_In. apply in_map. apply list_elem_of_In.
      eapply list_elem_of_lookup_2. exact Hj.
    + apply (IH Hs i j); [lia | assumption | assumption].
Qed.

(** With the status criterion on and the bound on weights and fields, the
    comparator puts a row that is up before a row that is down. *)
Lemma down_after_up w a b W F :
  w_status w = true -> nonnegative w -> weights_within W w ->
  counts a -> fields_within F a -> counts b -> fields_within F b ->
  6 * W * F < 1000000000 ->
  Num.to_boolean (isUp a) = true -> Num.to_boolean (isUp b) = false ->
  Num.Lt (calculateScore w b) (calculateScore w a).
Proof.
  intros Hs Hw HW Ha HFa Hb HFb Hbound Hup Hdown.
  destruct (calculateScore_within w a W F Hw Ha HW HFa) as (ra & Era & Hra & _).
  destruct (calculateScore_within w b W F Hw Hb HW HFb) as (rb & Erb & _ & Hrb).
  rewrite statusTerm_cases, Hs, Hup in Hra. rewrite statusTerm_cases, Hs, Hdown in Hrb.
  simpl in Hra, Hrb. rewrite Era, Erb. simpl. lra.
Qed.

(** X8. In the weighted mode with the status criterion on, weights that are
    not negative and at most [W], and rows of counts whose fields are at
    most [F], where [6 * W * F < 1e9]: after [applySort] no row of a mint
    that is down comes before a row of a mint that is up. *)
Theorem applySort_puts_live_rows_first
    (elements : Elements) (children : list Child) (W F : R) :
  tbody elements = Some children ->
  mode st = Weighted -> w_status (weights st) = true ->
  nonnegative (weights st) -> weights_within W (weights st) ->
  Forall (fun row => counts (getRowData row) /\ fields_within F (getRowData row))
    (rowsOf children) ->
  6 * W * F < 1000000000 ->
  exists (others : list Child) (sorted : list Dataset),
    tbody (applySort st elements) = Some (others ++ map Tr sorted) /\
    rowsOf others = [] /\
    forall (i j : nat) (down up : Dataset),
      (i < j)%nat -> sorted !! i = Some down -> sorted !! j = Some up ->
      Num.to_boolean (isUp (getRowData down)) = false ->
      Num.to_boolean (isUp (getRowData up)) = true ->
      False.
Proof.
  intros H Hm Hs Hw HW Hrows Hbound.
  assert (Forall (fun row => sortable st (getRowData row)) (rowsOf children))
    as Hsortable.
  { eapply Forall_impl; [exact Hrows |]. intros row [Hc _].
    apply sortable_counts; assumption. }
  destruct (applySort_sorted_rows st elements children H)
    as (sorted & Ht & Hperm' & Hsorted).
  specialize (Hsorted Hsortable).
  exists (removeRows (removeDivider children)), sorted.
  split; [exact Ht |]. split; [apply rowsOf_removeRows |].
  intros i j down up Hij Hi Hj Hdown Hup.
  assert (Forall (fun row => counts (getRowData row) /\ fields_within F (getRowData row))
            sorted) as Hall by (rewrite Hperm'; exact Hrows).
  rewrite Forall_forall in Hall.
  destruct (Hall down) as [Hcd Hfd];
    [eapply list_elem_of_lookup_2; exact Hi |].
  destruct (Hall up) as [Hcu Hfu];
    [eapply list_elem_of_lookup_2; exact Hj |].
  pose proof (StronglySorted_lookup (notAfter st) getRowData sorted Hsorted
                i j down up Hij Hi Hj) as Hle.
  pose proof (down_after_up (weights st) (getRowData up) (getRowData down) W F
                Hs Hw HW Hcu Hfu Hcd Hfd Hbound Hup Hdown) as Hlt.
  pose proof (weighted_puts_first st (getRowData up) (getRowData down) Hm Hlt)
    as Hfirst.
  unfold notAfter in Hle.
  rewrite (compareRows_anti st (getRowData up) (getRowData down)) in Hle.
  - rewrite Hfirst in Hle. apply Hle. reflexivity.
  - apply sortable_counts; assumption.
  - apply sortable_counts; assumption.
Qed.

Lemma elem_of_filter_not_marker c l :
  In c (List.filter (fun c => negb (isMarker c)) l) <-> In c l /\ isMarker c = false.
Proof. rewrite filter_In, negb_true_iff. reflexivity. Qed.

(** X9. After [applySort] on a page with a table body, a header carries the
    class [asc] or [desc] exactly when the table is sorted by a column and
    the data key of the header is strictly equal to the column key: the
    same string, or undefined on both sides, as after a click on a header
    without a data key, which marks every header without one. It then
    carries the class of the current direction only; its data key and its
    other classes are kept. In the weighted mode, so after a reset, no
    header carries either class. *)
Theorem applySort_marks_current_header
    (elements : Elements) (children : list Child) (headers : list Th) :
  tbody elements = Some children -> table elements = Some headers ->
  table (applySort st elements) = Some (map (markHeader st) headers) /\
  forall (th : Th) (c : string),
    In th headers ->
    th_key (markHeader st th) = th_key th /\
    (isMarker c = false ->
     (In c (classList (markHeader st th)) <-> In c (classList th))) /\
    (isMarker c = true ->
     (In c (classList (markHeader st th)) <->
      mode st = Column /\ columnKey st = Some (th_key th) /\
      c = directionName (direction st))).
Proof.
  intros Hb Ht. split; [unfold applySort; rewrite Hb, Ht; reflexivity |].
  intros th c _. split; [reflexivity |].
  unfold markHeader. simpl.
  assert (isColumn (mode st) && keyIs (columnKey st) (th_key th) = true
          <-> mode st = Column /\ columnKey st = Some (th_key th))
    as Hcurrent.
  { rewrite andb_true_iff, keyIs_spec.
    destruct (mode st); simpl; split; intros [H1 H2]; split;
      try congruence; reflexivity. }
  destruct (isColumn (mode st) && keyIs (columnKey st) (th_key th)) eqn:Hcur; split.
  - intros Hc. rewrite in_app_iff, elem_of_filter_not_marker. simpl. split.
    + intros [[Hin _] | [<- | []]]; [exact Hin |].
      destruct (direction st); discriminate.
    + intros Hin. left. auto.
  - intros Hc. rewrite in_app_iff, elem_of_filter_not_marker. simpl. split.
    + intros [[_ Hn] | [<- | []]]; [congruence |].
      destruct Hcurrent as [Hcurrent _]. destruct (Hcurrent eq_refl) as (? & ?).
      auto.
    + intros (_ & _ & ->). right. left. reflexivity.
  - intros Hc. rewrite elem_of_filter_not_marker. split; [tauto | auto].
  - intros Hc. rewrite elem_of_filter_not_marker. split.
    + intros [_ Hn]. congruence.
    + intros (Hm & Hkey & _). destruct Hcurrent as [_ Hcurrent].
      discriminate (Hcurrent (conj Hm Hkey)).
Qed.

End LiveRowsFirst.

Section LiveRowsFirstSamples.

Local Open Scope R_scope.

Lemma applySort_puts_live_rows_first_witness :
  tbody rankedElements = Some [Tr downDataset; SectionDivider; Tr liveDataset] /\
  mode initial = Weighted /\ w_status (weights initial) = true /\
  nonnegative (weights initial) /\ weights_within 5000 (weights initial) /\
  Forall (fun row => counts (getRowData row) /\ fields_within 1000 (getRowData row))
    [downDataset; liveDataset] /\
  6 * 5000 * 1000 < 1000000000 /\
  exists (others : list Child) (sorted : list Dataset),
    tbody (applySort initial rankedElements) = Some (others ++ map Tr sorted) /\
    rowsOf others = [] /\
    forall (i j : nat) (down up : Dataset),
      (i < j)%nat -> sorted !! i = Some down -> sorted !! j = Some up ->
      Num.to_boolean (isUp (getRowData down)) = false ->
      Num.to_boolean (isUp (getRowData up)) = true ->
      False.
Proof.
  assert (weights_within 5000 (weights initial)) as HW.
  { unfold weights_within. simpl.
    repeat (apply Forall_cons; split; [simpl; lra |]). apply Forall_nil. exact I. }
  assert (Forall (fun row => counts (getRowData row)
                             /\ fields_within 1000 (getRowData row))
            [downDataset; liveDataset]) as Hrows.
  { apply Forall_cons. split;
      [split; [apply counts_downDataset | apply fields_within_downDataset] |].
    apply Forall_cons. split;
      [split; [apply counts_liveDataset | apply fields_within_liveDataset] |].
    apply Forall_nil. exact I. }
  assert (6 * 5000 * 1000 < 1000000000) as Hbound by lra.
  split; [reflexivity |]. split; [reflexivity |]. split; [reflexivity |].
  split; [apply nonnegative_DEFAULTS |]. split; [exact HW |].
  split; [exact Hrows |]. split; [exact Hbound |].
  exact (applySort_puts_live_rows_first initial rankedElements _ 5000 1000
           eq_refl eq_refl eq_refl nonnegative_DEFAULTS HW Hrows Hbound).
Defined.

Lemma applySort_marks_current_header_witness :
  tbody rankedElements = Some [Tr downDataset; SectionDivider; Tr liveDataset] /\
  table rankedElements
  = Some [ {| th_key := Key "capacity"; classList := ["sortable"; "desc"]%string |};
           {| th_key := Key "latency"; classList := ["sortable"]%string |} ] /\
  table (applySort byCapacity rankedElements)
  = Some (map (markHeader byCapacity)
            [ {| th_key := Key "capacity";
                 classList := ["sortable"; "desc"]%string |};
              {| th_key := Key "latency"; classList := ["sortable"]%string |} ]).
Proof.
  destruct (applySort_marks_current_header byCapacity rankedElements _ _
              eq_refl eq_refl) as [Htable _].
  split; [reflexivity |]. split; [reflexivity |]. exact Htable.
Defined.

(** A click on a header without a data key: the column key is undefined,
    [applySort] marks the headers without a data key and no other, and
    the rows, which have no property of that name, are ordered by name. *)
Example keyless_header_click :
  mode (handleHeaderClick Undefined initial) = Column /\
  columnKey (handleHeaderClick Undefined initial) = Some Undefined /\
  direction (handleHeaderClick Undefined initial) = Desc /\
  map (markHeader (handleHeaderClick Undefined initial))
    [ {| th_key := Undefined; classList := ["sortable"]%string |};
      {| th_key := Key "latency"; classList := ["sortable"; "asc"]%string |} ]
  = [ {| th_key := Undefined; classList := ["sortable"; "desc"]%string |};
      {| th_key := Key "latency"; classList := ["sortable"]%string |} ] /\
  forall a b : RowData, primary (handleHeaderClick Undefined initial) a b = zero.
Proof. repeat split. Qed.

End LiveRowsFirstSamples.

(** ** Numbers written to the page and read back *)

Section NumberStrings.

Local Open Scope Z_scope.

Example ofZ_examples :
  map Str.ofZ [0; 7; 10; 99999; 120; -42] = ["0"; "7"; "10"; "99999"; "120"; "-42"]%string.
Proof. vm_compute. reflexivity. Qed.

Lemma digit_cases d :
  0 <= d < 10 ->
  d = 0 \/ d = 1 \/ d = 2 \/ d = 3 \/ d = 4 \/ d = 5 \/ d = 6 \/ d = 7 \/ d = 8 \/ d = 9.
Proof. lia. Qed.

Lemma digit_digit_char d : 0 <= d < 10 -> Str.digit (Str.digit_char d) = Some d.
Proof.
  intros H. destruct (digit_cases d H) as [-> | [-> | [-> | [-> | [-> | [-> | [-> | [-> | [-> | ->]]]]]]]]];
    reflexivity.
Qed.

Lemma digit_char_plain d :
  0 <= d < 10 ->
  Str.is_white_space (Str.digit_char d) = false /\
  Str.digit_char d <> "-"%char /\ Str.digit_char d <> "+"%char.
Proof.
  intros H. destruct (digit_cases d H) as [-> | [-> | [-> | [-> | [-> | [-> | [-> | [-> | [-> | ->]]]]]]]]];
    (split; [reflexivity | split; discriminate]).
Qed.

(** Reading the digits written for [n] continues the number read so far. *)
Lemma read_digits_of fuel :
  forall n acc,
    (1 <= fuel)%nat -> 0 <= n < 10 ^ Z.of_nat fuel ->
    exists k : nat,
      (1 <= k)%nat /\
      forall a c,
        Str.read_digits (Str.digits_of fuel n acc) a c
        = Str.read_digits acc (a * 10 ^ Z.of_nat k + n) (c + k)%nat.
Proof.
  induction fuel as [| fuel IH]; intros n acc Hfuel Hn; [lia |].
  simpl Str.digits_of.
  assert (0 <= n mod 10 < 10) as Hmod by (apply Z.mod_pos_bound; lia).
  destruct (n <? 10) eqn:Hsmall.
  - apply Z.ltb_lt in Hsmall. exists 1%nat. split; [lia |]. intros a c.
    simpl Str.read_digits. rewrite (digit_digit_char _ Hmod).
    rewrite Z.mod_small by lia.
    replace (a * 10 ^ Z.of_nat 1 + n) with (10 * a + n) by (simpl; lia).
    replace (c + 1)%nat with (S c) by lia. reflexivity.
  - apply Z.ltb_ge in Hsmall.
    assert (1 <= fuel)%nat as Hfuel'.
    { destruct fuel; [| lia]. simpl in Hn. lia. }
    assert (0 <= n / 10 < 10 ^ Z.of_nat fuel) as Hdiv.
    { split; [apply Z.div_pos; lia |].
      apply Z.div_lt_upper_bound; [lia |].
      rewrite Nat2Z.inj_succ, Z.pow_succ_r in Hn by lia. lia. }
    destruct (IH (n / 10) (String (Str.digit_char (n mod 10)) acc) Hfuel' Hdiv)
      as (k & Hk & Hread).
    exists (S k). split; [lia |]. intros a c. rewrite Hread.
    simpl Str.read_digits. rewrite (digit_digit_char _ Hmod).
    rewrite Nat2Z.inj_succ, Z.pow_succ_r by lia.
    replace (10 * (a * 10 ^ Z.of_nat k + n / 10) + n mod 10)
      with (a * (10 * 10 ^ Z.of_nat k) + n)
      by (pose proof (Z.div_mod n 10 ltac:(lia)); lia).
    replace (S (c + k)) with (c + S k)%nat by lia. reflexivity.
Qed.

Lemma digits_of_head fuel n acc :
  exists d rest, 0 <= d < 10 /\
    Str.digits_of (S fuel) n acc = String (Str.digit_char d) rest.
Proof.
  revert n acc. induction fuel as [| fuel IH]; intros n acc.
  - simpl. exists (n mod 10), acc. split; [apply Z.mod_pos_bound; lia |].
    destruct (n <? 10); reflexivity.
  - change (Str.digits_of (S (S fuel)) n acc)
      with (if n <? 10 then String (Str.digit_char (n mod 10)) acc
            else Str.digits_of (S fuel) (n / 10) (String (Str.digit_char (n mod 10)) acc)).
    destruct (n <? 10).
    + exists (n mod 10), acc. split; [apply Z.mod_pos_bound; lia | reflexivity].
    + apply IH.
Qed.

Lemma enough_fuel n : 0 <= n -> n < 10 ^ Z.of_nat (S (Z.to_nat (Z.log2 n))).
Proof.
  intros Hn. rewrite Nat2Z.inj_succ, Z2Nat.id by apply Z.log2_nonneg.
  destruct (Z.eq_dec n 0) as [-> | Hne]; [reflexivity |].
  destruct (Z.log2_spec n ltac:(lia)) as [_ Hlt].
  apply Z.lt_le_trans with (2 ^ Z.succ (Z.log2 n)); [exact Hlt |].
  apply Z.pow_le_mono_l. pose proof (Z.log2_nonneg n). lia.
Qed.

Lemma parseInt_Z_signed s negative digits k n :
  Str.read_sign (Str.trim_start s) = (negative, digits) ->
  Str.read_digits digits 0 0%nat = (n, S k, EmptyString) ->
  Str.parseInt_Z s = Some (if negative then - n else n).
Proof. intros Hsign Hread. unfold Str.parseInt_Z. rewrite Hsign, Hread. reflexivity. Qed.

(** An integer written by [String] and read by [parseInt] is the integer. *)
Lemma parseInt_ofZ z : Str.parseInt_Z (Str.ofZ z) = Some z.
Proof.
  unfold Str.ofZ.
  set (fuel := Z.to_nat (Z.log2 (Z.abs z))).
  destruct (read_digits_of (S fuel) (Z.abs z) EmptyString ltac:(lia)
              (conj (Z.abs_nonneg z) (enough_fuel _ (Z.abs_nonneg z))))
    as (k & Hk & Hread).
  specialize (Hread 0 0%nat). destruct k as [| k]; [lia |].
  change (Str.read_digits EmptyString (0 * 10 ^ Z.of_nat (S k) + Z.abs z) (0 + S k))
    with (0 * 10 ^ Z.of_nat (S k) + Z.abs z, S k, EmptyString) in Hread.
  destruct (digits_of_head fuel (Z.abs z) EmptyString) as (d & rest & Hd & Hhead).
  destruct (digit_char_plain d Hd) as (Hws & Hminus & Hplus).
  destruct (z <? 0) eqn:Hneg.
  - apply Z.ltb_lt in Hneg.
    rewrite (parseInt_Z_signed
               (String "-"%char (Str.digits_of (S fuel) (Z.abs z) EmptyString))
               true (Str.digits_of (S fuel) (Z.abs z) EmptyString) _ _ eq_refl Hread).
    f_equal. lia.
  - apply Z.ltb_ge in Hneg.
    assert (Str.read_sign (Str.trim_start (Str.digits_of (S fuel) (Z.abs z) EmptyString))
            = (false, Str.digits_of (S fuel) (Z.abs z) EmptyString)) as Hsign.
    { rewrite Hhead. change (Str.trim_start (String (Str.digit_char d) rest))
        with (if Str.is_white_space (Str.digit_char d)
              then Str.trim_start rest else String (Str.digit_char d) rest).
      rewrite Hws. unfold Str.read_sign.
      destruct (Str.digit_char d) as [b0 b1 b2 b3 b4 b5 b6 b7] eqn:E.
      destruct b0, b1, b2, b3, b4, b5, b6, b7; try reflexivity; congruence. }
    rewrite (parseInt_Z_signed _ false _ _ _ Hsign Hread). f_equal. lia.
Qed.

Lemma parseInt_ofZ_number z : Str.parseInt (Str.ofZ z) = Num.of_Z z.
Proof. unfold Str.parseInt. rewrite parseInt_ofZ. reflexivity. Qed.

Lemma ofZ_not_empty z : Str.ofZ z <> EmptyString.
Proof.
  intros H. pose proof (parseInt_ofZ z) as Hp. rewrite H in Hp. discriminate Hp.
Qed.

End NumberStrings.

(** ** What the probes write to the page *)

Section Display.

Local Open Scope Z_scope.

Lemma or_else_ofZ z fallback : Str.or_else (Some (Str.ofZ z)) fallback = Str.ofZ z.
Proof.
  pose proof (ofZ_not_empty z) as H. unfold Str.or_else.
  destruct (Str.ofZ z); [contradiction | reflexivity].
Qed.

Lemma latencyPenalty_of_Z w d z :
  latency d = Num.of_Z z ->
  latencyPenalty w d = Num.mul (Fin (penalty_of z)) (w_latency w).
Proof.
  intros Hl. unfold latencyPenalty, penalty_of. rewrite Hl.
  unfold Num.of_Z, Num.ge, Num.lt.
  destruct (Z_lt_dec z 99999) as [Hlt | Hge].
  - rewrite Rltb_true by (apply IZR_lt; exact Hlt). reflexivity.
  - rewrite Rltb_false by (apply IZR_le; lia). reflexivity.
Qed.

(** X10. The latency [updateLatencyDisplay] writes to the row is the
    latency [getRowData] reads from it: the measured milliseconds, or the
    sentinel 99999 for a failed probe, and no other data attribute
    changes. So a failed probe costs the row the fixed penalty of 1000
    times the latency weight, and a measured one below the sentinel its
    milliseconds times the weight. *)
Theorem displayed_latency_is_read_back (cell : Cell) (l : option Z) (row : Dataset) :
  exists row',
    snd (updateLatencyDisplay cell l (Some row)) = Some row' /\
    latency (getRowData row') = Num.of_Z (dataset_latency l) /\
    (forall key : string, key <> "latency"%string -> row' !! key = row !! key) /\
    forall w,
      match l with
      | None => latencyPenalty w (getRowData row') = Num.mul (Fin 1000) (w_latency w)
      | Some z =>
          z < 99999 ->
          latencyPenalty w (getRowData row') = Num.mul (Num.of_Z z) (w_latency w)
      end.
Proof.
  exists (<["latency"%string := Str.ofZ (dataset_latency l)]> row).
  assert (latency (getRowData (<["latency"%string := Str.ofZ (dataset_latency l)]> row))
          = Num.of_Z (dataset_latency l)) as Hread.
  { unfold getRowData. cbn [latency]. rewrite lookup_insert_eq, or_else_ofZ.
    apply parseInt_ofZ_number. }
  split; [reflexivity |]. split; [exact Hread |]. split.
  - intros key Hkey. apply lookup_insert_ne. congruence.
  - intros w. rewrite (latencyPenalty_of_Z w _ _ Hread). unfold penalty_of.
    destruct l as [z |]; simpl dataset_latency.
    + intros Hz. destruct (Z_lt_dec z 99999); [reflexivity | lia].
    + destruct (Z_lt_dec 99999 99999); [lia | reflexivity].
Qed.

Lemma length_flat_map_unitBadge units :
  length (List.filter isSpan (flat_map unitBadge units)) = length units.
Proof. induction units as [| u units IH]; simpl; [reflexivity | now rewrite IH]. Qed.

(** X11. The number of currencies [updateCurrenciesDisplay] writes to the
    row is the number [getRowData] reads from it, and it is the number of
    unit badges the cell then shows: one for each unit of the list, none
    both for a failed probe (null) and for an empty list, which the
    sorter therefore cannot tell apart. No other data attribute changes. *)
Theorem displayed_units_are_counted (cell : Cell) (units : option (list string))
    (row : Dataset) :
  exists row',
    snd (updateCurrenciesDisplay cell units (Some row)) = Some row' /\
    currencies (getRowData row')
    = Num.of_Z (Z.of_nat (length (default [] units))) /\
    length (List.filter isSpan
              (childNodes (fst (updateCurrenciesDisplay cell units (Some row)))))
    = length (default [] units) /\
    className (fst (updateCurrenciesDisplay cell units (Some row))) = className cell /\
    forall key : string, key <> "currencies"%string -> row' !! key = row !! key.
Proof.
  exists (<["currencies"%string := Str.ofZ (Z.of_nat (length (default [] units)))]> row).
  split; [destruct units as [[| u units] |]; reflexivity |].
  split.
  { unfold getRowData. cbn [currencies]. rewrite lookup_insert_eq, or_else_ofZ.
    apply parseInt_ofZ_number. }
  split.
  { destruct units as [[| u units] |]; try reflexivity.
    cbn [updateCurrenciesDisplay fst childNodes default].
    apply length_flat_map_unitBadge. }
  split; [destruct units as [[| u units] |]; reflexivity |].
  intros key Hkey. apply lookup_insert_ne. congruence.
Qed.

(** [getLatencyClass] is one of the four classes, and never [none] for a
    measured latency. *)
Lemma getLatencyClass_measured z :
  getLatencyClass (Some z) = "fast"%string \/ getLatencyClass (Some z) = "ok"%string \/
  getLatencyClass (Some z) = "slow"%string.
Proof.
  unfold getLatencyClass. destruct (z <=? 300); [auto |].
  destruct (z <=? 1000); auto.
Qed.

Lemma latencyBadge_is_badge z : isLatencyBadge (latencyBadge z) = true.
Proof.
  unfold latencyBadge.
  destruct (getLatencyClass_measured z) as [-> | [-> | ->]]; vm_compute; reflexivity.
Qed.

(** X12. The class of the latency badge follows the thresholds of 300
    and 1000 ms, both inclusive, and never gets better with a larger
    latency: what is slow stays slow above, what is fast stays fast
    below. Only the failed probe has the class [none]. *)
Theorem getLatencyClass_thresholds (l l' : Z) :
  (getLatencyClass (Some l) = "fast"%string <-> l <= 300) /\
  (getLatencyClass (Some l) = "ok"%string <-> 300 < l <= 1000) /\
  (getLatencyClass (Some l) = "slow"%string <-> 1000 < l) /\
  getLatencyClass (Some l) <> getLatencyClass None /\
  (l <= l' -> getLatencyClass (Some l') = "fast"%string ->
   getLatencyClass (Some l) = "fast"%string) /\
  (l <= l' -> getLatencyClass (Some l) = "slow"%string ->
   getLatencyClass (Some l') = "slow"%string).
Proof.
  unfold getLatencyClass.
  destruct (Z.leb_spec l 300), (Z.leb_spec l 1000), (Z.leb_spec l' 300),
    (Z.leb_spec l' 1000);
    repeat split; try discriminate; try lia; try reflexivity;
    intros; try discriminate; try lia; try reflexivity.
Qed.

End Display.

(** ** One pass over the table *)

Section Pass.

Local Open Scope Z_scope.

Lemma find_cell_spec p l :
  forall i k c,
    find_cell p i l = Some (k, c) ->
    exists n, k = (i + n)%nat /\ l !! n = Some c /\ p c = true.
Proof.
  induction l as [| x l IH]; intros i k c; simpl; [discriminate |].
  destruct (p x) eqn:Hp.
  - intros [= <- <-]. exists 0%nat. split; [lia |]. split; [reflexivity | exact Hp].
  - intros H. destruct (IH _ _ _ H) as (n & -> & Hn & Hc).
    exists (S n). split; [lia |]. split; [exact Hn | exact Hc].
Qed.

Lemma currenciesCell_spec row k c :
  currenciesCell row = Some (k, c) ->
  cells row !! k = Some c /\ hasClass "currencies" (className c) = true.
Proof.
  unfold currenciesCell. intros H.
  destruct (find_cell_spec _ _ _ _ _ H) as (n & -> & Hn & Hc). split; assumption.
Qed.

Lemma latencyCell_snoc d href front cell :
  latencyCell {| dataset := d; link := href; cells := front ++ [cell] |}
  = Some (length front, cell).
Proof.
  unfold latencyCell. cbn [cells]. rewrite last_snoc, length_app. simpl.
  f_equal. f_equal. lia.
Qed.

Lemma trim_end_snoc s c :
  Str.is_white_space c = false ->
  Str.trim_end (s ++ String c "") = (s ++ String c "")%string.
Proof.
  intros Hc. induction s as [| a s IH].
  - simpl. rewrite Hc. reflexivity.
  - change (Str.trim_end (String a s ++ String c ""))
      with (match Str.trim_end (s ++ String c "") with
            | EmptyString =>
                if Str.is_white_space a then EmptyString else String a EmptyString
            | kept => String a kept
            end).
    rewrite IH. destruct s; reflexivity.
Qed.

Lemma ofZ_head z :
  exists a rest, Str.ofZ z = String a rest /\ Str.is_white_space a = false.
Proof.
  unfold Str.ofZ.
  destruct (digits_of_head (Z.to_nat (Z.log2 (Z.abs z))) (Z.abs z) EmptyString)
    as (d & rest & Hd & Hhead).
  destruct (z <? 0).
  - eexists _, _. split; reflexivity.
  - exists (Str.digit_char d), rest. split; [exact Hhead |].
    apply (digit_char_plain d Hd).
Qed.

Lemma append_ms s : (s ++ " ms" = (s ++ " m") ++ String "s" "")%string.
Proof.
  induction s as [| a s IH]; [reflexivity |].
  change (String a (s ++ " ms") = String a ((s ++ " m") ++ String "s" ""))%string.
  f_equal. exact IH.
Qed.

(** The text of a latency badge is not taken for the dash of an empty
    cell. *)
Lemma badge_text_not_dash z :
  String.eqb (Str.trim (Str.ofZ z ++ " ms")) "-" = false.
Proof.
  destruct (ofZ_head z) as (a & rest & Hz & Ha).
  assert (Str.trim (Str.ofZ z ++ " ms") = (Str.ofZ z ++ " ms")%string) as ->.
  { unfold Str.trim.
    assert (Str.trim_start (Str.ofZ z ++ " ms") = (Str.ofZ z ++ " ms")%string) as ->.
    { rewrite Hz. simpl. rewrite Ha. reflexivity. }
    rewrite append_ms. apply trim_end_snoc. reflexivity. }
  rewrite Hz. apply String.eqb_neq. simpl. destruct rest; discriminate.
Qed.

Lemma measureRow_cells https now i row m href j cell :
  link row = Some href -> latencyCell row = Some (j, cell) ->
  exists shown : MintRow,
    shown =
      (if negb (existsb isLatencyBadge (childNodes cell))
          && String.eqb (Str.trim (textContent cell)) "-"
       then setInnerSpan j "badge latency none" "..." row else row) /\
    (fst (fst (measureRow https now i row m)) = shown \/
     exists k c,
       currenciesCell shown = Some (k, c) /\
       fst (fst (measureRow https now i row m))
       = if String.eqb (Str.trim (textContent c)) "-"
         then setInnerSpan k "badge unit" "..." shown else shown).
Proof.
  intros Hlink Hcell. eexists. split; [reflexivity |].
  unfold measureRow. rewrite Hlink, Hcell.
  destruct (measureLatency _ now (latencyState m)) as [r lat].
  match goal with |- context [currenciesCell ?x] =>
    destruct (currenciesCell x) as [[k c] |] eqn:Hcur end.
  - right. exists k, c. split; [reflexivity |].
    destruct (fetchSupportedUnits _ now (unitsState m)) as [u cur]. reflexivity.
  - left. reflexivity.
Qed.

(** X13. A pass leaves a measured latency on display while the mint is
    probed again, and replaces the dash of a failed probe by the
    placeholder: after [updateLatencyDisplay] has shown a latency in the
    last cell of a row, [measureAllVisibleMints] does not touch that cell;
    after it has shown the dash of a failure, the cell holds the badge of
    class [none] with three dots. *)
Theorem measured_latency_stays_on_display (https : bool) (now : Time) (i : nat)
    (m : Monitor) (front : list Cell) (cell : Cell) (l : option Z)
    (data : option Dataset) (d : Dataset) (href : string) :
  cells (fst (fst (measureRow https now i
                     {| dataset := d; link := Some href;
                        cells := front ++ [fst (updateLatencyDisplay cell l data)] |}
                     m)))
    !! length front
  = Some (match l with
          | Some _ => fst (updateLatencyDisplay cell l data)
          | None => {| className := "";
                       childNodes := [Span "badge latency none" "..."] |}
          end).
Proof.
  set (shown := fst (updateLatencyDisplay cell l data)).
  set (row := {| dataset := d; link := Some href; cells := front ++ [shown] |}).
  assert (cells row !! length front = Some shown) as Hlast
    by (subst row; cbn [cells]; apply list_lookup_middle; reflexivity).
  destruct (measureRow_cells https now i row m href (length front) shown eq_refl
              (latencyCell_snoc _ _ _ _)) as (row1 & Hrow1 & Hrow).
  destruct l as [z |].
  - assert (row1 = row) as ->.
    { rewrite Hrow1. subst shown. cbn [updateLatencyDisplay fst childNodes existsb].
      rewrite latencyBadge_is_badge. reflexivity. }
    destruct Hrow as [-> | (k & c & Hcur & ->)]; [exact Hlast |].
    destruct (currenciesCell_spec _ _ _ Hcur) as [Hk _].
    destruct (String.eqb (Str.trim (textContent c)) "-") eqn:Hdash; [| exact Hlast].
    unfold setInnerSpan. rewrite Hk. cbn [cells].
    destruct (decide (k = length front)) as [-> | Hne].
    + rewrite Hlast in Hk. injection Hk as <-.
      subst shown. cbn [updateLatencyDisplay fst] in Hdash.
      unfold textContent, latencyBadge in Hdash. cbn [childNodes map nodeText] in Hdash.
      change (String.concat "" [(Str.ofZ z ++ " ms")%string])
        with (Str.ofZ z ++ " ms")%string in Hdash.
      rewrite badge_text_not_dash in Hdash. discriminate.
    + rewrite list_lookup_insert_ne by exact Hne. exact Hlast.
  - assert (row1 = setInnerSpan (length front) "badge latency none" "..." row) as ->.
    { rewrite Hrow1. reflexivity. }
    assert (cells (setInnerSpan (length front) "badge latency none" "..." row)
              !! length front
            = Some {| className := "";
                      childNodes := [Span "badge latency none" "..."] |}) as Hshown.
    { unfold setInnerSpan. rewrite Hlast. cbn [cells].
      apply list_lookup_insert_eq. apply lookup_lt_Some in Hlast. exact Hlast. }
    destruct Hrow as [-> | (k & c & Hcur & ->)]; [exact Hshown |].
    destruct (currenciesCell_spec _ _ _ Hcur) as [Hk Hclass].
    destruct (String.eqb (Str.trim (textContent c)) "-"); [| exact Hshown].
    unfold setInnerSpan at 1. rewrite Hk. cbn [cells].
    destruct (decide (k = length front)) as [-> | Hne].
    + rewrite Hshown in Hk. injection Hk as <-. discriminate Hclass.
    + rewrite list_lookup_insert_ne by exact Hne. exact Hshown.
Qed.

End Pass.

(** ** The requests of one pass *)

Section PassRequests.

Local Open Scope Z_scope.

Lemma issues_nothing address s : issues address s s [].
Proof.
  split; [simpl; now rewrite app_nil_r |]. split.
  - intros u Hu. apply elem_of_nil in Hu. contradiction.
  - auto.
Qed.

Lemma issues_then address a b c news more :
  issues address a b news -> issues address b c more ->
  issues address a c (news ++ more).
Proof.
  intros (Hreq & Hnew & Hkeep) (Hreq' & Hnew' & Hkeep'). split.
  - rewrite Hreq', Hreq, map_app, app_assoc. reflexivity.
  - split.
    + intros u Hu. apply elem_of_app in Hu as [Hu | Hu].
      * destruct (Hnew u Hu) as [Hnone Hsome]. split; [exact Hnone | auto].
      * destruct (Hnew' u Hu) as [Hnone Hsome]. split; [| exact Hsome].
        destruct (fst (A:=gmap string nat) (B:=unit) (snd a, tt) !! u) eqn:E;
          [| exact E].
        simpl in E. assert (is_Some (snd b !! u)) as [q Hq] by (apply Hkeep; eauto).
        congruence.
    + auto.
Qed.

Lemma issues_NoDup address a b c news more :
  issues address a b news -> issues address b c more ->
  NoDup news -> NoDup more -> NoDup (news ++ more).
Proof.
  intros (_ & Hnew & _) (_ & Hnew' & _) Hnd Hnd'. apply NoDup_app.
  split; [exact Hnd |]. split; [| exact Hnd'].
  intros u Hu Hu'. destruct (Hnew u Hu) as [_ [q Hq]].
  destruct (Hnew' u Hu') as [Hnone _]. congruence.
Qed.

(** A call issues one request, for a URL that was not registered, or
    none. *)
Lemma measureLatency_issues mintUrl now st :
  exists news,
    issues info_url (infoRequests st, pendingRequests st)
      (infoRequests (snd (measureLatency mintUrl now st)),
       pendingRequests (snd (measureLatency mintUrl now st))) news /\
    (news = [] \/ news = [mintUrl]).
Proof.
  destruct (measureLatency_cases mintUrl now st)
    as [(c & _ & _ & ->) | [_ [(p & _ & ->) | [Hnone ->]]]].
  - exists []. split; [apply issues_nothing | auto].
  - exists []. split; [apply issues_nothing | auto].
  - exists [mintUrl]. split; [| auto]. split; [reflexivity |]. simpl. split.
    + intros u Hu. apply list_elem_of_singleton in Hu as ->.
      split; [exact Hnone |]. rewrite lookup_insert_eq. eauto.
    + intros u [q Hq]. destruct (decide (mintUrl = u)) as [<- | Hne].
      * rewrite lookup_insert_eq. eauto.
      * rewrite lookup_insert_ne by exact Hne. eauto.
Qed.

Lemma fetchSupportedUnits_issues mintUrl now st :
  exists news,
    issues keysets_url (keysetRequests st, pendingCurrencyRequests st)
      (keysetRequests (snd (fetchSupportedUnits mintUrl now st)),
       pendingCurrencyRequests (snd (fetchSupportedUnits mintUrl now st))) news /\
    (news = [] \/ news = [mintUrl]).
Proof.
  destruct (fetchSupportedUnits_cases mintUrl now st)
    as [(c & _ & _ & ->) | [_ [(p & _ & ->) | [Hnone ->]]]].
  - exists []. split; [apply issues_nothing | auto].
  - exists []. split; [apply issues_nothing | auto].
  - exists [mintUrl]. split; [| auto]. split; [reflexivity |]. simpl. split.
    + intros u Hu. apply list_elem_of_singleton in Hu as ->.
      split; [exact Hnone |]. rewrite lookup_insert_eq. eauto.
    + intros u [q Hq]. destruct (decide (mintUrl = u)) as [<- | Hne].
      * rewrite lookup_insert_eq. eauto.
      * rewrite lookup_insert_ne by exact Hne. eauto.
Qed.

Lemma find_cell_existsb p l :
  forall i, find_cell p i l = None <-> existsb p l = false.
Proof.
  induction l as [| x l IH]; intros i; simpl; [tauto |].
  destruct (p x); simpl; [split; discriminate | apply IH].
Qed.

Lemma existsb_className q l :
  existsb (fun cell => q (className cell)) l = existsb q (map className l).
Proof. induction l as [| x l IH]; simpl; [reflexivity | now rewrite IH]. Qed.

Lemma setInnerSpan_classes j spanClass text row :
  map className (cells (setInnerSpan j spanClass text row))
  = map className (cells row).
Proof.
  unfold setInnerSpan. destruct (cells row !! j) as [cell |] eqn:Hj; [| reflexivity].
  cbn [cells]. change (map className ?l) with (className <$> l).
  rewrite list_fmap_insert. apply list_insert_id.
  rewrite list_lookup_fmap, Hj. reflexivity.
Qed.

(** The placeholder does not change which cell is the currencies cell. *)
Lemma currenciesCell_setInnerSpan j spanClass text row :
  currenciesCell (setInnerSpan j spanClass text row) = None <->
  existsb (fun cell => hasClass "currencies" (className cell)) (cells row) = false.
Proof.
  unfold currenciesCell. rewrite find_cell_existsb.
  rewrite !(existsb_className (hasClass "currencies")), setInnerSpan_classes.
  reflexivity.
Qed.

Lemma currenciesCell_existsb row :
  currenciesCell row = None <->
  existsb (fun cell => hasClass "currencies" (className cell)) (cells row) = false.
Proof. unfold currenciesCell. apply find_cell_existsb. Qed.

(** The probes of one row: what [measureRow] does to the two monitors. *)
Lemma measureRow_monitor https now i row m :
  latencyState (snd (fst (measureRow https now i row m)))
  = match probed https row with
    | Some u => snd (measureLatency u now (latencyState m))
    | None => latencyState m
    end /\
  unitsState (snd (fst (measureRow https now i row m)))
  = match probedForUnits https row with
    | Some u => snd (fetchSupportedUnits u now (unitsState m))
    | None => unitsState m
    end.
Proof.
  unfold measureRow, probedForUnits, probed.
  destruct (link row) as [href |]; [| split; reflexivity].
  destruct (latencyCell row) as [[j cell] |]; [| split; reflexivity].
  destruct (measureLatency _ now (latencyState m)) as [r lat].
  set (shown := if _ : bool then setInnerSpan j _ _ row else row).
  assert (currenciesCell shown = None <->
          existsb (fun cell => hasClass "currencies" (className cell)) (cells row)
          = false) as Hcur.
  { subst shown. destruct (_ && _).
    - apply currenciesCell_setInnerSpan.
    - apply currenciesCell_existsb. }
  destruct (currenciesCell shown) as [[k c] |].
  - destruct (existsb _ (cells row)).
    + destruct (fetchSupportedUnits _ now (unitsState m)) as [u cur].
      split; reflexivity.
    + destruct Hcur as [_ Hcur]. discriminate (Hcur eq_refl).
  - rewrite (proj1 Hcur eq_refl). split; reflexivity.
Qed.

Lemma measureRow_issues https now i row m :
  exists infos keysets,
    issues info_url (infoProbes m)
      (infoProbes (snd (fst (measureRow https now i row m)))) infos /\
    issues keysets_url (keysetProbes m)
      (keysetProbes (snd (fst (measureRow https now i row m)))) keysets /\
    (infos = [] \/ exists u, infos = [u] /\ probed https row = Some u) /\
    (keysets = [] \/ exists u, keysets = [u] /\ probedForUnits https row = Some u).
Proof.
  destruct (measureRow_monitor https now i row m) as [Hlat Hcur].
  unfold infoProbes, keysetProbes. rewrite Hlat, Hcur.
  assert (exists infos,
            issues info_url (infoRequests (latencyState m), pendingRequests (latencyState m))
              (infoRequests
                 match probed https row with
                 | Some u => snd (measureLatency u now (latencyState m))
                 | None => latencyState m
                 end,
               pendingRequests
                 match probed https row with
                 | Some u => snd (measureLatency u now (latencyState m))
                 | None => latencyState m
                 end) infos /\
            (infos = [] \/ exists u, infos = [u] /\ probed https row = Some u))
    as (infos & Hinfos & Hwhich).
  { destruct (probed https row) as [u |].
    - destruct (measureLatency_issues u now (latencyState m)) as (news & H & [-> | ->]).
      + exists []. split; [exact H | auto].
      + exists [u]. split; [exact H | eauto].
    - exists []. split; [apply issues_nothing | auto]. }
  assert (exists keysets,
            issues keysets_url
              (keysetRequests (unitsState m), pendingCurrencyRequests (unitsState m))
              (keysetRequests
                 match probedForUnits https row with
                 | Some u => snd (fetchSupportedUnits u now (unitsState m))
                 | None => unitsState m
                 end,
               pendingCurrencyRequests
                 match probedForUnits https row with
                 | Some u => snd (fetchSupportedUnits u now (unitsState m))
                 | None => unitsState m
                 end) keysets /\
            (keysets = [] \/
             exists u, keysets = [u] /\ probedForUnits https row = Some u))
    as (keysets & Hkeysets & Hwhich').
  { destruct (probedForUnits https row) as [u |].
    - destruct (fetchSupportedUnits_issues u now (unitsState m))
        as (news & H & [-> | ->]).
      + exists []. split; [exact H | auto].
      + exists [u]. split; [exact H | eauto].
    - exists []. split; [apply issues_nothing | auto]. }
  exists infos, keysets. auto.
Qed.

Lemma measureRows_issues https clock rows :
  forall i m,
    exists infos keysets,
      issues info_url (infoProbes m)
        (infoProbes (snd (fst (measureRows https clock i rows m)))) infos /\
      issues keysets_url (keysetProbes m)
        (keysetProbes (snd (fst (measureRows https clock i rows m)))) keysets /\
      NoDup infos /\ NoDup keysets /\
      (forall u, u ∈ infos -> Some u ∈ map (probed https) rows) /\
      (forall u, u ∈ keysets -> Some u ∈ map (probedForUnits https) rows).
Proof.
  induction rows as [| row rows IH]; intros i m.
  - exists [], []. simpl.
    split; [apply issues_nothing |]. split; [apply issues_nothing |].
    split; [apply NoDup_nil_2 |]. split; [apply NoDup_nil_2 |].
    split; intros u Hu; apply elem_of_nil in Hu; contradiction.
  - simpl measureRows.
    destruct (measureRow_issues https (clock i) i row m)
      as (infos & keysets & Hinfos & Hkeysets & Hi & Hk).
    destruct (measureRow https (clock i) i row m) as [[row' m1] first].
    cbn [fst snd] in Hinfos, Hkeysets.
    destruct (IH (S i) m1)
      as (infos' & keysets' & Hinfos' & Hkeysets' & Hnd & Hnd' & Hin & Hin').
    destruct (measureRows https clock (S i) rows m1) as [[rest m2] others].
    cbn [fst snd] in *.
    exists (infos ++ infos'), (keysets ++ keysets').
    split; [eapply issues_then; eassumption |].
    split; [eapply issues_then; eassumption |].
    split.
    { eapply issues_NoDup; try eassumption.
      destruct Hi as [-> | (u & -> & _)]; [apply NoDup_nil_2 | apply NoDup_singleton]. }
    split.
    { eapply issues_NoDup; try eassumption.
      destruct Hk as [-> | (u & -> & _)]; [apply NoDup_nil_2 | apply NoDup_singleton]. }
    split.
    + intros u Hu. apply elem_of_app in Hu as [Hu | Hu].
      * destruct Hi as [-> | (v & -> & Hv)]; [apply elem_of_nil in Hu; contradiction |].
        apply list_elem_of_singleton in Hu as ->. rewrite <- Hv. apply list_elem_of_here.
      * apply list_elem_of_further. apply Hin. exact Hu.
    + intros u Hu. apply elem_of_app in Hu as [Hu | Hu].
      * destruct Hk as [-> | (v & -> & Hv)]; [apply elem_of_nil in Hu; contradiction |].
        apply list_elem_of_singleton in Hu as ->. rewrite <- Hv. apply list_elem_of_here.
      * apply list_elem_of_further. apply Hin'. exact Hu.
Qed.

(** X14. One pass of [measureAllVisibleMints] over the table sends at
    most one info request and at most one keysets request for a mint URL,
    however many rows show that mint, and none for a URL whose probe is
    already registered. Requests go out only for rows that have a mint
    link and a cell, keysets requests only for those that also have a
    currencies cell. *)
Theorem pass_probes_each_mint_once (https : bool) (clock : nat -> Time)
    (rows : list MintRow) (m : Monitor) :
  exists infos keysets : list string,
    infoRequests (latencyState (snd (fst (measureAllVisibleMints https clock rows m))))
    = infoRequests (latencyState m) ++ map info_url infos /\
    keysetRequests (unitsState (snd (fst (measureAllVisibleMints https clock rows m))))
    = keysetRequests (unitsState m) ++ map keysets_url keysets /\
    NoDup infos /\ NoDup keysets /\
    (forall u, u ∈ infos ->
       Some u ∈ map (probed https) rows /\
       pendingRequests (latencyState m) !! u = None) /\
    (forall u, u ∈ keysets ->
       Some u ∈ map (probedForUnits https) rows /\
       pendingCurrencyRequests (unitsState m) !! u = None).
Proof.
  unfold measureAllVisibleMints.
  destruct (measureRows_issues https clock rows 0%nat m)
    as (infos & keysets & (Hreq & Hnew & _) & (Hreq' & Hnew' & _) & Hnd & Hnd' & Hin & Hin').
  exists infos, keysets.
  split; [exact Hreq |]. split; [exact Hreq' |].
  split; [exact Hnd |]. split; [exact Hnd' |]. split.
  - intros u Hu. split; [apply Hin; exact Hu | apply (Hnew u Hu)].
  - intros u Hu. split; [apply Hin'; exact Hu | apply (Hnew' u Hu)].
Qed.

Example pass_over_sampleRows :
  let m := snd (fst (measureAllVisibleMints true (fun _ => time0) sampleRows freshMonitor)) in
  infoRequests (latencyState m)
  = ["https://a.example/v1/info"; "https://b.example/v1/info"]%string /\
  keysetRequests (unitsState m)
  = ["https://a.example/v1/keysets"; "https://b.example/v1/keysets"]%string /\
  snd (measureAllVisibleMints true (fun _ => time0) sampleRows freshMonitor)
  = [ShowLatency 0 2 (Awaits 0); ShowUnits 0 1 (Awaits 0);
     ShowLatency 1 2 (Awaits 1); ShowUnits 1 1 (Awaits 1);
     ShowLatency 2 2 (Awaits 0); ShowUnits 2 1 (Awaits 0)].
Proof. vm_compute. repeat split. Qed.

End PassRequests.

(** ** Rows that show the same mint *)

Section SharedProbe.

Local Open Scope Z_scope.

Variable https : bool.
Variable clock : nat -> Time.
Hypothesis clock_monotone :
  forall n n', (n <= n')%nat -> date_now (clock n) <= date_now (clock n').

Lemma awaited_later u p t t' st : t <= t' -> awaited u p t st -> awaited u p t' st.
Proof.
  intros Ht [Hp Hc]. split; [exact Hp |]. intros c Hu. specialize (Hc c Hu). lia.
Qed.

Lemma measureLatency_keeps_awaited v now st u p t :
  awaited u p t st -> awaited u p t (snd (measureLatency v now st)).
Proof.
  intros [Hp Hc].
  destruct (measureLatency_cases v now st)
    as [(c & _ & _ & ->) | [_ [(q & _ & ->) | [Hnone ->]]]];
    try (split; assumption).
  split; simpl; [| exact Hc].
  rewrite lookup_insert_ne; [exact Hp | congruence].
Qed.

Lemma measureLatency_awaited u p t st now :
  awaited u p t st -> t <= date_now now ->
  fst (measureLatency u now st) = Awaits p.
Proof.
  intros [Hp Hc] Ht.
  destruct (measureLatency_cases u now st)
    as [(c & Hu & Hf & _) | [_ [(q & Hq & ->) | [Hnone _]]]].
  - rewrite (fresh_not_stale now c t Ht (Hc c Hu)) in Hf. discriminate.
  - simpl. congruence.
  - congruence.
Qed.

Lemma measureLatency_awaits u now st p :
  fst (measureLatency u now st) = Awaits p ->
  awaited u p (date_now now) (snd (measureLatency u now st)).
Proof.
  destruct (measureLatency_cases u now st)
    as [(c & _ & _ & ->) | [Hstale [(q & Hq & ->) | [Hnone ->]]]]; simpl.
  - discriminate.
  - intros [= <-]. split; [exact Hq |]. intros c Hc. apply not_fresh. auto.
  - intros [= <-]. split; simpl.
    + apply lookup_insert_eq.
    + intros c Hc. apply not_fresh. auto.
Qed.

(** The entries of [measurements] of one row. *)
Lemma measureRow_shows now i row m i1 j r :
  ShowLatency i1 j r ∈ snd (measureRow https now i row m) ->
  i1 = i /\
  exists u, probed https row = Some u /\
            r = fst (measureLatency u now (latencyState m)).
Proof.
  unfold measureRow, probed.
  destruct (link row) as [href |]; [| intros H; apply elem_of_nil in H; contradiction].
  destruct (latencyCell row) as [[j0 cell] |];
    [| intros H; apply elem_of_nil in H; contradiction].
  destruct (measureLatency _ now (latencyState m)) as [r0 lat] eqn:Hcall.
  match goal with |- context [currenciesCell ?x] =>
    destruct (currenciesCell x) as [[k c] |] end.
  - destruct (fetchSupportedUnits _ now (unitsState m)) as [u0 cur]. simpl.
    intros H. apply elem_of_cons in H as [[= -> -> ->] | H].
    + split; [reflexivity |]. eexists. split; [reflexivity |].
      rewrite Hcall. reflexivity.
    + apply list_elem_of_singleton in H. discriminate H.
  - simpl. intros H. apply list_elem_of_singleton in H. injection H as -> -> ->.
    split; [reflexivity |]. eexists. split; [reflexivity |].
    rewrite Hcall. reflexivity.
Qed.

Lemma measureRow_keeps_awaited now i row m u p t :
  awaited u p t (latencyState m) ->
  awaited u p t (latencyState (snd (fst (measureRow https now i row m)))).
Proof.
  intros H. destruct (measureRow_monitor https now i row m) as [-> _].
  destruct (probed https row); [apply measureLatency_keeps_awaited |]; exact H.
Qed.

Lemma measureRows_from rows :
  forall i m i1 j r,
    ShowLatency i1 j r ∈ snd (measureRows https clock i rows m) -> (i <= i1)%nat.
Proof.
  induction rows as [| row rows IH]; intros i m i1 j r; simpl.
  - intros H. apply elem_of_nil in H. contradiction.
  - pose proof (measureRow_shows (clock i) i row m i1 j r) as Hfirst.
    destruct (measureRow https (clock i) i row m) as [[row' m1] first].
    pose proof (IH (S i) m1 i1 j r) as Hothers.
    destruct (measureRows https clock (S i) rows m1) as [[rest m2] others].
    cbn [fst snd] in *. intros H. apply elem_of_app in H as [H | H].
    + destruct (Hfirst H) as [-> _]. lia.
    + specialize (Hothers H). lia.
Qed.

(** Once a probe for [u] is awaited, the rest of the pass attaches every
    row of [u] to it. *)
Lemma measureRows_awaited u p t rows :
  forall i m i1 j r row,
    awaited u p t (latencyState m) ->
    t <= date_now (clock i) ->
    ShowLatency i1 j r ∈ snd (measureRows https clock i rows m) ->
    rows !! (i1 - i)%nat = Some row -> probed https row = Some u ->
    r = Awaits p.
Proof.
  induction rows as [| row0 rows IH]; intros i m i1 j r row Haw Ht; simpl.
  - intros H. apply elem_of_nil in H. contradiction.
  - pose proof (measureRow_shows (clock i) i row0 m i1 j r) as Hfirst.
    pose proof (measureRow_keeps_awaited (clock i) i row0 m u p t Haw) as Hkeep.
    destruct (measureRow https (clock i) i row0 m) as [[row' m1] first].
    pose proof (IH (S i) m1 i1 j r row) as Hothers.
    pose proof (measureRows_from rows (S i) m1 i1 j r) as Hfrom.
    destruct (measureRows https clock (S i) rows m1) as [[rest m2] others].
    cbn [fst snd] in *. intros H Hrow Hu. apply elem_of_app in H as [H | H].
    + destruct (Hfirst H) as [-> (v & Hv & ->)].
      rewrite Nat.sub_diag in Hrow. injection Hrow as ->.
      assert (v = u) as -> by congruence.
      apply (measureLatency_awaited u p t); assumption.
    + specialize (Hfrom H).
      apply Hothers; try assumption.
      * pose proof (clock_monotone i (S i) ltac:(lia)). lia.
      * replace (i1 - i)%nat with (S (i1 - S i)) in Hrow by lia. exact Hrow.
Qed.

Lemma measureRows_shared u p rows :
  forall i m i1 i2 j1 j2 r row1 row2,
    (i1 <= i2)%nat ->
    rows !! (i1 - i)%nat = Some row1 -> probed https row1 = Some u ->
    rows !! (i2 - i)%nat = Some row2 -> probed https row2 = Some u ->
    ShowLatency i1 j1 (Awaits p) ∈ snd (measureRows https clock i rows m) ->
    ShowLatency i2 j2 r ∈ snd (measureRows https clock i rows m) ->
    r = Awaits p.
Proof.
  induction rows as [| row0 rows IH];
    intros i m i1 i2 j1 j2 r row1 row2 Hle Hrow1 Hu1 Hrow2 Hu2; simpl.
  - intros H. apply elem_of_nil in H. contradiction.
  - pose proof (measureRow_shows (clock i) i row0 m i1 j1 (Awaits p)) as Hfirst1.
    pose proof (measureRow_shows (clock i) i row0 m i2 j2 r) as Hfirst2.
    pose proof (measureRow_monitor https (clock i) i row0 m) as [Hlat _].
    destruct (measureRow https (clock i) i row0 m) as [[row' m1] first].
    pose proof (IH (S i) m1 i1 i2 j1 j2 r row1 row2 Hle) as Hothers.
    pose proof (measureRows_awaited u p (date_now (clock i)) rows (S i) m1 i2 j2 r row2)
      as Hattach.
    pose proof (measureRows_from rows (S i) m1 i1 j1 (Awaits p)) as Hfrom1.
    pose proof (measureRows_from rows (S i) m1 i2 j2 r) as Hfrom2.
    destruct (measureRows https clock (S i) rows m1) as [[rest m2] others].
    cbn [fst snd] in *. intros H1 H2.
    apply elem_of_app in H1 as [H1 | H1]; apply elem_of_app in H2 as [H2 | H2].
    + destruct (Hfirst1 H1) as [-> (v & Hv & Hp)].
      destruct (Hfirst2 H2) as [-> (v' & Hv' & ->)]. congruence.
    + destruct (Hfirst1 H1) as [-> (v & Hv & Hp)].
      rewrite Nat.sub_diag in Hrow1. injection Hrow1 as ->.
      assert (v = u) as -> by congruence.
      specialize (Hfrom2 H2).
      apply Hattach; try assumption.
      * rewrite Hlat, Hu1. apply measureLatency_awaits. symmetry. exact Hp.
      * apply clock_monotone. lia.
      * replace (i2 - i)%nat with (S (i2 - S i)) in Hrow2 by lia. exact Hrow2.
    + specialize (Hfrom1 H1). destruct (Hfirst2 H2) as [-> _]. lia.
    + specialize (Hfrom1 H1). specialize (Hfrom2 H2).
      apply Hothers; try assumption.
      * replace (i1 - i)%nat with (S (i1 - S i)) in Hrow1 by lia. exact Hrow1.
      * replace (i2 - i)%nat with (S (i2 - S i)) in Hrow2 by lia. exact Hrow2.
Qed.

(** X15. Rows that show the same mint share one probe: when, in one pass
    of [measureAllVisibleMints], the latency of a row waits for the
    promise of a probe, then the latency of every later row with the same
    mint URL waits for that same promise, so all of them are updated with
    one and the same result. The clock readings of the pass do not go
    back. *)
Theorem rows_of_one_mint_share_the_probe (rows : list MintRow) (m : Monitor)
    (i i' j j' p : nat) (r : Return Z) (row row' : MintRow) (u : string) :
  (i <= i')%nat ->
  rows !! i = Some row -> probed https row = Some u ->
  rows !! i' = Some row' -> probed https row' = Some u ->
  ShowLatency i j (Awaits p) ∈ snd (measureAllVisibleMints https clock rows m) ->
  ShowLatency i' j' r ∈ snd (measureAllVisibleMints https clock rows m) ->
  r = Awaits p.
Proof.
  intros Hle Hrow Hu Hrow' Hu'. unfold measureAllVisibleMints.
  apply (measureRows_shared u p rows 0%nat m i i' j j' r row row' Hle);
    rewrite ?Nat.sub_0_r; assumption.
Qed.

End SharedProbe.

Section SharedProbeSample.

Local Open Scope Z_scope.

Lemma rows_of_one_mint_share_the_probe_witness :
  ShowLatency 0 2 (Awaits 0)
    ∈ snd (measureAllVisibleMints true (fun _ => time0) sampleRows freshMonitor) /\
  ShowLatency 2 2 (Awaits 0)
    ∈ snd (measureAllVisibleMints true (fun _ => time0) sampleRows freshMonitor) /\
  Awaits 0 = Awaits (V:=Z) 0.
Proof.
  assert (ShowLatency 0 2 (Awaits 0)
            ∈ snd (measureAllVisibleMints true (fun _ => time0) sampleRows freshMonitor))
    as H0 by (vm_compute; apply list_elem_of_In; simpl; auto).
  assert (ShowLatency 2 2 (Awaits 0)
            ∈ snd (measureAllVisibleMints true (fun _ => time0) sampleRows freshMonitor))
    as H2 by (vm_compute; apply list_elem_of_In; simpl; tauto).
  split; [exact H0 |]. split; [exact H2 |].
  exact (rows_of_one_mint_share_the_probe true (fun _ => time0)
           (fun n n' _ => Z.le_refl _) sampleRows freshMonitor
           0%nat 2%nat 2%nat 2%nat 0%nat (Awaits 0)
           (sampleRow "alpha" "http://a.example")
           (sampleRow "alpha again" "http://a.example")
           "https://a.example"%string ltac:(lia) eq_refl eq_refl eq_refl eq_refl H0 H2).
Defined.

End SharedProbeSample.

(** ** More on the probes and their caches *)

Section ProbesMore.

Local Open Scope Z_scope.

(** X16. A call is answered from the cache only by an entry younger than
    [CACHE_DURATION_MS] at the time of the call, and with the value of
    that entry: no value 10 seconds old or older is ever handed out, for
    either probe. Right after the caches are cleared, as the periodic
    refresh does, no call is answered from them. *)
Theorem cached_answers_are_fresh (now : Time) (lat : Latency) (cur : Units)
    (u : string) :
  (forall v, fst (measureLatency u now lat) = Immediate v ->
     exists c, latencyCache lat !! u = Some c /\ value c = v /\
               date_now now - timestamp c < CACHE_DURATION_MS) /\
  (forall v, fst (fetchSupportedUnits u now cur) = Immediate v ->
     exists c, currencyCache cur !! u = Some c /\ value c = v /\
               date_now now - timestamp c < CACHE_DURATION_MS) /\
  (exists p, fst (measureLatency u now (clearLatency lat)) = Awaits p) /\
  (exists p, fst (fetchSupportedUnits u now (clearUnits cur)) = Awaits p).
Proof.
  split; [| split; [| split]].
  - intros v.
    destruct (measureLatency_cases u now lat)
      as [(c & Hc & Hf & ->) | [_ [(p & _ & ->) | [_ ->]]]]; simpl;
      try discriminate.
    intros [= <-]. exists c. split; [exact Hc |]. split; [reflexivity |].
    unfold is_fresh in Hf. apply Z.ltb_lt in Hf. exact Hf.
  - intros v.
    destruct (fetchSupportedUnits_cases u now cur)
      as [(c & Hc & Hf & ->) | [_ [(p & _ & ->) | [_ ->]]]]; simpl;
      try discriminate.
    intros [= <-]. exists c. split; [exact Hc |]. split; [reflexivity |].
    unfold is_fresh in Hf. apply Z.ltb_lt in Hf. exact Hf.
  - destruct (measureLatency_cases u now (clearLatency lat))
      as [(c & Hc & _) | [_ [(p & _ & ->) | [_ ->]]]]; simpl; eauto.
    simpl in Hc. rewrite lookup_empty in Hc. discriminate.
  - destruct (fetchSupportedUnits_cases u now (clearUnits cur))
      as [(c & Hc & _) | [_ [(p & _ & ->) | [_ ->]]]]; simpl; eauto.
    simpl in Hc. rewrite lookup_empty in Hc. discriminate.
Qed.

(** X17. The registries of pending requests list exactly the probes in
    flight, each under its URL, in every reachable state. The entry of a
    latency probe goes when its fetch settles, whatever the outcome; the
    entry of a capability probe stays while the body of an [ok] response
    is read, and goes when the probe ends: with the fetch, when that
    fails or the response is not [ok], or with the body, parsed or
    not. *)
Theorem registry_lists_probes_in_flight (t : Z) (lat : Latency) (cur : Units) :
  latency_reachable t lat -> units_reachable t cur ->
  (forall u p, pendingRequests lat !! u = Some p <->
               exists k, measuring lat !! p = Some k /\ measure_url k = u) /\
  (forall u p, pendingCurrencyRequests cur !! u = Some p <->
               exists k, fetching cur !! p = Some k /\ fetching_url k = u) /\
  (forall p k r now,
      measuring lat !! p = Some k ->
      pendingRequests (settleLatency p r now lat) !! measure_url k = None /\
      measuring (settleLatency p r now lat) !! p = None) /\
  (forall p u,
      fetching cur !! p = Some (AwaitFetch u) ->
      pendingCurrencyRequests (settleUnitsFetch p (Response true) cur) !! u = Some p /\
      forall r, r <> Response true ->
        pendingCurrencyRequests (settleUnitsFetch p r cur) !! u = None /\
        fetching (settleUnitsFetch p r cur) !! p = None) /\
  (forall p u body now,
      fetching cur !! p = Some (AwaitJson u) ->
      pendingCurrencyRequests (settleUnitsJson p body now cur) !! u = None /\
      fetching (settleUnitsJson p body now cur) !! p = None).
Proof.
  intros Hlat Hcur.
  apply latency_reachable_invariant in Hlat.
  apply units_reachable_invariant in Hcur.
  split; [| split; [| split; [| split]]].
  - intros u p. split.
    + apply (latency_registered t lat Hlat).
    + intros (k & Hk & <-). apply (latency_in_flight t lat Hlat). exact Hk.
  - intros u p. split.
    + apply (units_registered t cur Hcur).
    + intros (k & Hk & <-). apply (units_in_flight t cur Hcur). exact Hk.
  - intros p k r now Hk. unfold settleLatency. rewrite Hk. simpl.
    split; apply lookup_delete_eq.
  - intros p u Hk. unfold settleUnitsFetch. rewrite Hk. split.
    + simpl. apply (units_in_flight t cur Hcur p _ Hk).
    + intros r Hr. destruct r as [[|] | |]; try congruence; simpl;
        (split; apply lookup_delete_eq).
  - intros p u body now Hk. unfold settleUnitsJson. rewrite Hk.
    destruct body; simpl; (split; apply lookup_delete_eq).
Qed.

Lemma finishUnits_retried t st p u result later :
  units_invariant t st -> pendingCurrencyRequests st !! u = Some p ->
  t <= date_now later ->
  fst (fetchSupportedUnits u later (finishUnits p u None result st))
  = Awaits (nextFetch st) /\
  keysetRequests (snd (fetchSupportedUnits u later (finishUnits p u None result st)))
  = keysetRequests st ++ [keysets_url u].
Proof.
  intros Hinv Hp Ht.
  destruct (fetchSupportedUnits_cases u later (finishUnits p u None result st))
    as [(c & Hc & Hf & _) | [_ [(q & Hq & _) | [_ ->]]]]; simpl in *.
  - pose proof (units_stale t st Hinv _ _ c Hp Hc) as Hstale.
    rewrite (fresh_not_stale later c t Ht Hstale) in Hf. discriminate.
  - rewrite lookup_delete_eq in Hq. discriminate.
  - split; reflexivity.
Qed.

(** X18. A failed capability probe is tried again: after the fetch of a
    probe in flight failed or was answered without [ok], or the body of
    its response could not be parsed, the next call for the same URL
    starts a new probe and sends one keysets request. *)
Theorem failed_units_probe_is_retried (t : Z) (st : Units) (p : nat) (u : string)
    (later : Time) :
  units_reachable t st -> t <= date_now later ->
  (forall r,
      fetching st !! p = Some (AwaitFetch u) -> r <> Response true ->
      fst (fetchSupportedUnits u later (settleUnitsFetch p r st))
      = Awaits (nextFetch st) /\
      keysetRequests (snd (fetchSupportedUnits u later (settleUnitsFetch p r st)))
      = keysetRequests st ++ [keysets_url u]) /\
  (forall now,
      fetching st !! p = Some (AwaitJson u) ->
      fst (fetchSupportedUnits u later (settleUnitsJson p None now st))
      = Awaits (nextFetch st) /\
      keysetRequests (snd (fetchSupportedUnits u later (settleUnitsJson p None now st)))
      = keysetRequests st ++ [keysets_url u]).
Proof.
  intros Hreach Ht. apply units_reachable_invariant in Hreach. split.
  - intros r Hk Hr.
    pose proof (units_in_flight t st Hreach p _ Hk) as Hp. simpl in Hp.
    unfold settleUnitsFetch. rewrite Hk.
    destruct r as [[|] | |]; try congruence;
      apply (finishUnits_retried t); assumption.
  - intros now Hk.
    pose proof (units_in_flight t st Hreach p _ Hk) as Hp. simpl in Hp.
    unfold settleUnitsJson. rewrite Hk.
    apply (finishUnits_retried t); assumption.
Qed.

End ProbesMore.

(** ** Book-keeping of the probes *)

Section Accounting.

Local Open Scope Z_scope.

Lemma latency_accounting_init : latency_accounting latency_init.
Proof.
  split; simpl.
  - reflexivity.
  - intros p k H. rewrite lookup_empty in H. discriminate.
  - intros p. split; [lia |]. intros [[x H] | [x H]]; rewrite lookup_empty in H;
      discriminate.
  - intros p _. apply lookup_empty.
Qed.

Lemma latency_accounting_call mintUrl now st :
  latency_accounting st -> latency_accounting (snd (measureLatency mintUrl now st)).
Proof.
  intros Hacc.
  destruct (measureLatency_cases mintUrl now st)
    as [(c & _ & _ & ->) | [_ [(q & _ & ->) | [_ ->]]]]; try exact Hacc.
  destruct Hacc as [Hlen Hreq Hall Hnot]. split; simpl.
  - rewrite length_app, Hlen. simpl. lia.
  - intros p k. destruct (decide (nextMeasure st = p)) as [<- | Hne].
    + rewrite lookup_insert_eq. intros [= <-]. simpl.
      rewrite <- Hlen. apply list_lookup_middle. reflexivity.
    + rewrite lookup_insert_ne by exact Hne. intros Hk.
      apply lookup_app_l_Some. apply Hreq. exact Hk.
  - intros p. destruct (decide (nextMeasure st = p)) as [<- | Hne].
    + rewrite lookup_insert_eq. split; [eauto | lia].
    + rewrite lookup_insert_ne by exact Hne. rewrite <- Hall. lia.
  - intros p. destruct (decide (nextMeasure st = p)) as [<- | Hne].
    + intros _. destruct (measured st !! nextMeasure st) as [v |] eqn:Hv;
        [| reflexivity].
      assert (nextMeasure st < nextMeasure st)%nat by (apply Hall; eauto). lia.
    + rewrite lookup_insert_ne by exact Hne. apply Hnot.
Qed.

Lemma latency_accounting_settle p r now st :
  latency_accounting st -> latency_accounting (settleLatency p r now st).
Proof.
  intros Hacc. unfold settleLatency.
  destruct (measuring st !! p) as [task |] eqn:Hp; [| exact Hacc].
  destruct Hacc as [Hlen Hreq Hall Hnot]. split; simpl.
  - exact Hlen.
  - intros q k Hq. apply lookup_delete_Some in Hq as [_ Hq]. apply Hreq. exact Hq.
  - intros q. destruct (decide (p = q)) as [<- | Hne].
    + rewrite lookup_insert_eq. split; [eauto |]. intros _. apply Hall. eauto.
    + rewrite lookup_delete_ne, lookup_insert_ne by exact Hne. apply Hall.
  - intros q [k Hq]. apply lookup_delete_Some in Hq as [Hne Hq].
    rewrite lookup_insert_ne by exact Hne. apply Hnot. eauto.
Qed.

Lemma latency_reachable_accounting t st :
  latency_reachable t st -> latency_accounting st.
Proof.
  induction 1 as [t | t st e now Hreach IH Ht].
  - apply latency_accounting_init.
  - destruct e as [mintUrl | p r |]; simpl.
    + apply latency_accounting_call. exact IH.
    + apply latency_accounting_settle. exact IH.
    + destruct IH as [Hlen Hreq Hall Hnot]. split; assumption.
Qed.

(** X19. The book-keeping of the latency probes in every reachable
    state: as many info requests have been sent as probes were started,
    the request of a probe in flight went to the info address of its URL,
    every probe started is either in flight or settled and never both,
    and the result a probe settled with is never changed afterwards, by
    no call, settlement or cache clear. *)
Theorem every_probe_is_one_request (t : Z) (st : Latency) :
  latency_reachable t st ->
  length (infoRequests st) = nextMeasure st /\
  (forall p k, measuring st !! p = Some k ->
     infoRequests st !! p = Some (info_url (measure_url k))) /\
  (forall p, (p < nextMeasure st)%nat <->
     is_Some (measuring st !! p) \/ is_Some (measured st !! p)) /\
  (forall p, is_Some (measuring st !! p) -> measured st !! p = None) /\
  (forall e now p v,
     measured st !! p = Some v -> measured (latency_step e now st) !! p = Some v).
Proof.
  intros Hreach. apply latency_reachable_accounting in Hreach.
  destruct Hreach as [Hlen Hreq Hall Hnot].
  split; [exact Hlen |]. split; [exact Hreq |]. split; [exact Hall |].
  split; [exact Hnot |].
  intros [mintUrl | q r |] now p v Hv; simpl.
  - destruct (measureLatency_cases mintUrl now st)
      as [(c & _ & _ & ->) | [_ [(q & _ & ->) | [_ ->]]]]; exact Hv.
  - unfold settleLatency. destruct (measuring st !! q) as [task |] eqn:Hq;
      [| exact Hv].
    simpl. rewrite lookup_insert_ne; [exact Hv |].
    intros <-. rewrite (Hnot q) in Hv by eauto. discriminate.
  - exact Hv.
Qed.

Lemma strip_slash_snoc s :
  strip_slash s = s -> strip_slash (s ++ "/") = s.
Proof.
  induction s as [| a s IH]; [reflexivity |].
  destruct s as [| b s].
  - simpl. destruct (Ascii.eqb a "/"); [discriminate | reflexivity].
  - intros H.
    change (strip_slash (String a (String b s)))
      with (String a (strip_slash (String b s))) in H.
    injection H as H.
    change (strip_slash (String a (String b s) ++ "/"))
      with (String a (strip_slash (String b s ++ "/"))).
    rewrite (IH H). reflexivity.
Qed.

Lemma append_slash_differs s : (s ++ "/")%string <> s.
Proof.
  induction s as [| a s IH]; [discriminate |].
  change (String a (s ++ "/") <> String a s)%string.
  intros H. injection H as H. exact (IH H).
Qed.

(** X20. The caches and registries are keyed by the mint URL as it is
    given, the requests go to the URL without its trailing slash: a mint
    listed once with and once without the slash is probed twice, with
    two requests to the same address. *)
Theorem trailing_slash_probes_twice (u : string) (now later : Time) (st : Latency) :
  strip_slash u = u ->
  latencyCache st !! u = None -> pendingRequests st !! u = None ->
  latencyCache st !! (u ++ "/")%string = None ->
  pendingRequests st !! (u ++ "/")%string = None ->
  info_url (u ++ "/") = info_url u /\
  fst (measureLatency u now st) = Awaits (nextMeasure st) /\
  fst (measureLatency (u ++ "/") later (snd (measureLatency u now st)))
  = Awaits (S (nextMeasure st)) /\
  infoRequests (snd (measureLatency (u ++ "/") later (snd (measureLatency u now st))))
  = infoRequests st ++ [info_url u; info_url u].
Proof.
  intros Hu Hc Hp Hc' Hp'.
  assert (info_url (u ++ "/") = info_url u) as Hsame
    by (unfold info_url; rewrite (strip_slash_snoc u Hu), Hu; reflexivity).
  split; [exact Hsame |].
  assert (measureLatency u now st
          = (Awaits (nextMeasure st),
             {| latencyCache := latencyCache st;
                pendingRequests := <[u := nextMeasure st]> (pendingRequests st);
                measuring :=
                  <[nextMeasure st :=
                      {| measure_url := u; start := performance_now now |}]>
                    (measuring st);
                measured := measured st;
                infoRequests := infoRequests st ++ [info_url u];
                nextMeasure := S (nextMeasure st) |})) as ->
    by (unfold measureLatency; rewrite Hc, Hp; reflexivity).
  cbn [fst snd]. split; [reflexivity |].
  unfold measureLatency. cbn [latencyCache pendingRequests nextMeasure infoRequests].
  rewrite Hc', lookup_insert_ne, Hp' by (apply not_eq_sym, append_slash_differs).
  cbn [fst snd infoRequests]. split; [reflexivity |].
  rewrite Hsame, <- app_assoc. reflexivity.
Qed.

End Accounting.

(** ** The order of the units *)

Section UnitOrder.

Lemma fold_set_add_from acc l :
  forall rest,
    fold_left set_add l (acc ++ rest)
    = acc ++ fold_left set_add (List.filter (fun y => bool_decide (y ∉ acc)) l) rest.
Proof.
  induction l as [| x l IH]; intros rest; [reflexivity |].
  cbn [fold_left List.filter].
  destruct (decide (x ∈ acc)) as [Hin | Hout].
  - rewrite (bool_decide_eq_false_2 (x ∉ acc)) by tauto.
    rewrite <- IH. f_equal.
    unfold set_add. rewrite bool_decide_eq_true_2; [reflexivity |].
    apply elem_of_app. left. exact Hin.
  - rewrite (bool_decide_eq_true_2 (x ∉ acc)) by exact Hout.
    cbn [fold_left]. unfold set_add at 2 4.
    destruct (decide (x ∈ rest)) as [Hrest | Hrest].
    + rewrite (bool_decide_eq_true_2 (x ∈ acc ++ rest))
        by (apply elem_of_app; right; exact Hrest).
      rewrite (bool_decide_eq_true_2 _ Hrest). apply IH.
    + rewrite (bool_decide_eq_false_2 (x ∈ acc ++ rest))
        by (rewrite elem_of_app; tauto).
      rewrite (bool_decide_eq_false_2 _ Hrest), <- app_assoc. apply IH.
Qed.

Lemma filter_others x l :
  List.filter (fun y => bool_decide (y ∉ [x])) l
  = List.filter (fun y => negb (String.eqb y x)) l.
Proof.
  apply filter_ext. intros y. destruct (String.eqb_spec y x) as [-> | Hne].
  - apply bool_decide_eq_false_2. rewrite list_elem_of_singleton. tauto.
  - apply bool_decide_eq_true_2. rewrite list_elem_of_singleton. exact Hne.
Qed.

Lemma spread_set_cons x l :
  spread_set (x :: l)
  = x :: spread_set (List.filter (fun y => negb (String.eqb y x)) l).
Proof.
  unfold spread_set. cbn [fold_left]. unfold set_add at 2.
  rewrite bool_decide_eq_false_2 by apply not_elem_of_nil.
  change ([] ++ [x]) with ([x] ++ @nil string).
  rewrite (fold_set_add_from [x] l []), filter_others. reflexivity.
Qed.

Lemma filter_others_id x l :
  x ∉ l -> List.filter (fun y => negb (String.eqb y x)) l = l.
Proof.
  induction l as [| y l IH]; [reflexivity |]. intros Hx.
  rewrite not_elem_of_cons in Hx. destruct Hx as [Hne Hx]. cbn [List.filter].
  destruct (String.eqb_spec y x) as [-> | _]; [contradiction |].
  simpl. rewrite (IH Hx). reflexivity.
Qed.

(** X21. The units of a mint are listed in the order in which they first
    appear among its active key sets: the first unit comes first, and
    the rest is the list made of the remaining units without it. A list
    without repetitions is kept as it is. *)
Theorem units_in_order_of_first_appearance (x : string) (l : list string) :
  spread_set (x :: l)
  = x :: spread_set (List.filter (fun y => negb (String.eqb y x)) l) /\
  (NoDup l -> spread_set l = l).
Proof.
  split; [apply spread_set_cons |].
  induction 1 as [| y l Hy Hnd IH]; [reflexivity |].
  rewrite spread_set_cons, (filter_others_id y l Hy), IH. reflexivity.
Qed.

End UnitOrder.

(** ** The properties of the monitor on the sample runs *)

Section MonitorSamples.

Local Open Scope Z_scope.

Lemma displayed_latency_is_read_back_witness :
  exists row',
    snd (updateLatencyDisplay dashCell (Some 120) (Some downDataset)) = Some row' /\
    latency (getRowData row') = Num.of_Z 120 /\
    row' !! "capacity"%string = downDataset !! "capacity"%string /\
    latencyPenalty DEFAULTS (getRowData row')
    = Num.mul (Num.of_Z 120) (w_latency DEFAULTS).
Proof.
  destruct (displayed_latency_is_read_back dashCell (Some 120) downDataset)
    as (row' & Hrow & Hread & Hframe & Hpenalty).
  exists row'. split; [exact Hrow |]. split; [exact Hread |].
  split; [apply Hframe; discriminate | apply (Hpenalty DEFAULTS); lia].
Defined.

Lemma displayed_units_are_counted_witness :
  exists row',
    snd (updateCurrenciesDisplay currenciesDash (Some ["sat"; "usd"]%string)
           (Some downDataset)) = Some row' /\
    currencies (getRowData row') = Num.of_Z 2 /\
    row' !! "latency"%string = downDataset !! "latency"%string.
Proof.
  destruct (displayed_units_are_counted currenciesDash (Some ["sat"; "usd"]%string)
              downDataset)
    as (row' & Hrow & Hread & _ & _ & Hframe).
  exists row'. split; [exact Hrow |]. split; [exact Hread |].
  apply Hframe. discriminate.
Defined.

Lemma getLatencyClass_thresholds_witness :
  100 <= 250 /\ getLatencyClass (Some 250) = "fast"%string /\
  getLatencyClass (Some 100) = "fast"%string.
Proof.
  split; [lia |]. split; [reflexivity |].
  apply (getLatencyClass_thresholds 100 250); [lia | reflexivity].
Defined.

Lemma pass_probes_each_mint_once_witness :
  exists infos keysets : list string,
    infoRequests
      (latencyState
         (snd (fst (measureAllVisibleMints true (fun _ => time0) sampleRows
                      freshMonitor))))
    = infoRequests (latencyState freshMonitor) ++ map info_url infos /\
    keysetRequests
      (unitsState
         (snd (fst (measureAllVisibleMints true (fun _ => time0) sampleRows
                      freshMonitor))))
    = keysetRequests (unitsState freshMonitor) ++ map keysets_url keysets /\
    NoDup infos /\ NoDup keysets.
Proof.
  destruct (pass_probes_each_mint_once true (fun _ => time0) sampleRows freshMonitor)
    as (infos & keysets & Hinfos & Hkeysets & Hnd & Hnd' & _).
  exists infos, keysets. split; [exact Hinfos |]. split; [exact Hkeysets |].
  split; [exact Hnd | exact Hnd'].
Defined.

Lemma cached_answers_are_fresh_witness :
  fst (measureLatency sampleUrl time2 measuredSample) = Immediate (Some 80) /\
  exists c, latencyCache measuredSample !! sampleUrl = Some c /\
            value c = Some 80 /\
            date_now time2 - timestamp c < CACHE_DURATION_MS.
Proof.
  assert (fst (measureLatency sampleUrl time2 measuredSample) = Immediate (Some 80))
    as Hcall by (vm_compute; reflexivity).
  split; [exact Hcall |].
  exact (proj1 (cached_answers_are_fresh time2 measuredSample units_init sampleUrl)
           (Some 80) Hcall).
Defined.

Lemma registry_lists_probes_in_flight_witness :
  latency_reachable 1000 measuringSample /\ units_reachable 1000 fetchingSample /\
  (pendingRequests measuringSample !! sampleUrl = Some 0%nat <->
   exists k, measuring measuringSample !! 0%nat = Some k /\ measure_url k = sampleUrl).
Proof.
  split; [exact reachable_measuringSample |].
  split; [exact reachable_fetchingSample |].
  exact (proj1 (registry_lists_probes_in_flight 1000 measuringSample fetchingSample
                  reachable_measuringSample reachable_fetchingSample)
           sampleUrl 0%nat).
Defined.

Lemma failed_units_probe_is_retried_witness :
  units_reachable 1000 fetchingSample /\ 1000 <= date_now time1 /\
  fetching fetchingSample !! 0%nat = Some (AwaitFetch sampleUrl) /\
  NetworkError <> Response true /\
  fst (fetchSupportedUnits sampleUrl time1
         (settleUnitsFetch 0 NetworkError fetchingSample))
  = Awaits (nextFetch fetchingSample) /\
  keysetRequests
    (snd (fetchSupportedUnits sampleUrl time1
            (settleUnitsFetch 0 NetworkError fetchingSample)))
  = keysetRequests fetchingSample ++ [keysets_url sampleUrl].
Proof.
  assert (1000 <= date_now time1) as Ht by (simpl; lia).
  assert (fetching fetchingSample !! 0%nat = Some (AwaitFetch sampleUrl)) as Hk
    by (vm_compute; reflexivity).
  assert (NetworkError <> Response true) as Hr by discriminate.
  split; [exact reachable_fetchingSample |]. split; [exact Ht |].
  split; [exact Hk |]. split; [exact Hr |].
  exact (proj1 (failed_units_probe_is_retried 1000 fetchingSample 0 sampleUrl time1
                  reachable_fetchingSample Ht)
           NetworkError Hk Hr).
Defined.

Lemma every_probe_is_one_request_witness :
  latency_reachable 1080 measuredSample /\
  length (infoRequests measuredSample) = nextMeasure measuredSample.
Proof.
  split; [exact reachable_measuredSample |].
  exact (proj1 (every_probe_is_one_request 1080 measuredSample
                  reachable_measuredSample)).
Defined.

Lemma trailing_slash_probes_twice_witness :
  strip_slash "https://a.example/mint" = "https://a.example/mint"%string /\
  infoRequests
    (snd (measureLatency "https://a.example/mint/" time1
            (snd (measureLatency "https://a.example/mint" time0 latency_init))))
  = ["https://a.example/mint/v1/info"; "https://a.example/mint/v1/info"]%string.
Proof.
  split; [reflexivity |].
  exact (proj2 (proj2 (proj2
           (trailing_slash_probes_twice "https://a.example/mint" time0 time1
              latency_init eq_refl (lookup_empty _) (lookup_empty _)
              (lookup_empty _) (lookup_empty _))))).
Defined.

Lemma units_in_order_of_first_appearance_witness :
  NoDup ["usd"; "sat"]%string /\ spread_set ["usd"; "sat"]%string = ["usd"; "sat"]%string.
Proof.
  assert (NoDup ["usd"; "sat"]%string) as Hnd.
  { apply NoDup_cons_2.
    - intros H. apply list_elem_of_singleton in H. discriminate H.
    - apply NoDup_singleton. }
  split; [exact Hnd |].
  exact (proj2 (units_in_order_of_first_appearance "usd" ["usd"; "sat"]%string) Hnd).
Defined.

End MonitorSamples.
